(** * ScreenTranslator: a shallow embedding of the pipeline core

    The development follows the Python sources under [src/core]:
    - [translation_cache.py]  -> [TranslationCache]
    - [frame_differ.py]       -> [FrameDiffer]
    - [ocr_engine.py]         -> [OCREngine]
    - [style_extractor.py]    -> [StyleExtractor]
    - [translation_engine.py] -> [TranslationEngine]
    - [pipeline.py]           -> [Pipeline]

    Python integers are unbounded and are modelled by [Z]; strings by
    the [string] of their UTF-8 bytes; an [OrderedDict] by an association list whose head is the
    least recently used entry and whose last element is the most recently
    used one.  A Python exception is an explicit [Raise] result. *)

From Stdlib Require Import ZArith List String Bool Lia QArith Qabs.
Import ListNotations.
Local Open Scope Z_scope.

(** ** Exceptions and results *)

Inductive exn : Type :=
| KeyError                      (* popitem() on an empty OrderedDict *)
| IndexError                    (* list index out of range           *)
| RuntimeError (msg : string)   (* raised by the engines themselves  *)
| BackendError (msg : string).  (* raised inside an external library *)

Inductive Result (A : Type) : Type :=
| Ok (a : A)
| Raise (e : exn).
Arguments Ok {A} a.
Arguments Raise {A} e.

(** [try: body except Exception as e: handler(e)] *)
Definition try_except {A} (body : Result A) (handler : exn -> Result A)
  : Result A :=
  match body with
  | Ok a => Ok a
  | Raise e => handler e
  end.

(** Sequencing: an exception raised by [r] skips [k]. *)
Definition bind {A B} (r : Result A) (k : A -> Result B) : Result B :=
  match r with
  | Ok a => k a
  | Raise e => Raise e
  end.

(** ** translation_cache.py *)

Module TranslationCache.

(** [key = (text, source_lang, target_lang)] *)
Definition Key : Type := (string * string * string)%type.

Definition key_eq_dec (a b : Key) : {a = b} + {a <> b}.
Proof. repeat decide equality. Defined.

Definition key_eqb (a b : Key) : bool :=
  if key_eq_dec a b then true else false.

Record t : Type := mk {
  max_size : Z;
  _cache : list (Key * string);   (* head = oldest, last = newest *)
  _hits : Z;
  _misses : Z
}.

(** [TranslationCache(max_size)] *)
Definition init (max_size : Z) : t := mk max_size [] 0 0.

Definition keys (d : list (Key * string)) : list Key := map fst d.

(** [key in d] *)
Definition contains (d : list (Key * string)) (k : Key) : bool :=
  existsb (fun e => key_eqb (fst e) k) d.

(** [d[key]] for a key that may be absent *)
Fixpoint lookup (d : list (Key * string)) (k : Key) : option string :=
  match d with
  | [] => None
  | (k', v) :: d' => if key_eqb k' k then Some v else lookup d' k
  end.

(** [d[key] = v]: an existing key keeps its position, a new key is
    appended. *)
Fixpoint setitem (d : list (Key * string)) (k : Key) (v : string)
  : list (Key * string) :=
  match d with
  | [] => [(k, v)]
  | (k', v') :: d' =>
      if key_eqb k' k then (k', v) :: d' else (k', v') :: setitem d' k v
  end.

Definition remove_key (d : list (Key * string)) (k : Key)
  : list (Key * string) :=
  filter (fun e => negb (key_eqb (fst e) k)) d.

(** [d.move_to_end(key)] for a key that is present *)
Definition move_to_end (d : list (Key * string)) (k : Key)
  : list (Key * string) :=
  match lookup d k with
  | Some v => remove_key d k ++ [(k, v)]
  | None => d
  end.

(** [while len(d) > max_size: d.popitem(last=False)]; [popitem] on an
    empty dictionary raises [KeyError], which leaves the loop with the
    dictionary emptied. *)
Fixpoint evict (max_size : Z) (d : list (Key * string))
  : Result unit * list (Key * string) :=
  if Z.of_nat (List.length d) >? max_size then
    match d with
    | [] => (Raise KeyError, [])
    | _ :: d' => evict max_size d'
    end
  else (Ok tt, d).

Definition get (c : t) (text source_lang target_lang : string)
  : option string * t :=
  let key := (text, source_lang, target_lang) in
  if contains (_cache c) key then
    let d := move_to_end (_cache c) key in
    (lookup d key, mk (max_size c) d (_hits c + 1) (_misses c))
  else
    (None, mk (max_size c) (_cache c) (_hits c) (_misses c + 1)).

Definition put (c : t) (text source_lang target_lang translation : string)
  : Result unit * t :=
  let key := (text, source_lang, target_lang) in
  let d := setitem (_cache c) key translation in
  let d := move_to_end d key in
  let '(r, d) := evict (max_size c) d in
  (r, mk (max_size c) d (_hits c) (_misses c)).

Definition clear (c : t) : t := mk (max_size c) [] 0 0.

Definition size (c : t) : Z := Z.of_nat (List.length (_cache c)).

(** [cache.max_size = n], the assignment made by
    [PipelineThread.update_settings] *)
Definition set_max_size (c : t) (n : Z) : t :=
  mk n (_cache c) (_hits c) (_misses c).

(** Successive [put]s of the keys [ks], each with the value given by
    [tr]; stops at the first one that raises. *)
Fixpoint put_all (c : t) (ks : list Key) (tr : Key -> string)
  : Result unit * t :=
  match ks with
  | [] => (Ok tt, c)
  | (text, src, tgt) :: ks' =>
      match put c text src tgt (tr (text, src, tgt)) with
      | (Ok _, c') => put_all c' ks' tr
      | (Raise e, c') => (Raise e, c')
      end
  end.

(** The entries that [put_all _ ks tr] stores, in insertion order *)
Definition entries_of (ks : list Key) (tr : Key -> string)
  : list (Key * string) :=
  map (fun k => (k, tr k)) ks.

(** The dictionary invariant: no key occurs twice. *)
Definition wf (c : t) : Prop := NoDup (keys (_cache c)).

End TranslationCache.

(** ** Data shared by the stages *)

(** A frame is the dense [height x width x 3] array the capture backend
    returns (BGR, row-major, 8-bit channels). *)
Definition BGR : Type := (Z * Z * Z)%type.

Record Frame : Type := mkFrame {
  f_height : nat;
  f_width : nat;
  f_pixel : nat -> nat -> BGR      (* row, column *)
}.

Module TextBlock.

(** Modelled from the spec: [src/models/text_block.py] is not part of the
    sources at hand.  Fields and defaults follow section 3 of the
    specification and the keyword arguments the constructor receives in
    [ocr_engine.py] and [pipeline.py]: [translation] is optional and the
    two colours stay unset until the style stage fills them. *)
Record t : Type := mk {
  x : Z;
  y : Z;
  width : Z;
  height : Z;
  text : string;
  translation : option string;
  confidence : Q;
  font_size : Z;
  fg_color : option (Z * Z * Z);   (* RGB *)
  bg_color : option (Z * Z * Z)    (* RGB *)
}.

(** [TextBlock(x=, y=, width=, height=, text=, confidence=, font_size=)] *)
Definition new (x y width height : Z) (text : string) (confidence : Q)
           (font_size : Z) : t :=
  mk x y width height text None confidence font_size None None.

Definition set_translation (b : t) (tr : string) : t :=
  mk (x b) (y b) (width b) (height b) (text b) (Some tr) (confidence b)
     (font_size b) (fg_color b) (bg_color b).

Definition set_colors (b : t) (fg bg : option (Z * Z * Z)) : t :=
  mk (x b) (y b) (width b) (height b) (text b) (translation b)
     (confidence b) (font_size b) fg bg.

End TextBlock.

Module AppSettings.

Inductive CaptureMode : Type := FULLSCREEN | REGION | WINDOW.

Definition CaptureMode_eqb (a b : CaptureMode) : bool :=
  match a, b with
  | FULLSCREEN, FULLSCREEN | REGION, REGION | WINDOW, WINDOW => true
  | _, _ => false
  end.

(** Modelled from the spec: [src/models/app_settings.py] is not part of
    the sources at hand.  The record holds the fields of the settings
    snapshot that [pipeline.py] reads (section 3, Pipeline Settings).
    An absent region is [None]; an absent window title is the empty
    string (both are falsy in the source's tests). *)
Record t : Type := mk {
  capture_mode : CaptureMode;
  capture_region : option (Z * Z * Z * Z);      (* x, y, w, h *)
  capture_window_title : string;
  capture_monitor : Z;
  source_language : string;
  target_language : string;
  update_interval_ms : Z;
  frame_diff_threshold : Q;
  ocr_confidence_threshold : Q;
  max_cache_size : Z
}.

End AppSettings.

(** ** frame_differ.py *)

Module FrameDiffer.

(** A grayscale array: its [shape] and its 8-bit samples, row-major. *)
Record Gray : Type := mkGray {
  shape : Z * Z;
  samples : list Z
}.

Definition shape_eqb (a b : Z * Z) : bool :=
  (fst a =? fst b) && (snd a =? snd b).

Record t : Type := mk {
  threshold : Q;
  downsample_width : Z;
  _prev_frame : option Gray
}.

Definition default_downsample_width : Z := 320.

Definition init (threshold : Q) (downsample_width : Z) : t :=
  mk threshold downsample_width None.

Definition set_prev (d : t) (g : Gray) : t :=
  mk (threshold d) (downsample_width d) (Some g).

Definition set_threshold (d : t) (th : Q) : t :=
  mk th (downsample_width d) (_prev_frame d).

(** [np.sum(np.abs(a - b))] over two sample lists of the same shape *)
Fixpoint sum_abs_diff (a b : list Z) : Z :=
  match a, b with
  | u :: a', v :: b' => Z.abs (u - v) + sum_abs_diff a' b'
  | _, _ => 0
  end.

(** [np.mean(np.abs(gray - prev))]: the mean of an empty array is NaN,
    rendered here as [None]. *)
Definition mean_abs_diff (gray prev : Gray) : option Q :=
  match List.length (samples gray) with
  | O => None
  | S n => Some (sum_abs_diff (samples gray) (samples prev)
                 # Pos.of_succ_nat n)
  end.

(** [diff > threshold]; a comparison with NaN is false. *)
Definition exceeds (diff : option Q) (threshold : Q) : bool :=
  match diff with
  | None => false
  | Some q => negb (Qle_bool q threshold)
  end.

Section WithOpenCV.

(** Lines 31-36 of [has_changed]: [cv2.cvtColor] to grayscale, then
    [cv2.resize] to [downsample_width] columns when the frame is wider.
    The OpenCV calls are external; they may raise [cv2.error] (for
    instance when the resized height truncates to zero). *)
Variable gray_downsample : Z -> Frame -> Result Gray.

Definition has_changed (d : t) (frame : Frame) : Result bool * t :=
  match gray_downsample (downsample_width d) frame with
  | Raise e => (Raise e, d)
  | Ok gray =>
      match _prev_frame d with
      | None => (Ok true, set_prev d gray)
      | Some prev =>
          if negb (shape_eqb (shape gray) (shape prev)) then
            (Ok true, set_prev d gray)
          else
            let diff := mean_abs_diff gray prev in
            (Ok (exceeds diff (threshold d)), set_prev d gray)
      end
  end.

End WithOpenCV.

Definition reset (d : t) : t :=
  mk (threshold d) (downsample_width d) None.

End FrameDiffer.

(** ** ocr_engine.py *)

Module OCREngine.

(** Minimum text length to bother translating *)
Definition MIN_TEXT_LENGTH : Z := 5.

(** A Python [str] is a sequence of code points; a [string] here holds
    its UTF-8 encoding, byte by byte.  Every byte starts a code point
    except the continuation bytes [10xxxxxx], that is 128 to 191. *)
Definition continuation_byte (a : Ascii.ascii) : bool :=
  let n := Ascii.nat_of_ascii a in
  (128 <=? n)%nat && (n <? 192)%nat.

(** [len(text)]: the number of code points *)
Fixpoint len (text : string) : nat :=
  match text with
  | EmptyString => 0%nat
  | String a rest =>
      if continuation_byte a then len rest else S (len rest)
  end.

Record t : Type := mk {
  confidence_threshold : Q;
  _engine : bool;                 (* [self._engine is not None] *)
  _loop : bool;                   (* [self._loop is not None]   *)
  _current_lang : option string
}.

(** [OCREngine(confidence_threshold=0.3)] *)
Definition init (confidence_threshold : Q) : t :=
  mk confidence_threshold false false None.

Definition set_confidence_threshold (o : t) (c : Q) : t :=
  mk c (_engine o) (_loop o) (_current_lang o).

(** One recognised line: [(text, x, y, w, h)] *)
Definition Line : Type := (string * Z * Z * Z * Z)%type.

(** [max(8, int(h * 0.75))]: [h] is an integer, [h * 0.75] is exact in
    binary floating point and [int] truncates toward zero. *)
Definition font_size_of_height (h : Z) : Z := Z.max 8 (Z.quot (h * 3) 4).

(** The merge test of [_merge_paragraph_lines].  All operands are
    integers; [line_h * 1.5] is exact in binary floating point and
    [current.width * 0.3] rounds to the integer [3 * width / 10] whenever
    that quotient is an integer, so for coordinates of any practical
    magnitude the two float comparisons coincide with the integer
    comparisons below. *)
Definition same_paragraph (current next_block : TextBlock.t) : bool :=
  let gap := TextBlock.y next_block
             - (TextBlock.y current + TextBlock.height current) in
  let line_h := TextBlock.height current in
  let x_diff := Z.abs (TextBlock.x next_block - TextBlock.x current) in
  (2 * gap <? 3 * line_h) && (10 * x_diff <? 3 * TextBlock.width current).

(** The block built in the [if same_paragraph:] branch *)
Definition merge_pair (current next_block : TextBlock.t) : TextBlock.t :=
  let new_x := Z.min (TextBlock.x current) (TextBlock.x next_block) in
  let new_y := TextBlock.y current in
  let new_x2 := Z.max (TextBlock.x current + TextBlock.width current)
                      (TextBlock.x next_block + TextBlock.width next_block) in
  let new_y2 := TextBlock.y next_block + TextBlock.height next_block in
  TextBlock.new new_x new_y (new_x2 - new_x) (new_y2 - new_y)
    (TextBlock.text current ++ " " ++ TextBlock.text next_block)
    1 (TextBlock.font_size current).

(** [blocks.sort(key=lambda b: b.y)]: Python's sort is stable; so is this
    insertion sort. *)
Fixpoint insert_by_y (b : TextBlock.t) (l : list TextBlock.t)
  : list TextBlock.t :=
  match l with
  | [] => [b]
  | c :: l' =>
      if TextBlock.y b <=? TextBlock.y c then b :: c :: l'
      else c :: insert_by_y b l'
  end.

Definition sort_by_y (l : list TextBlock.t) : list TextBlock.t :=
  fold_right insert_by_y [] l.

(** The [for next_block in blocks[1:]] loop with its two variables
    [merged] and [current], followed by the final [merged.append]. *)
Fixpoint merge_loop (merged : list TextBlock.t) (current : TextBlock.t)
         (rest : list TextBlock.t) : list TextBlock.t :=
  match rest with
  | [] => merged ++ [current]
  | next_block :: rest' =>
      if same_paragraph current next_block then
        merge_loop merged (merge_pair current next_block) rest'
      else
        merge_loop (merged ++ [current]) next_block rest'
  end.

Definition _merge_paragraph_lines (blocks : list TextBlock.t)
  : list TextBlock.t :=
  if (Z.of_nat (List.length blocks) <=? 1) then blocks
  else
    match sort_by_y blocks with
    | [] => []
    | current :: rest => merge_loop [] current rest
    end.

Section WithWinRT.

(** Modelled from the spec: [src/models/languages.py] is not part of
    the sources at hand; [flores_to_bcp47] maps a FLORES-200 code to a
    BCP-47 tag, or to nothing. *)
Variable flores_to_bcp47 : string -> option string.

(** The WinRT calls of [_create_engine] and [_recognize_async]. *)
Variable is_language_supported : string -> Result bool.
Variable try_create_from_language : string -> bool.
Variable try_create_from_user_profile_languages : bool.
Variable recognize : Frame -> Result (list Line).

(** [str.strip] and the [re.fullmatch] test for texts made only of
    digits, blanks and punctuation (Python library functions). *)
Variable strip : string -> string.
Variable punctuation_only : string -> bool.

Definition _create_engine (o : t) (bcp47 : string) : Result unit * t :=
  match is_language_supported bcp47 with
  | Ok true =>
      (Ok tt, mk (confidence_threshold o)
                 (try_create_from_language bcp47) (_loop o) (Some bcp47))
  | _ =>
      let e := try_create_from_user_profile_languages in
      let o' := mk (confidence_threshold o) e (_loop o) (Some bcp47) in
      if e then (Ok tt, o')
      else (Raise (RuntimeError "Could not create any WinRT OCR engine"),
            o')
  end.

Definition set_language (o : t) (flores_code : string)
  : Result unit * t :=
  let bcp47 := match flores_to_bcp47 flores_code with
               | Some b => b
               | None => "en"%string
               end in
  match _current_lang o with
  | Some cur => if String.eqb bcp47 cur then (Ok tt, o)
                else _create_engine o bcp47
  | None => _create_engine o bcp47
  end.

(** The body of the [for text, x, y, w, h in lines] loop: the block
    appended for one line, if any. *)
Definition block_of_line (offset_x offset_y : Z) (ln : Line)
  : option TextBlock.t :=
  let '(text, x, y, w, h) := ln in
  let text := strip text in
  if (String.eqb text "")
     || (Z.of_nat (len text) <? MIN_TEXT_LENGTH) then None
  else if punctuation_only text then None
  else if (w <? 5) || (h <? 5) then None
  else
    let font_size := font_size_of_height h in
    Some (TextBlock.new (x + offset_x) (y + offset_y) w h text 1
                        font_size).

Fixpoint blocks_of_lines (offset_x offset_y : Z) (lines : list Line)
  : list TextBlock.t :=
  match lines with
  | [] => []
  | ln :: lines' =>
      match block_of_line offset_x offset_y ln with
      | Some b => b :: blocks_of_lines offset_x offset_y lines'
      | None => blocks_of_lines offset_x offset_y lines'
      end
  end.

Definition detect (o : t) (frame : Frame) (offset_x offset_y : Z)
  : list TextBlock.t :=
  if negb (_engine o) || negb (_loop o) then []
  else
    match recognize frame with
    | Raise _ => []
    | Ok lines =>
        let blocks := blocks_of_lines offset_x offset_y lines in
        _merge_paragraph_lines blocks
    end.

End WithWinRT.

End OCREngine.

(** ** style_extractor.py *)

Module StyleExtractor.

(** *** numpy array operations used by [extract] *)

(** A slice bound [i] on an axis of length [n]: a negative bound counts
    from the end, and every bound is clipped into [0..n]. *)
Definition slice_bound (n i : Z) : Z :=
  if i <? 0 then Z.max 0 (i + n) else Z.min i n.

(** [img[r1:r2, c1:c2]] *)
Definition slice2 (img : Frame) (r1 r2 c1 c2 : Z) : Frame :=
  let h := Z.of_nat (f_height img) in
  let w := Z.of_nat (f_width img) in
  let rs := slice_bound h r1 in
  let re := slice_bound h r2 in
  let cs := slice_bound w c1 in
  let ce := slice_bound w c2 in
  mkFrame (Z.to_nat (re - rs)) (Z.to_nat (ce - cs))
          (fun i j => f_pixel img (Z.to_nat rs + i) (Z.to_nat cs + j)).

(** [img.reshape(-1, 3)]: the pixels in row-major order *)
Definition reshape_pixels (img : Frame) : list BGR :=
  flat_map (fun r => map (fun c => f_pixel img r c) (seq 0 (f_width img)))
           (seq 0 (f_height img)).

(** [img.size] *)
Definition array_size (img : Frame) : Z :=
  Z.of_nat (f_height img) * Z.of_nat (f_width img) * 3.

Fixpoint insert_sorted (v : Z) (l : list Z) : list Z :=
  match l with
  | [] => [v]
  | u :: l' => if v <=? u then v :: u :: l' else u :: insert_sorted v l'
  end.

Definition sort_values (l : list Z) : list Z :=
  fold_right insert_sorted [] l.

(** [np.median] of a non-empty list of samples: the middle one, or the
    mean of the two middle ones. *)
Definition median (l : list Z) : Q :=
  let s := sort_values l in
  let n := List.length s in
  if Nat.even n then
    (nth (n / 2 - 1)%nat s 0 + nth (n / 2)%nat s 0) # 2
  else inject_Z (nth (n / 2)%nat s 0).

(** A colour with fractional channels (a k-means centre, a median) *)
Definition QColor : Type := (Q * Q * Q)%type.

Definition chan0 {A} (p : A * A * A) : A := fst (fst p).
Definition chan1 {A} (p : A * A * A) : A := snd (fst p).
Definition chan2 {A} (p : A * A * A) : A := snd p.

(** [np.median(border_arr, axis=0)] *)
Definition median_bgr (px : list BGR) : QColor :=
  (median (map chan0 px), median (map chan1 px), median (map chan2 px)).

(** [int(v)] on a float: truncation toward zero *)
Definition int_of_Q (q : Q) : Z := Z.quot (Qnum q) (Z.pos (Qden q)).

(** [(int(c[2]), int(c[1]), int(c[0]))]: BGR to an RGB tuple *)
Definition rgb_of_bgr (c : QColor) : Z * Z * Z :=
  (int_of_Q (chan2 c), int_of_Q (chan1 c), int_of_Q (chan0 c)).

(** *** The per-block body *)

(** How the body of the [try] ends when it does not raise: through a
    [continue], or through the two colour assignments. *)
Inductive Outcome : Type :=
| Skipped
| Colored (bg_color fg_color : Z * Z * Z).

(** The border strips collected in [border_pixels] *)
Definition border_strips (roi : Frame) (strip : Z) : list (list BGR) :=
  let roi_h := Z.of_nat (f_height roi) in
  let roi_w := Z.of_nat (f_width roi) in
  (if strip <? roi_h then
     [ reshape_pixels (slice2 roi 0 strip 0 roi_w);            (* top *)
       reshape_pixels (slice2 roi (- strip) roi_h 0 roi_w) ]   (* bottom *)
   else [])
  ++
  (if strip <? roi_w then
     [ reshape_pixels (slice2 roi 0 roi_h 0 strip);            (* left *)
       reshape_pixels (slice2 roi 0 roi_h (- strip) roi_w) ]   (* right *)
   else []).

(** The inner region [roi[inner_y1:inner_y2, inner_x1:inner_x2]] of a
    block inside its expanded region, whose corner is [(x1, y1)]. *)
Definition inner_roi (roi : Frame) (block : TextBlock.t) (x1 y1 : Z)
  : Frame :=
  let roi_h := Z.of_nat (f_height roi) in
  let roi_w := Z.of_nat (f_width roi) in
  let inner_x1 := TextBlock.x block - x1 in
  let inner_y1 := TextBlock.y block - y1 in
  let inner_x2 := inner_x1 + TextBlock.width block in
  let inner_y2 := inner_y1 + TextBlock.height block in
  let inner_x1 := Z.max 0 inner_x1 in
  let inner_y1 := Z.max 0 inner_y1 in
  let inner_x2 := Z.min roi_w inner_x2 in
  let inner_y2 := Z.min roi_h inner_y2 in
  slice2 roi inner_y1 inner_y2 inner_x1 inner_x2.

(** The array [pixels] that [extract] hands to k-means for a block that
    gets that far: the block's own area inside its expanded region. *)
Definition inner_pixels (frame : Frame) (block : TextBlock.t) : list BGR :=
  let h_frame := Z.of_nat (f_height frame) in
  let w_frame := Z.of_nat (f_width frame) in
  let margin := Z.max 4 (TextBlock.height block / 2) in
  let x1 := Z.max 0 (TextBlock.x block - margin) in
  let y1 := Z.max 0 (TextBlock.y block - margin) in
  let x2 := Z.min w_frame
              (TextBlock.x block + TextBlock.width block + margin) in
  let y2 := Z.min h_frame
              (TextBlock.y block + TextBlock.height block + margin) in
  reshape_pixels (inner_roi (slice2 frame y1 y2 x1 x2) block x1 y1).

Section WithOpenCV.

(** [cv2.kmeans(pixels, 2, ...)]: the two centres, or a [cv2.error]. *)
Variable kmeans2 : list BGR -> Result (QColor * QColor).

(** [np.linalg.norm(a - b)] as the floating-point library computes it *)
Variable linalg_norm_diff : QColor -> QColor -> Q.

Definition sample_block (frame : Frame) (block : TextBlock.t)
  : Result Outcome :=
  let h_frame := Z.of_nat (f_height frame) in
  let w_frame := Z.of_nat (f_width frame) in
  let margin := Z.max 4 (TextBlock.height block / 2) in
  let x1 := Z.max 0 (TextBlock.x block - margin) in
  let y1 := Z.max 0 (TextBlock.y block - margin) in
  let x2 := Z.min w_frame
              (TextBlock.x block + TextBlock.width block + margin) in
  let y2 := Z.min h_frame
              (TextBlock.y block + TextBlock.height block + margin) in
  if (x2 <=? x1) || (y2 <=? y1) then Ok Skipped
  else
    let roi := slice2 frame y1 y2 x1 x2 in
    if array_size roi =? 0 then Ok Skipped
    else
      let strip := Z.max 2 (margin / 2) in
      let border_pixels := border_strips roi strip in
      let bg_bgr : QColor :=
        match border_pixels with
        | [] => (255 # 1, 255 # 1, 255 # 1)
        | _ => median_bgr (List.concat border_pixels)
        end in
      let pixels := reshape_pixels (inner_roi roi block x1 y1) in
      if Z.of_nat (List.length pixels) <? 2 then Ok Skipped
      else
        bind (kmeans2 pixels) (fun centers =>
          let dist_0 := linalg_norm_diff (fst centers) bg_bgr in
          let dist_1 := linalg_norm_diff (snd centers) bg_bgr in
          let fg_bgr := if negb (Qle_bool dist_0 dist_1)
                        then fst centers else snd centers in
          Ok (Colored (rgb_of_bgr bg_bgr) (rgb_of_bgr fg_bgr))).

(** What one loop iteration leaves in the list: the block with its
    two colours set when the body ran to its end, the block as it was
    when the body hit a [continue] or raised. *)
Definition sampled (frame : Frame) (block : TextBlock.t) : TextBlock.t :=
  match sample_block frame block with
  | Ok (Colored bg fg) => TextBlock.set_colors block (Some fg) (Some bg)
  | Ok Skipped => block
  | Raise _ => block
  end.

(** One iteration of [for block in blocks: try: ... except Exception] *)
Definition extract_one (frame : Frame) (block : TextBlock.t)
  : Result TextBlock.t :=
  try_except
    (bind (sample_block frame block) (fun o =>
       match o with
       | Skipped => Ok block
       | Colored bg fg =>
           Ok (TextBlock.set_colors block (Some fg) (Some bg))
       end))
    (fun _ => Ok block).

Fixpoint extract (frame : Frame) (blocks : list TextBlock.t)
  : Result (list TextBlock.t) :=
  match blocks with
  | [] => Ok []
  | block :: rest =>
      bind (extract_one frame block) (fun block' =>
      bind (extract frame rest) (fun rest' =>
      Ok (block' :: rest')))
  end.

End WithOpenCV.

End StyleExtractor.

(** ** translation_engine.py *)

Module TranslationEngine.

Record t : Type := mk {
  _loaded : bool;
  _current_src_lang : option string
}.

(** [TranslationEngine()] *)
Definition init : t := mk false None.

Section WithModel.

(** The body of the [try] in [translate_batch] after the bookkeeping of
    the source language: tokenizer, [generate] and [batch_decode] of
    the NLLB model, which yield the decoded strings or raise. *)
Variable model_call :
  list string -> string -> string -> Result (list string).

Definition translate_batch (e : t) (texts : list string)
           (source_lang target_lang : string)
  : Result (list string) * t :=
  if negb (_loaded e) then (Ok texts, e)
  else
    match texts with
    | [] => (Ok [], e)
    | _ =>
        (* [self._current_src_lang = source_lang] when it differs *)
        let e' := mk (_loaded e) (Some source_lang) in
        (try_except
           (model_call texts source_lang target_lang)
           (fun _ => Ok texts),
         e')
    end.

End WithModel.

End TranslationEngine.

(** ** capture_engine.py *)

Module CaptureEngine.

Record t : Type := mk {
  _camera : bool;            (* [self._camera is not None] *)
  _use_bettercam : bool;
  _monitor : Z;
  _started : bool
}.

Section WithBackends.

Variable HAS_BETTERCAM : bool.
Variable HAS_MSS : bool.
(** [bettercam.create] succeeds for this monitor *)
Variable bettercam_create : Z -> bool.

Definition init : t := mk false HAS_BETTERCAM 0 false.

Definition start (c : t) (monitor : Z) : Result unit * t :=
  if _use_bettercam c && bettercam_create monitor then
    (Ok tt, mk true true monitor true)
  else
    let cam := if _use_bettercam c then false else _camera c in
    if HAS_MSS then (Ok tt, mk cam false monitor true)
    else (Raise (RuntimeError "No screen capture backend available"),
          mk cam false monitor (_started c)).

Definition stop (c : t) : t :=
  mk false (_use_bettercam c) (_monitor c) false.

(** [grab]: [backend_frame] is what the backend in use delivers, with
    its exceptions already turned into [None]. *)
Definition grab (c : t) (backend_frame : option Frame) : option Frame :=
  if negb (_started c) then None else backend_frame.

End WithBackends.

End CaptureEngine.

(** ** pipeline.py *)

Module Pipeline.

(** The external collaborators of one pipeline instance: the library
    calls the stages above are parameterised by. *)
Record Externals : Type := mkExternals {
  gray_downsample : Z -> Frame -> Result FrameDiffer.Gray;
  flores_to_bcp47 : string -> option string;
  is_language_supported : string -> Result bool;
  try_create_from_language : string -> bool;
  try_create_from_user_profile_languages : bool;
  recognize : Frame -> Result (list OCREngine.Line);
  strip : string -> string;
  punctuation_only : string -> bool;
  kmeans2 : list BGR
            -> Result (StyleExtractor.QColor * StyleExtractor.QColor);
  linalg_norm_diff : StyleExtractor.QColor -> StyleExtractor.QColor -> Q;
  model_call : list string -> string -> string -> Result (list string);
  HAS_BETTERCAM : bool;
  HAS_MSS : bool;
  bettercam_create : Z -> bool
}.

(** What the screen offers during one cycle: the frame the capture
    backend delivers (if any) and the rectangle that
    [find_window_by_title] followed by [get_window_rect] resolve the
    given title to (if any). *)
Record World : Type := mkWorld {
  backend_frame : option Frame;
  window_rect : string -> option (Z * Z * Z * Z)
}.

(** Calls on the collaborators and signal emissions, in program order. *)
Inductive Event : Type :=
| EvCaptureStop
| EvCaptureStart (monitor : Z)
| EvCaptureGrab (mode : AppSettings.CaptureMode)
                (region : option (Z * Z * Z * Z)) (monitor : Z)
| EvDifferReset
| EvHasChanged
| EvOcrSetLanguage (code : string)
| EvOcrDetect (offset_x offset_y : Z)
| EvStyleExtract (blocks : list TextBlock.t)
| EvCacheGet (text source_lang target_lang : string)
| EvCachePut (text source_lang target_lang translation : string)
| EvTranslateBatch (texts : list string) (source_lang target_lang : string)
| EvBlocksReady (blocks : list TextBlock.t)     (* blocks_ready.emit   *)
| EvErrorOccurred (e : exn)                     (* error_occurred.emit *)
| EvStatusUpdate (msg : string).                (* status_update.emit  *)

Record t : Type := mk {
  settings : AppSettings.t;
  capture : CaptureEngine.t;
  differ : FrameDiffer.t;
  ocr : OCREngine.t;
  translation : TranslationEngine.t;
  cache : TranslationCache.t;
  _running : bool;
  _last_blocks : list TextBlock.t;
  _null_frame_count : Z
}.

Definition set_settings (p : t) (s : AppSettings.t) : t :=
  mk s (capture p) (differ p) (ocr p) (translation p) (cache p)
     (_running p) (_last_blocks p) (_null_frame_count p).
Definition set_capture (p : t) (c : CaptureEngine.t) : t :=
  mk (settings p) c (differ p) (ocr p) (translation p) (cache p)
     (_running p) (_last_blocks p) (_null_frame_count p).
Definition set_differ (p : t) (d : FrameDiffer.t) : t :=
  mk (settings p) (capture p) d (ocr p) (translation p) (cache p)
     (_running p) (_last_blocks p) (_null_frame_count p).
Definition set_ocr (p : t) (o : OCREngine.t) : t :=
  mk (settings p) (capture p) (differ p) o (translation p) (cache p)
     (_running p) (_last_blocks p) (_null_frame_count p).
Definition set_translation (p : t) (e : TranslationEngine.t) : t :=
  mk (settings p) (capture p) (differ p) (ocr p) e (cache p)
     (_running p) (_last_blocks p) (_null_frame_count p).
Definition set_cache (p : t) (c : TranslationCache.t) : t :=
  mk (settings p) (capture p) (differ p) (ocr p) (translation p) c
     (_running p) (_last_blocks p) (_null_frame_count p).
Definition set_running (p : t) (b : bool) : t :=
  mk (settings p) (capture p) (differ p) (ocr p) (translation p) (cache p)
     b (_last_blocks p) (_null_frame_count p).
Definition set_last_blocks (p : t) (bs : list TextBlock.t) : t :=
  mk (settings p) (capture p) (differ p) (ocr p) (translation p) (cache p)
     (_running p) bs (_null_frame_count p).
Definition set_null_frame_count (p : t) (n : Z) : t :=
  mk (settings p) (capture p) (differ p) (ocr p) (translation p) (cache p)
     (_running p) (_last_blocks p) n.

(** A list is truthy when it is not empty. *)
Definition truthy {A} (l : list A) : bool :=
  match l with [] => false | _ => true end.

(** The language the cache and the translation engine are given as the
    source: the configured one, or English when it is "auto". *)
Definition effective_source (s : AppSettings.t) : string :=
  if negb (String.eqb (AppSettings.source_language s) "auto")
  then AppSettings.source_language s
  else "eng_Latn"%string.

(** A cache lookup, a cache store or a translation call carries the
    language pair [(src, tgt)]; other events are not concerned. *)
Definition uses_languages (src tgt : string) (ev : Event) : Prop :=
  match ev with
  | EvCacheGet _ s t => s = src /\ t = tgt
  | EvCachePut _ s t _ => s = src /\ t = tgt
  | EvTranslateBatch _ s t => s = src /\ t = tgt
  | _ => True
  end.

Section WithExternals.

Variable ext : Externals.

(** [PipelineThread(settings)] *)
Definition init (s : AppSettings.t) : t :=
  mk s
     (CaptureEngine.init (HAS_BETTERCAM ext))
     (FrameDiffer.init (AppSettings.frame_diff_threshold s)
                       FrameDiffer.default_downsample_width)
     (OCREngine.init (AppSettings.ocr_confidence_threshold s))
     TranslationEngine.init
     (TranslationCache.init (AppSettings.max_cache_size s))
     false [] 0.

Definition capture_start (c : CaptureEngine.t) (monitor : Z) :=
  CaptureEngine.start (HAS_MSS ext) (bettercam_create ext) c monitor.

Definition ocr_set_language (o : OCREngine.t) (code : string) :=
  OCREngine.set_language (flores_to_bcp47 ext)
    (is_language_supported ext) (try_create_from_language ext)
    (try_create_from_user_profile_languages ext) o code.

Definition ocr_detect (o : OCREngine.t) (frame : Frame) (ox oy : Z) :=
  OCREngine.detect (recognize ext) (strip ext) (punctuation_only ext)
    o frame ox oy.

Definition style_extract (frame : Frame) (blocks : list TextBlock.t) :=
  StyleExtractor.extract (kmeans2 ext) (linalg_norm_diff ext)
    frame blocks.

(** [update_settings] *)
Definition update_settings (p : t) (new : AppSettings.t)
  : Result unit * t * list Event :=
  let old_monitor := AppSettings.capture_monitor (settings p) in
  let old_mode := AppSettings.capture_mode (settings p) in
  let old_source := AppSettings.source_language (settings p) in
  let p := set_settings p new in
  let p := set_differ p
             (FrameDiffer.set_threshold (differ p)
                (AppSettings.frame_diff_threshold new)) in
  let p := set_ocr p
             (OCREngine.set_confidence_threshold (ocr p)
                (AppSettings.ocr_confidence_threshold new)) in
  let p := set_cache p
             (TranslationCache.set_max_size (cache p)
                (AppSettings.max_cache_size new)) in
  (* Update OCR language if source language changed *)
  let '(r1, p, ev1) :=
    if negb (String.eqb (AppSettings.source_language new) old_source)
       && negb (String.eqb (AppSettings.source_language new) "auto")
    then
      let '(r, o) :=
        ocr_set_language (ocr p) (AppSettings.source_language new) in
      (r, set_ocr p o,
       [EvOcrSetLanguage (AppSettings.source_language new)])
    else (Ok tt, p, []) in
  match r1 with
  | Raise e => (Raise e, p, ev1)
  | Ok _ =>
      (* Restart capture if monitor or mode changed *)
      if negb (AppSettings.capture_monitor new =? old_monitor)
         || negb (AppSettings.CaptureMode_eqb
                    (AppSettings.capture_mode new) old_mode)
      then
        let c := CaptureEngine.stop (capture p) in
        let '(r, c) :=
          capture_start c (AppSettings.capture_monitor new) in
        let ev2 := [EvCaptureStop;
                    EvCaptureStart (AppSettings.capture_monitor new)] in
        match r with
        | Raise e => (Raise e, set_capture p c, ev1 ++ ev2)
        | Ok _ =>
            (Ok tt,
             set_differ (set_capture p c) (FrameDiffer.reset (differ p)),
             ev1 ++ ev2 ++ [EvDifferReset])
        end
      else (Ok tt, p, ev1)
  end.

(** Step 1 of [_run_cycle]: the capture region and the offset of its
    corner. *)
Definition capture_geometry (s : AppSettings.t) (w : World)
  : option (Z * Z * Z * Z) * Z * Z :=
  match AppSettings.capture_mode s, AppSettings.capture_region s with
  | AppSettings.REGION, Some (rx, ry, rw, rh) =>
      (Some (rx, ry, rw, rh), rx, ry)
  | _, _ =>
      if AppSettings.CaptureMode_eqb (AppSettings.capture_mode s)
           AppSettings.WINDOW
         && negb (String.eqb (AppSettings.capture_window_title s) "")
      then
        match window_rect w (AppSettings.capture_window_title s) with
        | Some (rx, ry, rw, rh) => (Some (rx, ry, rw, rh), rx, ry)
        | None => (None, 0, 0)
        end
      else (None, 0, 0)
  end.

(** The frame-relative copy handed to the style stage *)
Definition style_block (offset_x offset_y : Z) (b : TextBlock.t)
  : TextBlock.t :=
  TextBlock.new (TextBlock.x b - offset_x) (TextBlock.y b - offset_y)
    (TextBlock.width b) (TextBlock.height b) (TextBlock.text b)
    (TextBlock.confidence b) (TextBlock.font_size b).

(** [for orig, styled in zip(blocks, style_blocks)] *)
Fixpoint copy_colors (blocks styled : list TextBlock.t)
  : list TextBlock.t :=
  match blocks, styled with
  | orig :: blocks', st :: styled' =>
      TextBlock.set_colors orig (TextBlock.fg_color st)
                                (TextBlock.bg_color st)
      :: copy_colors blocks' styled'
  | _, _ => blocks
  end.

(** [for i, block in enumerate(blocks)]: the cache lookups.  Returns
    the blocks (hits filled in), [to_translate], [translate_indices],
    the cache and the calls made. *)
Fixpoint lookup_loop (c : TranslationCache.t)
         (effective_src tgt_lang : string)
         (i : nat) (blocks : list TextBlock.t)
  : list TextBlock.t * list string * list nat
    * TranslationCache.t * list Event :=
  match blocks with
  | [] => ([], [], [], c, [])
  | block :: rest =>
      let '(cached, c1) :=
        TranslationCache.get c (TextBlock.text block)
                             effective_src tgt_lang in
      let ev := EvCacheGet (TextBlock.text block)
                           effective_src tgt_lang in
      let '(rest', to_translate, translate_indices, c2, evs) :=
        lookup_loop c1 effective_src tgt_lang (S i) rest in
      match cached with
      | Some tr =>
          (TextBlock.set_translation block tr :: rest',
           to_translate, translate_indices, c2, ev :: evs)
      | None =>
          (block :: rest', TextBlock.text block :: to_translate,
           i :: translate_indices, c2, ev :: evs)
      end
  end.

(** [blocks[idx] = f(blocks[idx])] *)
Fixpoint update_nth {A} (idx : nat) (f : A -> A) (l : list A) : list A :=
  match l, idx with
  | [], _ => []
  | a :: l', O => f a :: l'
  | a :: l', S n => a :: update_nth n f l'
  end.

(** [for idx, trans in zip(translate_indices, translations)] *)
Fixpoint store_loop (c : TranslationCache.t)
         (effective_src tgt_lang : string)
         (blocks : list TextBlock.t) (pairs : list (nat * string))
  : Result unit * list TextBlock.t * TranslationCache.t * list Event :=
  match pairs with
  | [] => (Ok tt, blocks, c, [])
  | (idx, trans) :: pairs' =>
      match nth_error blocks idx with
      | None => (Raise IndexError, blocks, c, [])
      | Some b =>
          let blocks1 :=
            update_nth idx (fun b => TextBlock.set_translation b trans)
                       blocks in
          let ev := EvCachePut (TextBlock.text b)
                               effective_src tgt_lang trans in
          match TranslationCache.put c (TextBlock.text b)
                                     effective_src tgt_lang trans with
          | (Raise e, c1) => (Raise e, blocks1, c1, [ev])
          | (Ok _, c1) =>
              let '(r, blocks2, c2, evs) :=
                store_loop c1 effective_src tgt_lang blocks1 pairs' in
              (r, blocks2, c2, ev :: evs)
          end
      end
  end.

(** Steps 5 and 6 of [_run_cycle]: translation with the cache *)
Definition translate_blocks (p : t) (blocks : list TextBlock.t)
  : Result (list TextBlock.t) * t * list Event :=
  let src_lang := AppSettings.source_language (settings p) in
  let tgt_lang := AppSettings.target_language (settings p) in
  let effective_src :=
    if negb (String.eqb src_lang "auto") then src_lang
    else "eng_Latn"%string in
  let '(blocks, to_translate, translate_indices, c, ev_get) :=
    lookup_loop (cache p) effective_src tgt_lang 0 blocks in
  let p := set_cache p c in
  if truthy to_translate then
    let '(r, e) :=
      TranslationEngine.translate_batch (model_call ext)
        (translation p) to_translate effective_src tgt_lang in
    let p := set_translation p e in
    let ev_tr := [EvTranslateBatch to_translate effective_src tgt_lang] in
    match r with
    | Raise ex => (Raise ex, p, ev_get ++ ev_tr)
    | Ok translations =>
        let '(r2, blocks, c, ev_put) :=
          store_loop (cache p) effective_src tgt_lang blocks
                     (combine translate_indices translations) in
        let p := set_cache p c in
        match r2 with
        | Raise ex => (Raise ex, p, ev_get ++ ev_tr ++ ev_put)
        | Ok _ => (Ok blocks, p, ev_get ++ ev_tr ++ ev_put)
        end
    end
  else (Ok blocks, p, ev_get).

(** Steps 3 to 7 of [_run_cycle], entered once the frame differ has
    reported a change. *)
Definition process_changed_frame (p : t) (frame : Frame)
           (offset_x offset_y : Z)
  : Result unit * t * list Event :=
  (* Frame changed: clear stale overlay immediately *)
  let '(p, ev_clear) :=
    if truthy (_last_blocks p)
    then (set_last_blocks p [], [EvBlocksReady []])
    else (p, []) in
  (* 3. OCR *)
  let blocks := ocr_detect (ocr p) frame offset_x offset_y in
  let ev_ocr := [EvOcrDetect offset_x offset_y] in
  if negb (truthy blocks) then
    (Ok tt, set_last_blocks p [],
     ev_clear ++ ev_ocr ++ [EvBlocksReady []])
  else
    (* 4. Style extraction (coords relative to frame) *)
    let style_blocks := map (style_block offset_x offset_y) blocks in
    let ev_style := [EvStyleExtract style_blocks] in
    match style_extract frame style_blocks with
    | Raise ex => (Raise ex, p, ev_clear ++ ev_ocr ++ ev_style)
    | Ok styled =>
        let blocks := copy_colors blocks styled in
        (* 5 & 6. Translation (with cache) *)
        let '(r, p, ev_tr) := translate_blocks p blocks in
        match r with
        | Raise ex =>
            (Raise ex, p, ev_clear ++ ev_ocr ++ ev_style ++ ev_tr)
        | Ok blocks =>
            (* 7. Emit to overlay *)
            (Ok tt, set_last_blocks p blocks,
             ev_clear ++ ev_ocr ++ ev_style ++ ev_tr
             ++ [EvBlocksReady blocks])
        end
    end.

(** [_run_cycle] *)
Definition _run_cycle (w : World) (p : t)
  : Result unit * t * list Event :=
  (* 1. Capture *)
  let s := settings p in
  let '(region, offset_x, offset_y) := capture_geometry s w in
  let ev_grab := [EvCaptureGrab (AppSettings.capture_mode s) region
                                (AppSettings.capture_monitor s)] in
  match CaptureEngine.grab (capture p) (backend_frame w) with
  | None =>
      (Ok tt, set_null_frame_count p (_null_frame_count p + 1), ev_grab)
  | Some frame =>
      let p := set_null_frame_count p 0 in
      (* 2. Frame diff: skip if unchanged *)
      let '(changed, d) :=
        FrameDiffer.has_changed (gray_downsample ext) (differ p) frame in
      let p := set_differ p d in
      match changed with
      | Raise ex => (Raise ex, p, ev_grab ++ [EvHasChanged])
      | Ok false =>
          (Ok tt, p,
           ev_grab ++ [EvHasChanged]
           ++ (if truthy (_last_blocks p)
               then [EvBlocksReady (_last_blocks p)] else []))
      | Ok true =>
          let '(r, p, evs) :=
            process_changed_frame p frame offset_x offset_y in
          (r, p, ev_grab ++ [EvHasChanged] ++ evs)
      end
  end.

(** One iteration of [_loop]: the cycle, with any exception caught and
    surfaced on the error channel (the sleep is not modelled). *)
Definition loop_iteration (w : World) (p : t) : t * list Event :=
  let '(r, p, evs) := _run_cycle w p in
  match r with
  | Ok _ => (p, evs)
  | Raise ex => (p, evs ++ [EvErrorOccurred ex])
  end.

(** [start] *)
Definition start (p : t) : Result unit * t * list Event :=
  if _running p then (Ok tt, p, [])
  else
    let c := CaptureEngine.stop (capture p) in
    let '(r, c) :=
      capture_start c (AppSettings.capture_monitor (settings p)) in
    let ev := [EvCaptureStop;
               EvCaptureStart
                 (AppSettings.capture_monitor (settings p))] in
    match r with
    | Raise ex => (Raise ex, set_capture p c, ev)
    | Ok _ =>
        let p := set_capture p c in
        let p := set_differ p (FrameDiffer.reset (differ p)) in
        let p := set_null_frame_count p 0 in
        (Ok tt, set_running p true,
         ev ++ [EvDifferReset; EvStatusUpdate "Translation active"])
    end.

(** [stop] *)
Definition stop (p : t) : t * list Event :=
  if negb (_running p) then (p, [])
  else (set_running p false,
        [EvBlocksReady []; EvStatusUpdate "Translation stopped"]).

End WithExternals.

End Pipeline.

(** ** The specification's own wording, for comparison with the code *)

Module SpecWording.

(** [round(n / d)] for [d > 0], rounding half to even as Python's
    [round] does. *)
Definition round_half_even (n d : Z) : Z :=
  let q := n / d in
  let r := n mod d in
  if 2 * r <? d then q
  else if d <? 2 * r then q + 1
  else if Z.even q then q else q + 1.

(** "[max(8, round(height * 0.75))]" *)
Definition font_size (h : Z) : Z := Z.max 8 (round_half_even (h * 3) 4).

(** "a new block whose bbox is the union of the two": the smallest box
    [(x, y, width, height)] that covers both boxes. *)
Definition bbox (b : TextBlock.t) : Z * Z * Z * Z :=
  (TextBlock.x b, TextBlock.y b, TextBlock.width b, TextBlock.height b).

Definition bbox_union (a b : TextBlock.t) : Z * Z * Z * Z :=
  let x1 := Z.min (TextBlock.x a) (TextBlock.x b) in
  let y1 := Z.min (TextBlock.y a) (TextBlock.y b) in
  let x2 := Z.max (TextBlock.x a + TextBlock.width a)
                  (TextBlock.x b + TextBlock.width b) in
  let y2 := Z.max (TextBlock.y a + TextBlock.height a)
                  (TextBlock.y b + TextBlock.height b) in
  (x1, y1, x2 - x1, y2 - y1).

End SpecWording.

From Stdlib Require Import Permutation Sorted.

(** ** Sequences of operations *)

Module FrameStream.

Section WithOpenCV.

Variable gray_downsample : Z -> Frame -> Result FrameDiffer.Gray.

(** [has_changed] called on the frames of a list, one after the other, as
    the pipeline loop does cycle after cycle: the answers, and the differ
    at the end. *)
Fixpoint feed (d : FrameDiffer.t) (frames : list Frame)
  : list (Result bool) * FrameDiffer.t :=
  match frames with
  | [] => ([], d)
  | frame :: rest =>
      let '(r, d1) := FrameDiffer.has_changed gray_downsample d frame in
      let '(rs, d2) := feed d1 rest in
      (r :: rs, d2)
  end.

End WithOpenCV.

(** Each array has the shape of the one before it and differs from it by
    a mean of at most [threshold]. *)
Fixpoint drifts_slowly (threshold : Q) (prev : FrameDiffer.Gray)
         (grays : list FrameDiffer.Gray) : bool :=
  match grays with
  | [] => true
  | g :: rest =>
      FrameDiffer.shape_eqb (FrameDiffer.shape g) (FrameDiffer.shape prev)
      && negb (FrameDiffer.exceeds (FrameDiffer.mean_abs_diff g prev)
                                   threshold)
      && drifts_slowly threshold g rest
  end.

End FrameStream.

(** ** Geometry *)

Module Geometry.

(** The block moved by [(dx, dy)], everything else unchanged *)
Definition shift_block (dx dy : Z) (b : TextBlock.t) : TextBlock.t :=
  TextBlock.mk (TextBlock.x b + dx) (TextBlock.y b + dy)
    (TextBlock.width b) (TextBlock.height b) (TextBlock.text b)
    (TextBlock.translation b) (TextBlock.confidence b)
    (TextBlock.font_size b) (TextBlock.fg_color b) (TextBlock.bg_color b).

(** Top to bottom: [a] starts no lower than [b]. *)
Definition above (a b : TextBlock.t) : Prop :=
  TextBlock.y a <= TextBlock.y b.

(** What every block that leaves the OCR stage satisfies *)
Definition fresh_block (b : TextBlock.t) : Prop :=
  5 <= TextBlock.width b
  /\ 5 <= TextBlock.height b
  /\ 8 <= TextBlock.font_size b
  /\ 5 <= Z.of_nat (OCREngine.len (TextBlock.text b))
  /\ TextBlock.translation b = None
  /\ TextBlock.fg_color b = None
  /\ TextBlock.bg_color b = None.

End Geometry.

(** ** style_extractor.py: the region sampled for a block *)

Module StyleRegion.

(** [margin = max(4, block.height // 2)] *)
Definition margin (block : TextBlock.t) : Z :=
  Z.max 4 (TextBlock.height block / 2).

(** [strip = max(2, margin // 2)] *)
Definition strip (block : TextBlock.t) : Z :=
  Z.max 2 (margin block / 2).

(** [roi = frame[y1:y2, x1:x2]], the block's box grown by [margin] and
    clamped to the frame *)
Definition roi (frame : Frame) (block : TextBlock.t) : Frame :=
  let h_frame := Z.of_nat (f_height frame) in
  let w_frame := Z.of_nat (f_width frame) in
  let x1 := Z.max 0 (TextBlock.x block - margin block) in
  let y1 := Z.max 0 (TextBlock.y block - margin block) in
  let x2 := Z.min w_frame
              (TextBlock.x block + TextBlock.width block + margin block) in
  let y2 := Z.min h_frame
              (TextBlock.y block + TextBlock.height block + margin block) in
  StyleExtractor.slice2 frame y1 y2 x1 x2.

(** [bool(border_pixels)]: one of the tests [strip < roi_h] and
    [strip < roi_w] passed, so some border strip was sampled. *)
Definition has_border (frame : Frame) (block : TextBlock.t) : bool :=
  (strip block <? Z.of_nat (f_height (roi frame block)))
  || (strip block <? Z.of_nat (f_width (roi frame block))).

End StyleRegion.

(** ** Relations between a block before and after a stage *)

Module BlockRel.

(** Same position, size, text, translation, confidence and font size *)
Definition same_but_colors (b b' : TextBlock.t) : Prop :=
  TextBlock.x b' = TextBlock.x b
  /\ TextBlock.y b' = TextBlock.y b
  /\ TextBlock.width b' = TextBlock.width b
  /\ TextBlock.height b' = TextBlock.height b
  /\ TextBlock.text b' = TextBlock.text b
  /\ TextBlock.translation b' = TextBlock.translation b
  /\ TextBlock.confidence b' = TextBlock.confidence b
  /\ TextBlock.font_size b' = TextBlock.font_size b.

(** The two colours are as before, or both are set. *)
Definition colors_kept_or_both_set (b b' : TextBlock.t) : Prop :=
  (TextBlock.fg_color b' = TextBlock.fg_color b
   /\ TextBlock.bg_color b' = TextBlock.bg_color b)
  \/ (exists fg bg, TextBlock.fg_color b' = Some fg
                    /\ TextBlock.bg_color b' = Some bg).

(** Every channel of every pixel is an 8-bit value. *)
Definition eight_bit (frame : Frame) : Prop :=
  forall r c,
    0 <= StyleExtractor.chan0 (f_pixel frame r c) <= 255
    /\ 0 <= StyleExtractor.chan1 (f_pixel frame r c) <= 255
    /\ 0 <= StyleExtractor.chan2 (f_pixel frame r c) <= 255.

(** An RGB triple with channels in [0..255] *)
Definition rgb_in_range (c : Z * Z * Z) : Prop :=
  0 <= StyleExtractor.chan0 c <= 255
  /\ 0 <= StyleExtractor.chan1 c <= 255
  /\ 0 <= StyleExtractor.chan2 c <= 255.

End BlockRel.

(** ** capture_engine.py: sessions *)

Module CaptureSession.

(** The two calls the pipeline makes on the capture engine besides
    [grab] *)
Inductive op : Type :=
| Start (monitor : Z)
| Stop.

Section WithBackends.

Variable HAS_MSS : bool.
Variable bettercam_create : Z -> bool.

(** The engine after a sequence of calls; a [start] that raises leaves
    the engine as [CaptureEngine.start] leaves it. *)
Fixpoint run_ops (c : CaptureEngine.t) (ops : list op) : CaptureEngine.t :=
  match ops with
  | [] => c
  | Start monitor :: ops' =>
      run_ops (snd (CaptureEngine.start HAS_MSS bettercam_create c monitor))
              ops'
  | Stop :: ops' => run_ops (CaptureEngine.stop c) ops'
  end.

End WithBackends.

End CaptureSession.

(** ** What a trace shows *)

Module Trace.

(** The block sets published, in order *)
Fixpoint published (evs : list Pipeline.Event) : list (list TextBlock.t) :=
  match evs with
  | [] => []
  | Pipeline.EvBlocksReady blocks :: evs' => blocks :: published evs'
  | _ :: evs' => published evs'
  end.

(** The batches handed to the translation engine, in order *)
Fixpoint translate_calls (evs : list Pipeline.Event)
  : list (list string * string * string) :=
  match evs with
  | [] => []
  | Pipeline.EvTranslateBatch texts src tgt :: evs' =>
      (texts, src, tgt) :: translate_calls evs'
  | _ :: evs' => translate_calls evs'
  end.

(** The calls on the OCR engine's [detect] *)
Fixpoint ocr_calls (evs : list Pipeline.Event) : nat :=
  match evs with
  | [] => 0%nat
  | Pipeline.EvOcrDetect _ _ :: evs' => S (ocr_calls evs')
  | _ :: evs' => ocr_calls evs'
  end.

(** A cache lookup or store: neither a publication, nor an OCR call,
    nor a translation call *)
Definition cache_event (ev : Pipeline.Event) : Prop :=
  match ev with
  | Pipeline.EvCacheGet _ _ _ | Pipeline.EvCachePut _ _ _ _ => True
  | _ => False
  end.

(** [block.translation is not None] *)
Definition translated (b : TextBlock.t) : Prop :=
  TextBlock.translation b <> None.

End Trace.

(** ** pipeline.py: several cycles *)

Module PipelineRuns.

Section WithExternals.

Variable ext : Pipeline.Externals.

(** The body of [_loop] run once per element of [worlds] (the pipeline
    stays running throughout): the final state and the whole trace. *)
Fixpoint run_cycles (worlds : list Pipeline.World) (p : Pipeline.t)
  : Pipeline.t * list Pipeline.Event :=
  match worlds with
  | [] => (p, [])
  | w :: worlds' =>
      let '(p1, evs1) := Pipeline.loop_iteration ext w p in
      let '(p2, evs2) := run_cycles worlds' p1 in
      (p2, evs1 ++ evs2)
  end.

End WithExternals.

End PipelineRuns.

(** ** The cache-and-translate step, described block by block *)

Module CycleSpec.

(** The translation the cache holds for a block's text, if any *)
Definition cached (c : TranslationCache.t) (src tgt : string)
           (b : TextBlock.t) : option string :=
  TranslationCache.lookup (TranslationCache._cache c)
                          (TextBlock.text b, src, tgt).

Definition is_miss (c : TranslationCache.t) (src tgt : string)
           (b : TextBlock.t) : bool :=
  match cached c src tgt b with Some _ => false | None => true end.

(** A block after the lookups: a hit carries the cached translation. *)
Definition fill (c : TranslationCache.t) (src tgt : string)
           (b : TextBlock.t) : TextBlock.t :=
  match cached c src tgt b with
  | Some tr => TextBlock.set_translation b tr
  | None => b
  end.

(** The indices, counted from [i], of the blocks that miss *)
Fixpoint miss_positions (miss : TextBlock.t -> bool) (i : nat)
         (blocks : list TextBlock.t) : list nat :=
  match blocks with
  | [] => []
  | b :: rest =>
      if miss b then i :: miss_positions miss (S i) rest
      else miss_positions miss (S i) rest
  end.

(** [blocks[idx].translation = trans] for each pair, in order *)
Definition apply_pairs (pairs : list (nat * string))
           (blocks : list TextBlock.t) : list TextBlock.t :=
  fold_left
    (fun bl p =>
       Pipeline.update_nth (fst p)
         (fun b => TextBlock.set_translation b (snd p)) bl)
    pairs blocks.

(** [b'] is [b] with a translation filled in. *)
Definition translation_of (b b' : TextBlock.t) : Prop :=
  exists tr, b' = TextBlock.set_translation b tr.

(** What [translate_blocks] leaves alone *)
Definition same_outside_cache (p p' : Pipeline.t) : Prop :=
  Pipeline.settings p' = Pipeline.settings p
  /\ Pipeline.capture p' = Pipeline.capture p
  /\ Pipeline.differ p' = Pipeline.differ p
  /\ Pipeline.ocr p' = Pipeline.ocr p
  /\ Pipeline._running p' = Pipeline._running p
  /\ Pipeline._last_blocks p' = Pipeline._last_blocks p
  /\ Pipeline._null_frame_count p' = Pipeline._null_frame_count p
  /\ TranslationCache.max_size (Pipeline.cache p')
     = TranslationCache.max_size (Pipeline.cache p).

Section WithExternals.

Variable ext : Pipeline.Externals.

(** What a cycle says about its publications, calls and result, once the
    change detector has answered "changed" *)
Definition changed_frame_facts (p p' : Pipeline.t) (r : Result unit)
           (evs : list Pipeline.Event) : Prop :=
  Pipeline.settings p' = Pipeline.settings p
  /\ Pipeline.capture p' = Pipeline.capture p
  /\ Pipeline.differ p' = Pipeline.differ p
  /\ Pipeline.ocr p' = Pipeline.ocr p
  /\ Pipeline._running p' = Pipeline._running p
  /\ Pipeline._null_frame_count p' = Pipeline._null_frame_count p
  /\ TranslationCache.max_size (Pipeline.cache p')
     = TranslationCache.max_size (Pipeline.cache p)
  /\ Trace.ocr_calls evs = 1%nat
  /\ (List.length (Trace.translate_calls evs) <= 1)%nat
  /\ Forall (fun call => fst (fst call) <> []) (Trace.translate_calls evs)
  /\ last (Trace.published evs) (Pipeline._last_blocks p') = Pipeline._last_blocks p'
  /\ (0 <= TranslationCache.max_size (Pipeline.cache p) -> r = Ok tt)
  /\ ((forall texts res,
          Pipeline.model_call ext texts (Pipeline.effective_source (Pipeline.settings p))
                     (AppSettings.target_language (Pipeline.settings p)) = Ok res ->
          List.length res = List.length texts) ->
      Forall Trace.translated (Pipeline._last_blocks p) ->
      Forall (Forall Trace.translated) (Trace.published evs)
      /\ Forall Trace.translated (Pipeline._last_blocks p')).

End WithExternals.

End CycleSpec.

(** ** app.py: the handlers that change settings *)

Module AppController.

(** [AppController.settings] (app.py, [__init__]), [PipelineThread.settings]
    (pipeline.py, [__init__], given [self.settings] by the controller) and
    [SettingsDialog.settings] (settings_dialog.py, [__init__], given
    [self.settings] by [show_settings]) are three names of one
    [AppSettings] object: a field assigned through one name is read
    through the others.  The model keeps that object in one place, the
    [settings] field of the pipeline, and [assign] is an assignment to
    its fields through any of the names. *)
Definition assign (p : Pipeline.t) (f : AppSettings.t -> AppSettings.t)
  : Pipeline.t :=
  Pipeline.set_settings p (f (Pipeline.settings p)).

(** [self.settings.source_language = code] *)
Definition with_source_language (code : string) (s : AppSettings.t)
  : AppSettings.t :=
  AppSettings.mk (AppSettings.capture_mode s) (AppSettings.capture_region s)
    (AppSettings.capture_window_title s) (AppSettings.capture_monitor s)
    code (AppSettings.target_language s)
    (AppSettings.update_interval_ms s) (AppSettings.frame_diff_threshold s)
    (AppSettings.ocr_confidence_threshold s) (AppSettings.max_cache_size s).

(** [self.settings.target_language = code] *)
Definition with_target_language (code : string) (s : AppSettings.t)
  : AppSettings.t :=
  AppSettings.mk (AppSettings.capture_mode s) (AppSettings.capture_region s)
    (AppSettings.capture_window_title s) (AppSettings.capture_monitor s)
    (AppSettings.source_language s) code
    (AppSettings.update_interval_ms s) (AppSettings.frame_diff_threshold s)
    (AppSettings.ocr_confidence_threshold s) (AppSettings.max_cache_size s).

(** [self.settings.capture_mode = CaptureMode.REGION;
     self.settings.capture_region = region] *)
Definition with_region (region : Z * Z * Z * Z) (s : AppSettings.t)
  : AppSettings.t :=
  AppSettings.mk AppSettings.REGION (Some region)
    (AppSettings.capture_window_title s) (AppSettings.capture_monitor s)
    (AppSettings.source_language s) (AppSettings.target_language s)
    (AppSettings.update_interval_ms s) (AppSettings.frame_diff_threshold s)
    (AppSettings.ocr_confidence_threshold s) (AppSettings.max_cache_size s).

(** [SettingsDialog._save]: every field the dialog has a widget for is
    assigned from the widget ([form] holds the widgets' values, defaults
    applied); the capture region has no widget and is left alone. *)
Definition with_form (form : AppSettings.t) (s : AppSettings.t)
  : AppSettings.t :=
  AppSettings.mk (AppSettings.capture_mode form)
    (AppSettings.capture_region s)
    (AppSettings.capture_window_title form)
    (AppSettings.capture_monitor form)
    (AppSettings.source_language form) (AppSettings.target_language form)
    (AppSettings.update_interval_ms form)
    (AppSettings.frame_diff_threshold form)
    (AppSettings.ocr_confidence_threshold form)
    (AppSettings.max_cache_size form).

(** What the user can do to the settings *)
Inductive action : Type :=
| SourceChanged (code : string)
| TargetChanged (code : string)
| RegionSelected (region : Z * Z * Z * Z)
| SettingsSaved (form : AppSettings.t).

Section WithExternals.

Variable ext : Pipeline.Externals.

(** [self.pipeline.update_settings(self.settings)]: the argument is the
    object the pipeline holds. *)
Definition push_settings (p : Pipeline.t)
  : Result unit * Pipeline.t * list Pipeline.Event :=
  Pipeline.update_settings ext p (Pipeline.settings p).

(** [self.pipeline.cache.clear()], reached only when the call before it
    returned *)
Definition then_clear_cache
           (res : Result unit * Pipeline.t * list Pipeline.Event)
  : Result unit * Pipeline.t * list Pipeline.Event :=
  let '(r, p, evs) := res in
  match r with
  | Raise e => (Raise e, p, evs)
  | Ok _ =>
      (Ok tt,
       Pipeline.set_cache p (TranslationCache.clear (Pipeline.cache p)),
       evs)
  end.

Definition _on_source_changed (p : Pipeline.t) (code : string) :=
  then_clear_cache (push_settings (assign p (with_source_language code))).

Definition _on_target_changed (p : Pipeline.t) (code : string) :=
  then_clear_cache (push_settings (assign p (with_target_language code))).

(** The pipeline's part of [_on_region_selected]; saving the
    configuration file is not modelled. *)
Definition _on_region_selected (p : Pipeline.t) (region : Z * Z * Z * Z) :=
  push_settings (assign p (with_region region)).

(** [SettingsDialog._save] followed by the pipeline's part of
    [_on_settings_changed]: the signal carries the dialog's object, which
    is the controller's, so [self.settings = new_settings] changes
    nothing. *)
Definition _on_settings_changed (p : Pipeline.t) (form : AppSettings.t) :=
  push_settings (assign p (with_form form)).

Definition handle (p : Pipeline.t) (a : action)
  : Result unit * Pipeline.t * list Pipeline.Event :=
  match a with
  | SourceChanged code => _on_source_changed p code
  | TargetChanged code => _on_target_changed p code
  | RegionSelected region => _on_region_selected p region
  | SettingsSaved form => _on_settings_changed p form
  end.

End WithExternals.

(** The settings after the action's assignments *)
Definition assigned (a : action) (s : AppSettings.t) : AppSettings.t :=
  match a with
  | SourceChanged code => with_source_language code s
  | TargetChanged code => with_target_language code s
  | RegionSelected region => with_region region s
  | SettingsSaved form => with_form form s
  end.

(** The actions after which the controller clears the cache *)
Definition clears_cache (a : action) : bool :=
  match a with
  | SourceChanged _ | TargetChanged _ => true
  | _ => false
  end.

End AppController.

(** ** translation_cache.py: the counters *)

Module CacheSession.

(** [hit_rate]: the quotient as a rational (the source's float is its
    rounding). *)
Definition hit_rate (c : TranslationCache.t) : Q :=
  let total := TranslationCache._hits c + TranslationCache._misses c in
  if total >? 0
  then inject_Z (TranslationCache._hits c) / inject_Z total
  else 0.

Inductive op : Type :=
| Get (k : TranslationCache.Key)
| Put (k : TranslationCache.Key) (translation : string)
| Clear.

(** The cache after one call; a [put] that raises leaves the cache as
    [TranslationCache.put] leaves it. *)
Definition step (c : TranslationCache.t) (o : op) : TranslationCache.t :=
  match o with
  | Get (text, src, tgt) => snd (TranslationCache.get c text src tgt)
  | Put (text, src, tgt) translation =>
      snd (TranslationCache.put c text src tgt translation)
  | Clear => TranslationCache.clear c
  end.

Definition run (c : TranslationCache.t) (ops : list op)
  : TranslationCache.t :=
  fold_left step ops c.

(** The number of [get]s since the last [clear], on top of [base] *)
Definition lookups (base : Z) (ops : list op) : Z :=
  fold_left (fun n o => match o with
                        | Get _ => n + 1
                        | Put _ _ => n
                        | Clear => 0
                        end) ops base.

End CacheSession.

(** ** translation_engine.py: one string *)

Module TranslateOne.

Section WithModel.

Variable model_call :
  list string -> string -> string -> Result (list string).

(** [translate]: [results[0] if results else text] *)
Definition translate (e : TranslationEngine.t) (text : string)
           (source_lang target_lang : string)
  : Result string * TranslationEngine.t :=
  let '(r, e') :=
    TranslationEngine.translate_batch model_call e [text]
                                      source_lang target_lang in
  match r with
  | Raise ex => (Raise ex, e')
  | Ok results =>
      (Ok (match results with r0 :: _ => r0 | [] => text end), e')
  end.

End WithModel.

End TranslateOne.

(** ** Concrete inputs used by the examples below *)

Module Examples.

Definition ka : TranslationCache.Key :=
  ("alpha", "eng_Latn", "fra_Latn")%string.
Definition kb : TranslationCache.Key :=
  ("beta", "eng_Latn", "fra_Latn")%string.
Definition kc : TranslationCache.Key :=
  ("gamma", "eng_Latn", "fra_Latn")%string.

Definition upper (k : TranslationCache.Key) : string :=
  (fst (fst k) ++ "!")%string.

(** A cache of capacity 2 holding [ka] (older) and [kb] (newer) *)
Definition two_of_two : TranslationCache.t :=
  Eval vm_compute in
  snd (TranslationCache.put_all (TranslationCache.init 2) [ka; kb] upper).

(** A cache of capacity 1 holding [ka] *)
Definition one_of_one : TranslationCache.t :=
  Eval vm_compute in
  snd (TranslationCache.put_all (TranslationCache.init 1) [ka] upper).

Definition solid_frame (h w : nat) (c : BGR) : Frame :=
  mkFrame h w (fun _ _ => c).

(** A 24 x 40 frame, white with a dark band in rows 6 to 18. *)
Definition banded_frame : Frame :=
  mkFrame 24 40
    (fun r _ => if (6 <=? r)%nat && (r <? 19)%nat
                then (20, 20, 20) else (250, 250, 250)).

(** A stand-in for the grayscale conversion: the blue channel, at full
    size. *)
Definition blue_channel (_ : Z) (f : Frame) : Result FrameDiffer.Gray :=
  Ok (FrameDiffer.mkGray
        (Z.of_nat (f_height f), Z.of_nat (f_width f))
        (map StyleExtractor.chan0 (StyleExtractor.reshape_pixels f))).

Definition sample_ext : Pipeline.Externals :=
  Pipeline.mkExternals
    blue_channel
    (fun code => if String.eqb code "fra_Latn" then Some "fr"%string
                 else if String.eqb code "eng_Latn" then Some "en"%string
                 else None)
    (fun _ => Ok true)
    (fun _ => true)
    true
    (fun _ => Ok [("Hello world"%string, 4, 6, 30, 13)])
    (fun s => s)
    (fun _ => false)
    (fun _ => Ok ((20 # 1, 20 # 1, 20 # 1), (250 # 1, 250 # 1, 250 # 1)))
    (fun a b => Qabs (StyleExtractor.chan0 a - StyleExtractor.chan0 b))
    (fun texts _ tgt => Ok (map (fun s => (s ++ "@" ++ tgt)%string) texts))
    false true (fun _ => false).

Definition sample_settings : AppSettings.t :=
  AppSettings.mk AppSettings.FULLSCREEN None "" 0
                 "auto" "fra_Latn" 500 (5 # 1) (3 # 10) 2.

(** The same snapshot with another target language only *)
Definition retargeted_settings : AppSettings.t :=
  AppSettings.mk AppSettings.FULLSCREEN None "" 0
                 "auto" "deu_Latn" 500 (5 # 1) (3 # 10) 2.

(** The same snapshot with a smaller cache only *)
Definition small_cache_settings : AppSettings.t :=
  AppSettings.mk AppSettings.FULLSCREEN None "" 0
                 "auto" "fra_Latn" 500 (5 # 1) (3 # 10) 1.

(** A pipeline after [initialize] and [start]: engines loaded, capture
    started, nothing published yet. *)
Definition ready : Pipeline.t :=
  Eval vm_compute in
  let p := Pipeline.init sample_ext sample_settings in
  let p := Pipeline.set_ocr p (OCREngine.mk (3 # 10) true true
                                            (Some "en"%string)) in
  let p := Pipeline.set_translation p
             (TranslationEngine.mk true (Some "eng_Latn"%string)) in
  snd (fst (Pipeline.start sample_ext p)).

Definition world_with (f : Frame) : Pipeline.World :=
  Pipeline.mkWorld (Some f) (fun _ => None).

(** The state after one full cycle on [banded_frame] *)
Definition after_first_cycle : Pipeline.t :=
  Eval vm_compute in
  snd (fst (Pipeline._run_cycle sample_ext (world_with banded_frame)
                                ready)).

(** A running pipeline whose cache is full: 2 entries, capacity 2 *)
Definition with_full_cache : Pipeline.t :=
  Eval vm_compute in Pipeline.set_cache ready two_of_two.

Definition black_frame : Frame := solid_frame 24 40 (0, 0, 0).

(** A loaded engine, one that was never loaded, and a model that fails
    on any batch containing the empty string *)
Definition loaded_engine : TranslationEngine.t :=
  TranslationEngine.mk true (Some "eng_Latn"%string).

Definition picky_model (texts : list string) (_ tgt : string)
  : Result (list string) :=
  if existsb (String.eqb "") texts
  then Raise (BackendError "empty input")
  else Ok (map (fun s => (s ++ "@" ++ tgt)%string) texts).


Definition dot_block : TextBlock.t := TextBlock.new 3 3 1 1 "x" 1 8.

(** Two overlapping OCR lines with the same left edge: a tall one and a
    short one that starts and ends inside it. *)
Definition tall_line : TextBlock.t :=
  TextBlock.new 0 0 100 100 "Heading" 1 75.
Definition nested_line : TextBlock.t :=
  TextBlock.new 0 10 100 20 "small line" 1 15.

(** The two lines of the specification's merge example *)
Definition line_A : TextBlock.t := TextBlock.new 0 0 50 20 "A" 1 15.
Definition line_B : TextBlock.t := TextBlock.new 0 25 50 20 "B" 1 15.

End Examples.

(** ** Further concrete inputs *)

Module MoreExamples.

(** A 2 x 2 frame of one gray level *)
Definition flat_frame (v : Z) : Frame :=
  Examples.solid_frame 2 2 (v, v, v).

Definition flat_gray (v : Z) : FrameDiffer.Gray :=
  FrameDiffer.mkGray (2, 2) [v; v; v; v].

(** The grayscale array of [Examples.banded_frame] under
    [Examples.blue_channel] *)
Definition banded_gray : FrameDiffer.Gray :=
  FrameDiffer.mkGray (24, 40)
    (map StyleExtractor.chan0
         (StyleExtractor.reshape_pixels Examples.banded_frame)).

Definition hello_block : TextBlock.t := TextBlock.new 4 6 30 13 "Hello" 1 9.

(** An OCR engine set up for English, on a machine where Windows OCR
    supports no language and the user profile offers none *)
Definition english_ocr : OCREngine.t :=
  OCREngine.mk (3 # 10) true true (Some "en"%string).

Definition nothing_supported (_ : string) : Result bool := Ok false.

Definition no_profile_engine : bool := false.

(** A k-means that refuses fewer than two pixels, as OpenCV does *)
Definition strict_kmeans (px : list BGR)
  : Result (StyleExtractor.QColor * StyleExtractor.QColor) :=
  if (List.length px <? 2)%nat
  then Raise (BackendError "kmeans: too few samples")
  else Pipeline.kmeans2 Examples.sample_ext px.

(** A frame of height 0 *)
Definition empty_frame : Frame := Examples.solid_frame 0 5 (0, 0, 0).

(** BetterCam installed, able to open monitor 0 only *)
Definition bettercam_engine : CaptureEngine.t := CaptureEngine.init true.

Definition only_monitor_0 (monitor : Z) : bool := monitor =? 0.

(** A world in which the backend delivers nothing *)
Definition dark_world : Pipeline.World :=
  Pipeline.mkWorld None (fun _ => None).

(** A pipeline with its engines loaded that was never started *)
Definition stopped : Pipeline.t :=
  Eval vm_compute in
  let p := Pipeline.init Examples.sample_ext Examples.sample_settings in
  let p := Pipeline.set_ocr p english_ocr in
  Pipeline.set_translation p Examples.loaded_engine.

(** A 2 x 2 frame of one colour and a block that covers it: the sampled
    region is the whole frame, no taller and no wider than the strip
    width 2. *)
Definition tiny_frame : Frame := Examples.solid_frame 2 2 (10, 20, 30).

Definition tiny_block : TextBlock.t := TextBlock.new 0 0 2 2 "x" 1 8.

(** The text [cafe] with an acute accent on the [e]: four code points,
    five bytes in UTF-8 (the accented letter is the pair 195, 169). *)
Definition accented_text : string :=
  ("caf" ++ String (Ascii.ascii_of_nat 195)
              (String (Ascii.ascii_of_nat 169) EmptyString))%string.

End MoreExamples.

(** * Properties *)

(** ** The translation cache *)

Section CacheFacts.

Import TranslationCache.

Implicit Types (d : list (Key * string)) (k : Key) (v : string) (c : t).

Lemma key_eqb_refl k : key_eqb k k = true.
Proof. unfold key_eqb. destruct (key_eq_dec k k); congruence. Qed.

Lemma key_eqb_true k k' : key_eqb k k' = true -> k = k'.
Proof. unfold key_eqb. destruct (key_eq_dec k k'); congruence. Qed.

Lemma key_eqb_neq k k' : k <> k' -> key_eqb k k' = false.
Proof. unfold key_eqb. destruct (key_eq_dec k k'); congruence. Qed.

Lemma contains_In d k : contains d k = true <-> In k (keys d).
Proof.
  unfold contains, keys. rewrite existsb_exists, in_map_iff. split.
  - intros [e [He Hk]]. exists e. split; auto using key_eqb_true.
  - intros [e [Hk He]]. exists e. subst. split; auto using key_eqb_refl.
Qed.

Lemma contains_false d k : contains d k = false <-> ~ In k (keys d).
Proof.
  rewrite <- contains_In. destruct (contains d k); split; congruence.
Qed.

Lemma lookup_None d k : ~ In k (keys d) -> lookup d k = None.
Proof.
  induction d as [|[k' v'] d IH]; simpl; intros H; auto.
  rewrite key_eqb_neq by tauto. apply IH. tauto.
Qed.

Lemma lookup_In d k v : NoDup (keys d) -> In (k, v) d -> lookup d k = Some v.
Proof.
  induction d as [|[k' v'] d IH]; simpl; intros Hnd Hin; [tauto|].
  inversion Hnd as [|? ? Hk' Hnd']; subst.
  destruct Hin as [Heq|Hin].
  - inversion Heq; subst. now rewrite key_eqb_refl.
  - rewrite key_eqb_neq; auto.
    intros ->. apply Hk'. unfold keys. apply in_map_iff.
    now exists (k, v).
Qed.

Lemma setitem_new d k v : ~ In k (keys d) -> setitem d k v = d ++ [(k, v)].
Proof.
  induction d as [|[k' v'] d IH]; simpl; intros H; auto.
  rewrite key_eqb_neq by tauto. f_equal. apply IH. tauto.
Qed.

Lemma remove_key_notin d k : ~ In k (keys d) -> remove_key d k = d.
Proof.
  induction d as [|[k' v'] d IH]; simpl; intros H; auto.
  rewrite key_eqb_neq by tauto. simpl. f_equal. apply IH. tauto.
Qed.

Lemma remove_key_absent d k : ~ In k (keys (remove_key d k)).
Proof.
  unfold keys, remove_key. rewrite in_map_iff.
  intros [e [He Hin]]. apply filter_In in Hin. destruct Hin as [_ Hb].
  subst. now rewrite key_eqb_refl in Hb.
Qed.

Lemma remove_key_keys_incl d k k' :
  In k' (keys (remove_key d k)) -> In k' (keys d).
Proof.
  unfold keys, remove_key. rewrite !in_map_iff.
  intros [e [He Hin]]. apply filter_In in Hin. exists e. tauto.
Qed.

Lemma remove_key_NoDup d k : NoDup (keys d) -> NoDup (keys (remove_key d k)).
Proof.
  induction d as [|[k' v'] d IH]; simpl; intros H; auto.
  inversion H; subst.
  destruct (key_eqb k' k); simpl; auto.
  constructor; auto. intros Hin. now apply remove_key_keys_incl in Hin.
Qed.

Lemma lookup_app_last d k v :
  ~ In k (keys d) -> lookup (d ++ [(k, v)]) k = Some v.
Proof.
  induction d as [|[k' v'] d IH]; simpl; intros H.
  - now rewrite key_eqb_refl.
  - rewrite key_eqb_neq by tauto. apply IH. tauto.
Qed.

Lemma remove_key_app_last d k v :
  ~ In k (keys d) -> remove_key (d ++ [(k, v)]) k = d.
Proof.
  intros H. unfold remove_key. rewrite filter_app. simpl.
  rewrite key_eqb_refl. simpl. rewrite app_nil_r.
  now apply remove_key_notin.
Qed.

Lemma move_to_end_last d k v :
  ~ In k (keys d) -> move_to_end (d ++ [(k, v)]) k = d ++ [(k, v)].
Proof.
  intros H. unfold move_to_end.
  now rewrite lookup_app_last, remove_key_app_last.
Qed.

(** The eviction loop keeps the [max_size] newest entries. *)
Lemma evict_skipn (n : nat) d :
  evict (Z.of_nat n) d = (Ok tt, skipn (List.length d - n) d).
Proof.
  induction d as [|e d IH]; cbn [evict].
  - destruct (Z.gtb_spec (Z.of_nat (List.length (@nil (Key * string))))
                         (Z.of_nat n)); [simpl in *; lia|reflexivity].
  - destruct (Z.gtb_spec (Z.of_nat (List.length (e :: d))) (Z.of_nat n)).
    + rewrite IH. simpl List.length in *.
      replace (S (List.length d) - n)%nat
        with (S (List.length d - n))%nat by lia.
      reflexivity.
    + simpl List.length in *.
      replace (S (List.length d) - n)%nat with 0%nat by lia.
      reflexivity.
Qed.

(** With a negative bound the loop empties the dictionary and the
    [popitem] that follows raises. *)
Lemma evict_negative (m : Z) d : m < 0 -> evict m d = (Raise KeyError, []).
Proof.
  intros Hm. induction d as [|e d IH]; cbn [evict].
  - destruct (Z.gtb_spec (Z.of_nat (List.length (@nil (Key * string)))) m);
      [reflexivity|simpl in *; lia].
  - destruct (Z.gtb_spec (Z.of_nat (List.length (e :: d))) m);
      [exact IH|lia].
Qed.

Lemma put_new (n : nat) c text src tgt v :
  max_size c = Z.of_nat n ->
  ~ In (text, src, tgt) (keys (_cache c)) ->
  put c text src tgt v =
    (Ok tt,
     mk (max_size c)
        (skipn (List.length (_cache c) + 1 - n)
               (_cache c ++ [((text, src, tgt), v)]))
        (_hits c) (_misses c)).
Proof.
  intros Hn Hk. unfold put.
  rewrite setitem_new, move_to_end_last by assumption.
  rewrite Hn, evict_skipn. rewrite length_app. simpl. reflexivity.
Qed.

Lemma keys_entries_of ks tr : keys (entries_of ks tr) = ks.
Proof.
  unfold keys, entries_of. rewrite map_map. simpl. apply map_id.
Qed.

Lemma keys_app d d' : keys (d ++ d') = keys d ++ keys d'.
Proof. apply map_app. Qed.

Lemma keys_skipn (a : nat) d : keys (skipn a d) = skipn a (keys d).
Proof. unfold keys. symmetry. apply skipn_map. Qed.

Lemma NoDup_skipn_app {A} (a : nat) (l l' : list A) :
  NoDup (l ++ l') -> NoDup (skipn a l ++ l').
Proof.
  intros H. rewrite <- (firstn_skipn a l) in H.
  rewrite <- app_assoc in H. now apply NoDup_app_remove_l in H.
Qed.

(** Putting new, pairwise distinct keys one after the other leaves the
    [max_size] newest entries of the old contents followed by the new
    ones. *)
Lemma put_all_new (n : nat) (tr : Key -> string) ks :
  forall c,
    max_size c = Z.of_nat n ->
    NoDup (keys (_cache c) ++ ks) ->
    (List.length (_cache c) <= n)%nat \/ ks <> [] ->
    put_all c ks tr =
      (Ok tt,
       mk (max_size c)
          (skipn (List.length (_cache c) + List.length ks - n)
                 (_cache c ++ entries_of ks tr))
          (_hits c) (_misses c)).
Proof.
  induction ks as [|[[text src] tgt] ks IH]; intros c Hn Hnd Hsz.
  - simpl. destruct Hsz as [Hsz|Hsz]; [|congruence].
    replace (List.length (_cache c) + 0 - n)%nat with 0%nat by lia.
    rewrite app_nil_r. simpl. now destruct c.
  - simpl put_all.
    assert (Hk : ~ In (text, src, tgt) (keys (_cache c))).
    { intros Hin. apply NoDup_remove_2 in Hnd. apply Hnd.
      apply in_or_app. now left. }
    rewrite (put_new n) by assumption.
    set (d1 := skipn (List.length (_cache c) + 1 - n)
                     (_cache c ++ [((text, src, tgt), tr (text, src, tgt))])).
    rewrite IH; simpl max_size; simpl _cache; simpl _hits; simpl _misses;
      auto.
    + f_equal. f_equal.
      unfold d1. rewrite length_skipn, length_app. simpl List.length.
      set (a := (List.length (_cache c) + 1 - n)%nat).
      set (X := _cache c ++ [(text, src, tgt, tr (text, src, tgt))]).
      assert (HX : List.length X = (List.length (_cache c) + 1)%nat)
        by (unfold X; rewrite length_app; reflexivity).
      assert (E : skipn a X ++ entries_of ks tr
                  = skipn a (X ++ entries_of ks tr)).
      { rewrite skipn_app.
        replace (a - List.length X)%nat with 0%nat by (unfold a; lia).
        reflexivity. }
      rewrite E, skipn_skipn. unfold X. rewrite <- app_assoc. simpl.
      f_equal. unfold a. lia.
    + unfold d1. rewrite keys_skipn, keys_app. simpl.
      apply NoDup_skipn_app. rewrite <- app_assoc. exact Hnd.
    + left. unfold d1. rewrite length_skipn, length_app. simpl. lia.
Qed.

Lemma In_keys d k v : In (k, v) d -> In k (keys d).
Proof. intros H. unfold keys. apply in_map_iff. now exists (k, v). Qed.

(** A hit returns the stored translation and moves the entry to the
    most-recently-used end. *)
Lemma get_hit c text src tgt v :
  wf c ->
  In ((text, src, tgt), v) (_cache c) ->
  get c text src tgt =
    (Some v,
     mk (max_size c)
        (remove_key (_cache c) (text, src, tgt) ++ [((text, src, tgt), v)])
        (_hits c + 1) (_misses c)).
Proof.
  intros Hwf Hin. unfold get.
  assert (Hc : contains (_cache c) (text, src, tgt) = true)
    by (apply contains_In; eauto using In_keys).
  rewrite Hc. unfold move_to_end.
  rewrite (lookup_In _ _ v Hwf Hin).
  rewrite lookup_app_last by apply remove_key_absent.
  reflexivity.
Qed.

Lemma get_miss c text src tgt :
  ~ In (text, src, tgt) (keys (_cache c)) ->
  get c text src tgt =
    (None, mk (max_size c) (_cache c) (_hits c) (_misses c + 1)).
Proof.
  intros H. unfold get. apply contains_false in H. now rewrite H.
Qed.

(** A key that was just read survives the insertion of fewer than
    [max_size] new keys. *)
Lemma promoted_key_survives (tr : Key -> string) c text src tgt v others :
  wf c ->
  In ((text, src, tgt), v) (_cache c) ->
  NoDup others ->
  (forall k', In k' others -> ~ In k' (keys (_cache c))) ->
  Z.of_nat (List.length others) < max_size c ->
  exists c2,
    put_all (snd (get c text src tgt)) others tr = (Ok tt, c2)
    /\ fst (get c2 text src tgt) = Some v.
Proof.
  intros Hwf Hin Hnd Hnew Hlen.
  set (k := (text, src, tgt)) in *.
  rewrite (get_hit c text src tgt v) by assumption. fold k. simpl snd.
  set (r := remove_key (_cache c) k).
  set (n := Z.to_nat (max_size c)).
  assert (Hn : max_size c = Z.of_nat n) by (unfold n; lia).
  assert (Hr : ~ In k (keys r)) by apply remove_key_absent.
  assert (Hnd1 : NoDup (keys (r ++ [(k, v)]) ++ others)).
  { rewrite keys_app. simpl. rewrite <- app_assoc. simpl.
    apply NoDup_app; [now apply remove_key_NoDup| |].
    - constructor; auto. intros Hk. apply (Hnew k Hk).
      eauto using In_keys.
    - intros x Hx [<-|Hx']; [tauto|].
      apply (Hnew x Hx'). now apply remove_key_keys_incl in Hx. }
  destruct others as [|o others].
  - simpl put_all. eexists. split; [reflexivity|].
    erewrite get_hit; [reflexivity| |].
    + unfold wf. simpl. now rewrite app_nil_r in Hnd1.
    + simpl. apply in_or_app. right. now left.
  - rewrite (put_all_new n); simpl max_size; simpl _cache; auto;
      [|right; discriminate].
    eexists. split; [reflexivity|].
    set (d2 := skipn _ _).
    assert (Hd2 : NoDup (keys d2) /\ In (k, v) d2).
    { unfold d2. rewrite length_app. simpl List.length.
      set (s := (_ - n)%nat).
      assert (Hs : (s <= List.length r)%nat)
        by (unfold s; simpl List.length in Hlen; lia).
      rewrite <- app_assoc. rewrite skipn_app.
      replace (s - List.length r)%nat with 0%nat by lia.
      simpl skipn. split.
      - rewrite keys_app, keys_skipn. apply NoDup_skipn_app.
        rewrite keys_app in Hnd1. simpl in Hnd1.
        rewrite <- app_assoc in Hnd1. simpl in Hnd1.
        change (keys ((k, v) :: (o, tr o) :: entries_of others tr))
          with (k :: o :: keys (entries_of others tr)).
        rewrite keys_entries_of. exact Hnd1.
      - apply in_or_app. right. now left. }
    destruct Hd2 as [Hnd2 Hin2].
    erewrite get_hit; [reflexivity| |]; simpl; auto.
Qed.

Lemma clear_empty c :
  size (clear c) = 0
  /\ forall text src tgt, fst (get (clear c) text src tgt) = None.
Proof. split; reflexivity. Qed.

(** Filling an empty cache of capacity [n] with [n + 1] distinct keys
    drops the first one and keeps the others, in insertion order. *)
Lemma fill_evicts_oldest (n : nat) (tr : Key -> string) k0 ks :
  NoDup (k0 :: ks) ->
  List.length ks = n ->
  put_all (init (Z.of_nat n)) (k0 :: ks) tr
    = (Ok tt, mk (Z.of_nat n) (entries_of ks tr) 0 0)
  /\ contains (entries_of ks tr) k0 = false
  /\ forall k, In k ks -> contains (entries_of ks tr) k = true.
Proof.
  intros Hnd Hlen. split; [|split].
  - rewrite (put_all_new n);
      [|reflexivity|exact Hnd|right; discriminate].
    unfold init. cbn [max_size _cache _hits _misses List.length app].
    rewrite Hlen. replace (0 + S n - n)%nat with 1%nat by lia.
    reflexivity.
  - apply contains_false. rewrite keys_entries_of.
    now inversion Hnd.
  - intros k Hk. apply contains_In. now rewrite keys_entries_of.
Qed.

(** [put] with a non-negative bound succeeds, keeps the newest entries
    and ends within the bound. *)
Lemma put_bounded c text src tgt v :
  0 <= max_size c ->
  let d := move_to_end (setitem (_cache c) (text, src, tgt) v)
                       (text, src, tgt) in
  let c' := mk (max_size c)
               (skipn (List.length d - Z.to_nat (max_size c)) d)
               (_hits c) (_misses c) in
  put c text src tgt v = (Ok tt, c') /\ size c' <= max_size c'.
Proof.
  intros Hm d c'. split.
  - unfold put. fold d.
    replace (max_size c) with (Z.of_nat (Z.to_nat (max_size c))) at 1
      by lia.
    rewrite evict_skipn. reflexivity.
  - unfold size, c'. simpl. rewrite length_skipn. lia.
Qed.

Lemma remove_key_length d k :
  In k (keys d) -> (List.length (remove_key d k) < List.length d)%nat.
Proof.
  induction d as [|[k' v'] d IH]; simpl; [tauto|].
  intros [->|Hin].
  - rewrite key_eqb_refl. simpl.
    pose proof (filter_length_le
                  (fun e => negb (key_eqb (fst e) k)) d) as H.
    unfold remove_key. lia.
  - specialize (IH Hin). destruct (key_eqb k' k); simpl; lia.
Qed.

Lemma get_size c text src tgt :
  size (snd (get c text src tgt)) <= size c
  /\ max_size (snd (get c text src tgt)) = max_size c.
Proof.
  unfold get, size.
  destruct (contains (_cache c) (text, src, tgt)) eqn:E; simpl;
    [|split; [lia|reflexivity]].
  split; [|reflexivity].
  apply contains_In in E. unfold move_to_end.
  destruct (lookup (_cache c) (text, src, tgt)); [|lia].
  rewrite length_app. simpl.
  pose proof (remove_key_length _ _ E). lia.
Qed.

(** C1 (amended).  For a cache of capacity [n]: putting [n + 1] distinct
    keys into the fresh cache evicts exactly the first, least recently
    used key and keeps the [n] others; a [get] that hits a key promotes
    it, so that the [put] of fewer than [max_size] other new keys does
    not evict it (it is still returned with its translation); after
    [clear] the size is 0 and every [get] misses. *)
Theorem lru_evict_promote_clear
        (n : nat) (tr : Key -> string) (k0 : Key) (ks : list Key)
        (c : t) (text src tgt v : string) (others : list Key) :
  NoDup (k0 :: ks) ->
  List.length ks = n ->
  wf c ->
  In ((text, src, tgt), v) (_cache c) ->
  NoDup others ->
  (forall k', In k' others -> ~ In k' (keys (_cache c))) ->
  Z.of_nat (List.length others) < max_size c ->
  (put_all (init (Z.of_nat n)) (k0 :: ks) tr
     = (Ok tt, mk (Z.of_nat n) (entries_of ks tr) 0 0)
   /\ contains (entries_of ks tr) k0 = false
   /\ (forall k, In k ks -> contains (entries_of ks tr) k = true))
  /\ (fst (get c text src tgt) = Some v
      /\ exists c2,
           put_all (snd (get c text src tgt)) others tr = (Ok tt, c2)
           /\ fst (get c2 text src tgt) = Some v)
  /\ (size (clear c) = 0
      /\ forall text' src' tgt',
           fst (get (clear c) text' src' tgt') = None).
Proof.
  intros Hnd Hlen Hwf Hin Hnd' Hnew Hlt. split; [|split].
  - now apply fill_evicts_oldest.
  - split.
    + now rewrite (get_hit c text src tgt v).
    + now apply promoted_key_survives.
  - apply clear_empty.
Qed.

End CacheFacts.

Lemma lru_evict_promote_clear_witness :
  let c := Examples.two_of_two in
  (TranslationCache.put_all (TranslationCache.init 2)
     [Examples.kc; Examples.ka; Examples.kb]
     Examples.upper
   = (Ok tt,
      TranslationCache.mk 2
        (TranslationCache.entries_of [Examples.ka; Examples.kb]
           Examples.upper) 0 0)
   /\ TranslationCache.contains
        (TranslationCache.entries_of [Examples.ka; Examples.kb]
           Examples.upper) Examples.kc = false
   /\ (forall k, In k [Examples.ka; Examples.kb] ->
        TranslationCache.contains
          (TranslationCache.entries_of [Examples.ka; Examples.kb]
             Examples.upper) k = true))
  /\ (fst (TranslationCache.get c "alpha" "eng_Latn" "fra_Latn")
        = Some "alpha!"%string
      /\ exists c2,
           TranslationCache.put_all
             (snd (TranslationCache.get c "alpha" "eng_Latn" "fra_Latn"))
             [Examples.kc] Examples.upper = (Ok tt, c2)
           /\ fst (TranslationCache.get c2 "alpha" "eng_Latn" "fra_Latn")
              = Some "alpha!"%string)
  /\ (TranslationCache.size (TranslationCache.clear c) = 0
      /\ forall text' src' tgt',
           fst (TranslationCache.get (TranslationCache.clear c)
                  text' src' tgt') = None).
Proof.
  apply (lru_evict_promote_clear 2 Examples.upper Examples.kc
           [Examples.ka; Examples.kb] Examples.two_of_two
           "alpha" "eng_Latn" "fra_Latn" "alpha!" [Examples.kc]).
  - repeat constructor; simpl; intuition discriminate.
  - reflexivity.
  - vm_compute. repeat constructor; simpl; intuition discriminate.
  - vm_compute. now left.
  - repeat constructor; simpl; tauto.
  - intros k' [<-|[]] [H|[H|[]]]; discriminate H.
  - vm_compute. reflexivity.
Defined.

(** C1, as stated, fails: with capacity 1, a [get] on the cached key
    followed by the [put] of 1 (= capacity) other new key evicts it. *)
Lemma lru_promotion_counterexample :
  let c := Examples.one_of_one in
  let others := [Examples.kb] in
  TranslationCache.wf c
  /\ In (Examples.ka, "alpha!"%string) (TranslationCache._cache c)
  /\ NoDup others
  /\ (forall k', In k' others ->
       ~ In k' (TranslationCache.keys (TranslationCache._cache c)))
  /\ Z.of_nat (List.length others) = TranslationCache.max_size c
  /\ exists c2,
       TranslationCache.put_all
         (snd (TranslationCache.get c "alpha" "eng_Latn" "fra_Latn"))
         others Examples.upper = (Ok tt, c2)
       /\ fst (TranslationCache.get c2 "alpha" "eng_Latn" "fra_Latn") = None
       /\ TranslationCache.contains (TranslationCache._cache c2)
            Examples.ka = false.
Proof.
  vm_compute. repeat split.
  - repeat constructor; simpl; tauto.
  - now left.
  - repeat constructor; simpl; tauto.
  - intros k' [<-|[]] [H|[]]; discriminate H.
  - eexists. repeat split.
Qed.

(** ** The change detector *)

Section DifferFacts.

Import FrameDiffer.

Variable gray_downsample : Z -> Frame -> Result Gray.

Lemma shape_eqb_refl (s : Z * Z) : shape_eqb s s = true.
Proof. unfold shape_eqb. now rewrite !Z.eqb_refl. Qed.


Lemma sum_abs_diff_same (l : list Z) : sum_abs_diff l l = 0.
Proof.
  induction l as [|u l IH]; simpl; [reflexivity|].
  rewrite IH, Z.sub_diag. reflexivity.
Qed.

(** Identical arrays are never "changed" under a non-negative
    threshold: their mean difference is 0, or NaN when they are empty. *)
Lemma identical_not_exceeding (g : Gray) (th : Q) :
  (0 <= th)%Q -> exceeds (mean_abs_diff g g) th = false.
Proof.
  intros Hth. unfold mean_abs_diff, exceeds.
  destruct (List.length (samples g)); [reflexivity|].
  rewrite sum_abs_diff_same.
  apply negb_false_iff, Qle_bool_iff.
  unfold Qle in *. simpl in *. lia.
Qed.


End DifferFacts.

(** ** OCR post-processing: font size and paragraph merging *)

Section OcrFacts.

Import OCREngine.

Variable strip : string -> string.
Variable punctuation_only : string -> bool.

Lemma block_of_line_fields (ox oy : Z) (ln : Line) (b : TextBlock.t) :
  block_of_line strip punctuation_only ox oy ln = Some b ->
  let '(_, _, _, w, h) := ln in
  TextBlock.height b = h
  /\ TextBlock.width b = w
  /\ 5 <= h /\ 5 <= w
  /\ TextBlock.font_size b = font_size_of_height h.
Proof.
  destruct ln as [[[[text x] y] w] h]. unfold block_of_line.
  destruct (_ || _); [discriminate|].
  destruct (punctuation_only _); [discriminate|].
  destruct (Z.ltb_spec w 5); [discriminate|].
  destruct (Z.ltb_spec h 5); [discriminate|].
  simpl. intros E. inversion E; subst; clear E. simpl.
  repeat split; auto.
Qed.

(** For a non-negative height, truncation is the floor. *)
Lemma font_size_of_height_floor (h : Z) :
  0 <= h -> font_size_of_height h = Z.max 8 (h * 3 / 4).
Proof.
  intros Hh. unfold font_size_of_height.
  rewrite Z.quot_div_nonneg by lia. reflexivity.
Qed.

(** C6 (amended).  Every block that [detect] builds from a recognised
    line gets [font_size = max(8, floor(h * 0.75))], where [h] is its
    bounding-box height: the product is truncated, not rounded. *)
Theorem detected_font_size (ox oy : Z) (lines : list Line) :
  Forall (fun b => TextBlock.font_size b
                   = Z.max 8 (TextBlock.height b * 3 / 4))
         (blocks_of_lines strip punctuation_only ox oy lines).
Proof.
  induction lines as [|ln lines IH]; simpl; [constructor|].
  destruct (block_of_line strip punctuation_only ox oy ln) as [b|] eqn:E;
    [|exact IH].
  constructor; [|exact IH].
  apply block_of_line_fields in E.
  destruct ln as [[[[text x] y] w] h].
  destruct E as (Hh & _ & Hge & _ & Hfs).
  rewrite Hfs, Hh. apply font_size_of_height_floor. lia.
Qed.

(** The parts of the merge that hold for every merged pair: the text is
    joined with one blank, the font size is that of [current], and the
    box starts at the leftmost x and at [current]'s y. *)
Lemma merge_pair_fields (current next_block : TextBlock.t) :
  let m := merge_pair current next_block in
  TextBlock.text m
    = (TextBlock.text current ++ " " ++ TextBlock.text next_block)%string
  /\ TextBlock.font_size m = TextBlock.font_size current
  /\ TextBlock.x m = Z.min (TextBlock.x current) (TextBlock.x next_block)
  /\ TextBlock.y m = TextBlock.y current
  /\ TextBlock.x m + TextBlock.width m
     = Z.max (TextBlock.x current + TextBlock.width current)
             (TextBlock.x next_block + TextBlock.width next_block)
  /\ TextBlock.y m + TextBlock.height m
     = TextBlock.y next_block + TextBlock.height next_block.
Proof. simpl. repeat split; lia. Qed.

(** When [next_block] starts no higher and ends no higher than
    [current], the merged box is the union of the two boxes. *)
Lemma merge_pair_union (current next_block : TextBlock.t) :
  TextBlock.y current <= TextBlock.y next_block ->
  TextBlock.y current + TextBlock.height current
    <= TextBlock.y next_block + TextBlock.height next_block ->
  SpecWording.bbox (merge_pair current next_block)
    = SpecWording.bbox_union current next_block.
Proof.
  intros Hy Hb. unfold SpecWording.bbox, SpecWording.bbox_union. simpl.
  repeat match goal with |- (_, _) = (_, _) => f_equal end; lia.
Qed.

End OcrFacts.

(** C6, as stated, fails: a recognised line of height 13 gets font size
    [max(8, int(9.75)) = 9], where [max(8, round(h * 0.75))] is 10. *)
Lemma font_size_round_counterexample :
  OCREngine.font_size_of_height 13 = 9
  /\ SpecWording.font_size 13 = 10
  /\ map TextBlock.font_size
         (OCREngine.blocks_of_lines (fun s => s) (fun _ => false) 0 0
            [("Hello world"%string, 4, 6, 30, 13)]) = [9].
Proof. repeat split. Qed.

(** C3: the code at the failing input.  The two lines pass the merge test
    and are merged, yet the merged box is 30 high where the union of the
    two boxes is 100 high: the bottom edge is taken from [next_block]
    alone.  Text and font size are as claimed. *)
Lemma merge_nested_lines_not_union :
  OCREngine.same_paragraph Examples.tall_line Examples.nested_line = true
  /\ OCREngine._merge_paragraph_lines
       [Examples.nested_line; Examples.tall_line]
     = [OCREngine.merge_pair Examples.tall_line Examples.nested_line]
  /\ SpecWording.bbox
       (OCREngine.merge_pair Examples.tall_line Examples.nested_line)
     = (0, 0, 100, 30)
  /\ SpecWording.bbox_union Examples.tall_line Examples.nested_line
     = (0, 0, 100, 100)
  /\ TextBlock.text
       (OCREngine.merge_pair Examples.tall_line Examples.nested_line)
     = "Heading small line"%string
  /\ TextBlock.font_size
       (OCREngine.merge_pair Examples.tall_line Examples.nested_line)
     = TextBlock.font_size Examples.tall_line.
Proof. repeat split. Qed.

(** The specification's own example: lines at [y=0,h=20] and [y=25,h=20]
    with equal [x] merge into one block "A B" that spans both. *)
Example merge_spec_example :
  OCREngine._merge_paragraph_lines [Examples.line_B; Examples.line_A]
  = [TextBlock.new 0 0 50 45 "A B" 1 15].
Proof. reflexivity. Qed.

(** A single block, and no block, pass through unchanged. *)
Example merge_single (b : TextBlock.t) :
  OCREngine._merge_paragraph_lines [b] = [b]
  /\ OCREngine._merge_paragraph_lines [] = [].
Proof. split; reflexivity. Qed.

(** ** The style sampler *)

Section StyleFacts.

Import StyleExtractor.

Variable kmeans2 : list BGR -> Result (QColor * QColor).
Variable linalg_norm_diff : QColor -> QColor -> Q.

Local Abbreviation sample_block :=
  (StyleExtractor.sample_block kmeans2 linalg_norm_diff).
Local Abbreviation extract_one :=
  (StyleExtractor.extract_one kmeans2 linalg_norm_diff).
Local Abbreviation extract :=
  (StyleExtractor.extract kmeans2 linalg_norm_diff).
Local Abbreviation sampled :=
  (StyleExtractor.sampled kmeans2 linalg_norm_diff).

Lemma extract_one_sampled (frame : Frame) (block : TextBlock.t) :
  extract_one frame block = Ok (sampled frame block).
Proof.
  unfold StyleExtractor.extract_one, StyleExtractor.sampled.
  destruct (sample_block frame block) as [[|bg fg]|e]; reflexivity.
Qed.

Lemma extract_map (frame : Frame) (blocks : list TextBlock.t) :
  extract frame blocks = Ok (map (sampled frame) blocks).
Proof.
  induction blocks as [|b blocks IH]; simpl; [reflexivity|].
  rewrite extract_one_sampled. simpl. rewrite IH. reflexivity.
Qed.

Lemma reshape_pixels_length (img : Frame) :
  List.length (reshape_pixels img) = (f_height img * f_width img)%nat.
Proof.
  unfold reshape_pixels.
  assert (G : forall rows : list nat,
             List.length
               (flat_map (fun r => map (fun c => f_pixel img r c)
                                       (seq 0 (f_width img))) rows)
             = (List.length rows * f_width img)%nat).
  { induction rows as [|r rows IH]; simpl; [reflexivity|].
    rewrite length_app, length_map, length_seq, IH. reflexivity. }
  rewrite G, length_seq. reflexivity.
Qed.

(** A slice between two non-negative bounds is no longer than their
    distance. *)
Lemma slice_extent (n a b : Z) :
  0 <= n -> 0 <= a -> 0 <= b ->
  slice_bound n b - slice_bound n a <= Z.max 0 (b - a).
Proof.
  intros Hn Ha Hb. unfold slice_bound.
  destruct (Z.ltb_spec b 0), (Z.ltb_spec a 0); lia.
Qed.

(** A block that reaches the k-means step with fewer than two pixels is
    skipped; one that does not reach it was skipped before. *)
Lemma few_pixels_skipped (frame : Frame) (block : TextBlock.t) :
  Z.of_nat (List.length (inner_pixels frame block)) < 2 ->
  sample_block frame block = Ok Skipped.
Proof.
  unfold inner_pixels, StyleExtractor.sample_block. intros H.
  destruct (_ || _); [reflexivity|].
  destruct (array_size _ =? 0); [reflexivity|].
  destruct (Z.ltb_spec
              (Z.of_nat (List.length (reshape_pixels
                 (inner_roi
                    (slice2 frame
                       (Z.max 0 (TextBlock.y block
                                 - Z.max 4 (TextBlock.height block / 2)))
                       (Z.min (Z.of_nat (f_height frame))
                          (TextBlock.y block + TextBlock.height block
                           + Z.max 4 (TextBlock.height block / 2)))
                       (Z.max 0 (TextBlock.x block
                                 - Z.max 4 (TextBlock.height block / 2)))
                       (Z.min (Z.of_nat (f_width frame))
                          (TextBlock.x block + TextBlock.width block
                           + Z.max 4 (TextBlock.height block / 2))))
                    block
                    (Z.max 0 (TextBlock.x block
                              - Z.max 4 (TextBlock.height block / 2)))
                    (Z.max 0 (TextBlock.y block
                              - Z.max 4 (TextBlock.height block / 2)))))))
              2); [reflexivity|lia].
Qed.

(** A one-pixel block at non-negative frame coordinates has at most one
    inner pixel. *)
Lemma one_by_one_inner (frame : Frame) (block : TextBlock.t) :
  TextBlock.width block = 1 ->
  TextBlock.height block = 1 ->
  0 <= TextBlock.x block ->
  0 <= TextBlock.y block ->
  Z.of_nat (List.length (inner_pixels frame block)) < 2.
Proof.
  intros Hw Hh Hx Hy. unfold inner_pixels.
  rewrite reshape_pixels_length. unfold inner_roi.
  rewrite Hw, Hh. change (1 / 2) with 0. change (Z.max 4 0) with 4.
  set (roi := slice2 frame _ _ _ _).
  set (rh := Z.of_nat (f_height roi)).
  set (rw := Z.of_nat (f_width roi)).
  assert (0 <= rh) by (unfold rh; lia).
  assert (0 <= rw) by (unfold rw; lia).
  unfold slice2 at 1 2. cbn [f_height f_width]. fold rh. fold rw.
  set (iy1 := Z.max 0 (TextBlock.y block - Z.max 0 (TextBlock.y block - 4))).
  set (iy2 := Z.min rh (TextBlock.y block
                        - Z.max 0 (TextBlock.y block - 4) + 1)).
  set (ix1 := Z.max 0 (TextBlock.x block - Z.max 0 (TextBlock.x block - 4))).
  set (ix2 := Z.min rw (TextBlock.x block
                        - Z.max 0 (TextBlock.x block - 4) + 1)).
  pose proof (slice_extent rh iy1 iy2).
  pose proof (slice_extent rw ix1 ix2).
  assert (Z.to_nat (slice_bound rh iy2 - slice_bound rh iy1) <= 1)%nat
    by (unfold iy1, iy2 in *; lia).
  assert (Z.to_nat (slice_bound rw ix2 - slice_bound rw ix1) <= 1)%nat
    by (unfold ix1, ix2 in *; lia).
  set (rows := Z.to_nat (slice_bound rh iy2 - slice_bound rh iy1)) in *.
  set (cols := Z.to_nat (slice_bound rw ix2 - slice_bound rw ix1)) in *.
  assert (rows * cols <= 1)%nat by nia. lia.
Qed.

(** C8.  [extract] never raises: it returns the list in which every
    block has been treated on its own ([sampled]), so a block whose body
    raised keeps its colours as they were and the blocks after it are
    still sampled.  A block whose inner region has fewer than two pixels
    ([small]) is skipped, its colours untouched; a 1 x 1 block at
    non-negative frame coordinates ([dot]) is such a block. *)
Theorem extract_never_raises
        (frame : Frame) (blocks : list TextBlock.t)
        (small dot : TextBlock.t) :
  Z.of_nat (List.length (inner_pixels frame small)) < 2 ->
  TextBlock.width dot = 1 ->
  TextBlock.height dot = 1 ->
  0 <= TextBlock.x dot ->
  0 <= TextBlock.y dot ->
  extract frame blocks = Ok (map (sampled frame) blocks)
  /\ List.length (map (sampled frame) blocks) = List.length blocks
  /\ sample_block frame small = Ok Skipped
  /\ sampled frame small = small
  /\ sample_block frame dot = Ok Skipped
  /\ sampled frame dot = dot.
Proof.
  intros Hsmall Hw Hh Hx Hy.
  assert (Hdot : sample_block frame dot = Ok Skipped)
    by (apply few_pixels_skipped; now apply one_by_one_inner).
  assert (Hsm : sample_block frame small = Ok Skipped)
    by now apply few_pixels_skipped.
  repeat split; auto using extract_map, length_map.
  - unfold StyleExtractor.sampled. now rewrite Hsm.
  - unfold StyleExtractor.sampled. now rewrite Hdot.
Qed.

End StyleFacts.

(** Outside the domain of the last statement: for a block above and left
    of the frame the slice [roi[0:-1, 0:-1]] counts its negative stop from
    the end, so the "inner" region of this 1 x 1 block has 4 pixels and the
    block is coloured. *)
Example negative_corner_inner_region :
  let stray := TextBlock.new (-2) (-2) 1 1 "x" 1 8 in
  let frame := Examples.solid_frame 10 10 (7, 7, 7) in
  List.length (StyleExtractor.inner_pixels frame stray) = 4%nat
  /\ StyleExtractor.sample_block
       (Pipeline.kmeans2 Examples.sample_ext)
       (Pipeline.linalg_norm_diff Examples.sample_ext) frame stray
     = Ok (StyleExtractor.Colored (7, 7, 7) (250, 250, 250)).
Proof. split; reflexivity. Qed.

(** ** The translation engine *)

Section TranslationFacts.

Import TranslationEngine.

Variable model_call :
  list string -> string -> string -> Result (list string).

(** C10.  [translate_batch] never raises and returns as many strings as
    it was given, the model being assumed to decode one string per input
    ([Hmodel]): it returns the empty list for the empty list, the input
    itself when the model is not loaded ([e_off]), and the input itself
    when the model call raises ([failing]). *)
Theorem translate_batch_total
        (e e_off : t) (texts failing : list string)
        (src tgt : string) (ex : exn) :
  (forall out, model_call texts src tgt = Ok out ->
               List.length out = List.length texts) ->
  _loaded e_off = false ->
  model_call failing src tgt = Raise ex ->
  (exists out,
      fst (translate_batch model_call e texts src tgt) = Ok out
      /\ List.length out = List.length texts)
  /\ fst (translate_batch model_call e [] src tgt) = Ok []
  /\ fst (translate_batch model_call e_off texts src tgt) = Ok texts
  /\ fst (translate_batch model_call e failing src tgt) = Ok failing.
Proof.
  intros Hmodel Hoff Hfail. repeat split.
  - unfold translate_batch.
    destruct (_loaded e); simpl; [|eauto].
    destruct texts as [|t0 texts']; simpl; [eauto|].
    destruct (model_call (t0 :: texts') src tgt) as [out|ex'] eqn:E;
      simpl; eauto.
  - unfold translate_batch. now destruct (_loaded e).
  - unfold translate_batch. now rewrite Hoff.
  - unfold translate_batch.
    destruct (_loaded e); simpl; [|reflexivity].
    destruct failing as [|t0 failing']; simpl; [reflexivity|].
    now rewrite Hfail.
Qed.

End TranslationFacts.

(** ** The orchestrator *)

Section PipelineFacts.

Import Pipeline.

Variable ext : Externals.

Lemma Forall_append {A} (P : A -> Prop) (l1 l2 : list A) :
  Forall P l1 -> Forall P l2 -> Forall P (l1 ++ l2).
Proof. intros H1 H2. apply Forall_app. now split. Qed.

(** Splits a goal about a trace into goals about its events. *)
Ltac trace_events :=
  repeat (apply Forall_append || apply Forall_cons || apply Forall_nil);
  simpl; auto.

Lemma lookup_loop_events (src tgt : string) (blocks : list TextBlock.t) :
  forall (c : TranslationCache.t) (i : nat),
    Forall (uses_languages src tgt) (snd (lookup_loop c src tgt i blocks)).
Proof.
  induction blocks as [|b blocks IH]; intros c i; simpl; [constructor|].
  destruct (TranslationCache.get c (TextBlock.text b) src tgt)
    as [cached c1].
  specialize (IH c1 (S i)).
  destruct (lookup_loop c1 src tgt (S i) blocks)
    as [[[[rest' tt] ti] c2] evs].
  simpl in IH.
  destruct cached; simpl; constructor; simpl; auto.
Qed.

Lemma store_loop_events (src tgt : string) (pairs : list (nat * string)) :
  forall (c : TranslationCache.t) (blocks : list TextBlock.t),
    Forall (uses_languages src tgt) (snd (store_loop c src tgt blocks pairs)).
Proof.
  induction pairs as [|[idx trans] pairs IH]; intros c blocks; simpl;
    [constructor|].
  destruct (nth_error blocks idx) as [b|]; simpl; [|constructor].
  destruct (TranslationCache.put c (TextBlock.text b) src tgt trans)
    as [[[]|e] c1]; simpl.
  - specialize (IH c1 (update_nth idx
                         (fun b => TextBlock.set_translation b trans)
                         blocks)).
    destruct (store_loop c1 src tgt _ pairs) as [[[r bl] c2] evs].
    simpl in *. constructor; simpl; auto.
  - repeat constructor.
Qed.

Lemma translate_blocks_events (p : t) (blocks : list TextBlock.t) :
  Forall (uses_languages (effective_source (settings p))
                         (AppSettings.target_language (settings p)))
         (snd (translate_blocks ext p blocks)).
Proof.
  unfold translate_blocks. fold (effective_source (settings p)).
  set (src := effective_source (settings p)).
  set (tgt := AppSettings.target_language (settings p)).
  pose proof (lookup_loop_events src tgt blocks (cache p) 0) as Hget.
  destruct (lookup_loop (cache p) src tgt 0 blocks)
    as [[[[blocks1 to_translate] indices] c1] ev_get].
  simpl in Hget.
  destruct (truthy to_translate); simpl; [|exact Hget].
  destruct (TranslationEngine.translate_batch _ _ _ _ _) as [r e].
  destruct r as [translations|ex]; simpl.
  - pose proof (store_loop_events src tgt (combine indices translations)
                  c1 blocks1) as Hput.
    destruct (store_loop c1 src tgt blocks1 _) as [[[r2 bl] c2] ev_put].
    simpl in Hput.
    destruct r2; simpl; trace_events.
  - trace_events.
Qed.

Lemma process_changed_frame_events
      (p : t) (frame : Frame) (ox oy : Z) :
  Forall (uses_languages (effective_source (settings p))
                         (AppSettings.target_language (settings p)))
         (snd (process_changed_frame ext p frame ox oy)).
Proof.
  unfold process_changed_frame.
  set (src := effective_source (settings p)).
  set (tgt := AppSettings.target_language (settings p)).
  assert (Hclear :
    forall q evc,
      (if truthy (_last_blocks p)
       then (set_last_blocks p [], [EvBlocksReady []])
       else (p, [])) = (q, evc) ->
      settings q = settings p /\ Forall (uses_languages src tgt) evc).
  { intros q evc. destruct (truthy (_last_blocks p)); intros E;
      inversion E; subst; split; auto; repeat constructor. }
  destruct (if truthy (_last_blocks p) then _ else _) as [q evc].
  destruct (Hclear q evc eq_refl) as [Hq Hevc].
  destruct (negb (truthy (ocr_detect ext (ocr q) frame ox oy))); simpl.
  - trace_events.
  - destruct (style_extract ext frame _) as [styled|ex]; simpl.
    + pose proof (translate_blocks_events q
                    (copy_colors (ocr_detect ext (ocr q) frame ox oy)
                                 styled)) as Htr.
      rewrite Hq in Htr. fold src tgt in Htr.
      destruct (translate_blocks ext q _) as [[r q'] ev_tr].
      simpl in Htr.
      destruct r; simpl; trace_events.
    + trace_events.
Qed.

Lemma run_cycle_events (w : World) (p : t) :
  Forall (uses_languages (effective_source (settings p))
                         (AppSettings.target_language (settings p)))
         (snd (_run_cycle ext w p)).
Proof.
  unfold _run_cycle.
  destruct (capture_geometry (settings p) w) as [[region ox] oy].
  destruct (CaptureEngine.grab _ _) as [frame|]; simpl;
    [|repeat constructor].
  destruct (FrameDiffer.has_changed _ _ _) as [changed d].
  destruct changed as [[|]|ex]; simpl.
  - pose proof (process_changed_frame_events
                  (set_differ (set_null_frame_count p 0) d) frame ox oy)
      as H.
    destruct (process_changed_frame ext _ frame ox oy) as [[r q] evs].
    simpl in *. repeat constructor. exact H.
  - destruct (truthy _); repeat constructor.
  - repeat constructor.
Qed.

(** Whatever else [update_settings] does, the cache only has its bound
    replaced: no entry is removed. *)
Lemma update_settings_cache (p : t) (new : AppSettings.t) :
  cache (snd (fst (update_settings ext p new)))
  = TranslationCache.set_max_size (cache p)
      (AppSettings.max_cache_size new).
Proof.
  unfold update_settings.
  destruct (negb (String.eqb _ _) && negb (String.eqb _ "auto")).
  - destruct (ocr_set_language _ _ _) as [[[]|e] o]; simpl;
      [|reflexivity].
    destruct (negb _ || negb _); simpl; [|reflexivity].
    destruct (capture_start _ _ _) as [[[]|e] c]; reflexivity.
  - destruct (negb _ || negb _); simpl; [|reflexivity].
    destruct (capture_start _ _ _) as [[[]|e] c]; reflexivity.
Qed.

Lemma CaptureMode_eqb_refl (m : AppSettings.CaptureMode) :
  AppSettings.CaptureMode_eqb m m = true.
Proof. now destruct m. Qed.

(** With monitor, mode and source language unchanged, [update_settings]
    only stores the snapshot and the three tunables. *)
Lemma update_settings_quiet (p : t) (new : AppSettings.t) :
  AppSettings.capture_monitor new
    = AppSettings.capture_monitor (settings p) ->
  AppSettings.capture_mode new = AppSettings.capture_mode (settings p) ->
  AppSettings.source_language new
    = AppSettings.source_language (settings p) ->
  update_settings ext p new
  = (Ok tt,
     mk new (capture p)
        (FrameDiffer.set_threshold (differ p)
           (AppSettings.frame_diff_threshold new))
        (OCREngine.set_confidence_threshold (ocr p)
           (AppSettings.ocr_confidence_threshold new))
        (translation p)
        (TranslationCache.set_max_size (cache p)
           (AppSettings.max_cache_size new))
        (_running p) (_last_blocks p) (_null_frame_count p),
     []).
Proof.
  intros Hmon Hmode Hsrc. unfold update_settings.
  rewrite Hmon, Hmode, Hsrc.
  rewrite String.eqb_refl, Z.eqb_refl, CaptureMode_eqb_refl.
  reflexivity.
Qed.

(** C9.  In every cycle, each cache lookup, each cache store and the
    translation call receive as source language the configured
    [source_language], or the fixed "eng_Latn" when that is "auto", and
    as target language the configured [target_language]. *)
Theorem effective_source_in_cycle (w : World) (p : t) :
  effective_source (settings p)
  = (if String.eqb (AppSettings.source_language (settings p)) "auto"
     then "eng_Latn"%string
     else AppSettings.source_language (settings p))
  /\ Forall (uses_languages (effective_source (settings p))
                            (AppSettings.target_language (settings p)))
            (snd (_run_cycle ext w p)).
Proof.
  split; [|apply run_cycle_events].
  unfold effective_source. now destruct (String.eqb _ _).
Qed.

(** C7.  An [update_settings] whose snapshot keeps monitor, capture
    mode and source language (so in particular one that changes the
    target language only, or only the tunables) makes no call at all on
    the capture engine or on the OCR engine, leaves the stored reference
    frame of the change detector in place, and stores the diff
    threshold, the confidence floor and the cache capacity; the cycle
    that follows uses the new target language in every cache lookup,
    cache store and translation call. *)
Theorem retarget_without_restart (w : World) (p : t) (new : AppSettings.t) :
  AppSettings.capture_monitor new
    = AppSettings.capture_monitor (settings p) ->
  AppSettings.capture_mode new = AppSettings.capture_mode (settings p) ->
  AppSettings.source_language new
    = AppSettings.source_language (settings p) ->
  let p' := snd (fst (update_settings ext p new)) in
  fst (fst (update_settings ext p new)) = Ok tt
  /\ snd (update_settings ext p new) = []
  /\ settings p' = new
  /\ capture p' = capture p
  /\ FrameDiffer._prev_frame (differ p') = FrameDiffer._prev_frame (differ p)
  /\ OCREngine._engine (ocr p') = OCREngine._engine (ocr p)
  /\ OCREngine._current_lang (ocr p') = OCREngine._current_lang (ocr p)
  /\ FrameDiffer.threshold (differ p')
     = AppSettings.frame_diff_threshold new
  /\ OCREngine.confidence_threshold (ocr p')
     = AppSettings.ocr_confidence_threshold new
  /\ TranslationCache.max_size (cache p')
     = AppSettings.max_cache_size new
  /\ Forall (uses_languages (effective_source new)
                            (AppSettings.target_language new))
            (snd (_run_cycle ext w p')).
Proof.
  intros Hmon Hmode Hsrc p'. subst p'.
  rewrite (update_settings_quiet p new Hmon Hmode Hsrc). simpl.
  repeat split.
  apply (run_cycle_events w
           (mk new (capture p)
               (FrameDiffer.set_threshold (differ p)
                  (AppSettings.frame_diff_threshold new))
               (OCREngine.set_confidence_threshold (ocr p)
                  (AppSettings.ocr_confidence_threshold new))
               (translation p)
               (TranslationCache.set_max_size (cache p)
                  (AppSettings.max_cache_size new))
               (_running p) (_last_blocks p) (_null_frame_count p))).
Qed.

(** C5 (amended).  With a non-negative capacity, [put] succeeds and
    evicts from the least-recently-used end exactly while the size
    exceeds the capacity: of the dictionary with the new entry promoted
    it keeps the most recently used entries, all of them when they fit
    and [max_size] of them otherwise, so [size <= max_size] holds
    afterwards whatever the size was before.  [get] never grows the cache
    and [clear] empties it.  [update_settings] stores the new capacity
    without removing any entry, so after a shrink the size may exceed
    the capacity until the next [put] evicts down to it. *)
Theorem cache_bound_restored_by_put
        (p : t) (new : AppSettings.t)
        (c : TranslationCache.t) (text src tgt v : string) :
  0 <= TranslationCache.max_size c ->
  (exists c',
      TranslationCache.put c text src tgt v = (Ok tt, c')
      /\ TranslationCache.max_size c' = TranslationCache.max_size c
      /\ TranslationCache.size c' <= TranslationCache.max_size c'
      /\ (exists dropped,
            TranslationCache.move_to_end
              (TranslationCache.setitem (TranslationCache._cache c)
                 (text, src, tgt) v) (text, src, tgt)
            = dropped ++ TranslationCache._cache c')
      /\ TranslationCache.size c'
         = Z.min (TranslationCache.max_size c)
                 (Z.of_nat
                    (List.length
                       (TranslationCache.move_to_end
                          (TranslationCache.setitem
                             (TranslationCache._cache c)
                             (text, src, tgt) v) (text, src, tgt)))))
  /\ TranslationCache.size (snd (TranslationCache.get c text src tgt))
     <= TranslationCache.size c
  /\ TranslationCache.size (TranslationCache.clear c) = 0
  /\ TranslationCache.max_size
       (cache (snd (fst (update_settings ext p new))))
     = AppSettings.max_cache_size new
  /\ TranslationCache._cache
       (cache (snd (fst (update_settings ext p new))))
     = TranslationCache._cache (cache p).
Proof.
  intros Hmax.
  destruct (put_bounded c text src tgt v Hmax) as [Hput Hsize].
  repeat split.
  - eexists. split; [exact Hput|]. split; [reflexivity|].
    split; [exact Hsize|]. simpl. split.
    + eexists. symmetry. apply firstn_skipn.
    + unfold TranslationCache.size. simpl. rewrite length_skipn. lia.
  - apply get_size.
  - now rewrite update_settings_cache.
  - now rewrite update_settings_cache.
Qed.

(** C2 (amended).  In a cycle in which a frame was grabbed and the
    change detector reports a change: when the field [_last_blocks] is
    not empty, the empty block set is published right after the
    detector's answer and before the OCR call, hence before style
    extraction, translation and the cycle's real publication; when
    [_last_blocks] is empty, the OCR call follows the detector's answer
    directly and nothing is published before it.  ([_last_blocks] is the
    block set a cycle stored last; [stop] publishes the empty set without
    touching the field, so it need not be the set published last.) *)
Theorem stale_overlay_cleared_before_ocr
        (w : World) (p : t) (frame : Frame) :
  CaptureEngine.grab (capture p) (backend_frame w) = Some frame ->
  fst (FrameDiffer.has_changed (gray_downsample ext) (differ p) frame)
    = Ok true ->
  _last_blocks p <> [] ->
  let geometry := capture_geometry (settings p) w in
  let grab := EvCaptureGrab (AppSettings.capture_mode (settings p))
                            (fst (fst geometry))
                            (AppSettings.capture_monitor (settings p)) in
  let ocr_call := EvOcrDetect (snd (fst geometry)) (snd geometry) in
  (exists rest,
      snd (_run_cycle ext w p)
      = grab :: EvHasChanged :: EvBlocksReady [] :: ocr_call :: rest)
  /\ (exists rest,
        snd (_run_cycle ext w (set_last_blocks p []))
        = grab :: EvHasChanged :: ocr_call :: rest).
Proof.
  intros Hgrab Hchg Hlast geometry grab ocr_call.
  subst grab ocr_call geometry.
  unfold _run_cycle. simpl settings. simpl capture. rewrite Hgrab.
  destruct (capture_geometry (settings p) w) as [[region ox] oy].
  simpl differ.
  destruct (FrameDiffer.has_changed (gray_downsample ext) (differ p) frame)
    as [changed d].
  simpl in Hchg. subst changed.
  split.
  - unfold process_changed_frame. simpl _last_blocks.
    destruct (_last_blocks p) as [|b bs] eqn:El; [congruence|].
    simpl truthy. cbv iota.
    destruct (negb (truthy _)); simpl.
    + eexists. reflexivity.
    + destruct (style_extract ext frame _) as [styled|ex]; simpl.
      * destruct (translate_blocks ext _ _) as [[r q'] ev_tr].
        destruct r; simpl; eexists; reflexivity.
      * eexists. reflexivity.
  - unfold process_changed_frame. simpl _last_blocks.
    simpl truthy. cbv iota.
    destruct (negb (truthy _)); simpl.
    + eexists. reflexivity.
    + destruct (style_extract ext frame _) as [styled|ex]; simpl.
      * destruct (translate_blocks ext _ _) as [[r q'] ev_tr].
        destruct r; simpl; eexists; reflexivity.
      * eexists. reflexivity.
Qed.

End PipelineFacts.

(** ** More on the translation cache *)

Section CacheMoreFacts.

Import TranslationCache.

Implicit Types (d : list (Key * string)) (k : Key) (v : string) (c : t).

Lemma lookup_setitem d k v : lookup (setitem d k v) k = Some v.
Proof.
  induction d as [|[k' v'] d IH]; simpl.
  - now rewrite key_eqb_refl.
  - destruct (key_eqb k' k) eqn:E; simpl; rewrite E; auto.
Qed.

Lemma lookup_setitem_other d k v k' :
  k' <> k -> lookup (setitem d k v) k' = lookup d k'.
Proof.
  intros Hne. induction d as [|[k1 v1] d IH]; simpl.
  - rewrite key_eqb_neq; auto.
  - destruct (key_eqb k1 k) eqn:E; simpl.
    + apply key_eqb_true in E. subst k1.
      rewrite !key_eqb_neq; auto.
    + destruct (key_eqb k1 k'); auto.
Qed.

Lemma keys_setitem_In d k v k' :
  In k' (keys (setitem d k v)) <-> k' = k \/ In k' (keys d).
Proof.
  induction d as [|[k1 v1] d IH]; simpl.
  - intuition.
  - destruct (key_eqb k1 k) eqn:E; simpl.
    + apply key_eqb_true in E. subst k1. intuition.
    + rewrite IH. intuition.
Qed.

Lemma setitem_NoDup d k v : NoDup (keys d) -> NoDup (keys (setitem d k v)).
Proof.
  induction d as [|[k1 v1] d IH]; simpl; intros H.
  - repeat constructor. simpl. tauto.
  - inversion H as [|? ? Hk Hd]; subst.
    destruct (key_eqb k1 k) eqn:E; simpl.
    + constructor; auto.
    + constructor; auto. rewrite keys_setitem_In.
      intros [->|Hin]; [|tauto].
      now rewrite key_eqb_refl in E.
Qed.

Lemma lookup_Some_In d k v : lookup d k = Some v -> In (k, v) d.
Proof.
  induction d as [|[k' v'] d IH]; simpl; [discriminate|].
  destruct (key_eqb k' k) eqn:E.
  - apply key_eqb_true in E. subst. intros H. inversion H. now left.
  - auto.
Qed.

Lemma lookup_remove_key_other d k k' :
  k' <> k -> lookup (remove_key d k) k' = lookup d k'.
Proof.
  intros Hne. induction d as [|[k1 v1] d IH]; simpl; auto.
  destruct (key_eqb k1 k) eqn:E; simpl.
  - apply key_eqb_true in E. subst k1. rewrite key_eqb_neq; auto.
  - destruct (key_eqb k1 k'); auto.
Qed.

Lemma lookup_app d d' k :
  lookup (d ++ d') k
  = match lookup d k with Some v => Some v | None => lookup d' k end.
Proof.
  induction d as [|[k1 v1] d IH]; simpl; auto.
  destruct (key_eqb k1 k); auto.
Qed.

Lemma move_to_end_NoDup d k : NoDup (keys d) -> NoDup (keys (move_to_end d k)).
Proof.
  intros H. unfold move_to_end.
  destruct (lookup d k) as [v|]; auto.
  rewrite keys_app. simpl.
  apply NoDup_app; [now apply remove_key_NoDup|repeat constructor; simpl; tauto|].
  intros x Hx [<-|[]]. now apply remove_key_absent in Hx.
Qed.

Lemma lookup_move_to_end_other d k k' :
  k' <> k -> lookup (move_to_end d k) k' = lookup d k'.
Proof.
  intros Hne. unfold move_to_end.
  destruct (lookup d k) as [v|]; auto.
  rewrite lookup_app, lookup_remove_key_other by assumption.
  destruct (lookup d k'); auto.
  simpl. rewrite key_eqb_neq; auto.
Qed.

Lemma skipn_NoDup {A} (m : nat) (l : list A) : NoDup l -> NoDup (skipn m l).
Proof.
  intros H. rewrite <- (firstn_skipn m l) in H.
  now apply NoDup_app_remove_l in H.
Qed.

Lemma In_skipn {A} (m : nat) (l : list A) (a : A) :
  In a (skipn m l) -> In a l.
Proof.
  intros H. rewrite <- (firstn_skipn m l). apply in_or_app. now right.
Qed.

(** The three operations keep the keys of the dictionary distinct. *)
Lemma wf_init (n : Z) : wf (init n).
Proof. constructor. Qed.

Lemma wf_get c text src tgt : wf c -> wf (snd (get c text src tgt)).
Proof.
  unfold wf, get. intros H.
  destruct (contains _ _); simpl; auto using move_to_end_NoDup.
Qed.

Lemma put_cache c text src tgt v :
  0 <= max_size c ->
  _cache (snd (put c text src tgt v))
  = skipn (List.length
             (move_to_end (setitem (_cache c) (text, src, tgt) v)
                          (text, src, tgt))
           - Z.to_nat (max_size c))
          (move_to_end (setitem (_cache c) (text, src, tgt) v)
                       (text, src, tgt)).
Proof.
  intros H. destruct (put_bounded c text src tgt v H) as [E _].
  rewrite E. reflexivity.
Qed.

Lemma wf_put c text src tgt v :
  0 <= max_size c -> wf c -> wf (snd (put c text src tgt v)).
Proof.
  intros Hm H. unfold wf. rewrite put_cache by assumption.
  rewrite keys_skipn. apply skipn_NoDup.
  now apply move_to_end_NoDup, setitem_NoDup.
Qed.

Lemma put_cache_last c text src tgt v :
  1 <= max_size c ->
  exists d,
    _cache (snd (put c text src tgt v)) = d ++ [((text, src, tgt), v)]
    /\ ~ In (text, src, tgt) (keys d).
Proof.
  intros Hm. rewrite put_cache by lia.
  set (k := (text, src, tgt)).
  unfold move_to_end. rewrite lookup_setitem.
  set (r := remove_key (setitem (_cache c) k v) k).
  assert (Hr : ~ In k (keys r)) by apply remove_key_absent.
  rewrite length_app. simpl List.length.
  set (m := (List.length r + 1 - Z.to_nat (max_size c))%nat).
  assert (Hm' : (m <= List.length r)%nat) by (unfold m; lia).
  exists (skipn m r). split.
  - rewrite skipn_app.
    replace (m - List.length r)%nat with 0%nat by lia. reflexivity.
  - rewrite keys_skipn. intros Hin. apply Hr. eapply In_skipn; eauto.
Qed.

Lemma get_of_last c d text src tgt v :
  _cache c = d ++ [((text, src, tgt), v)] ->
  ~ In (text, src, tgt) (keys d) ->
  fst (get c text src tgt) = Some v.
Proof.
  intros E Hd. unfold get. rewrite E.
  assert (Hc : contains (d ++ [((text, src, tgt), v)]) (text, src, tgt)
               = true).
  { apply contains_In. rewrite keys_app. apply in_or_app. right. now left. }
  rewrite Hc. simpl fst.
  rewrite move_to_end_last by assumption.
  now apply lookup_app_last.
Qed.

(** X1.  Insert then look up: with a capacity of at least 1, [put]
    succeeds whatever the cache held, and a [get] of the same key right
    after it returns the translation just stored. *)
Theorem put_then_get (c : t) (text src tgt v : string) :
  1 <= max_size c ->
  fst (put c text src tgt v) = Ok tt
  /\ fst (get (snd (put c text src tgt v)) text src tgt) = Some v.
Proof.
  intros Hm.
  assert (H0 : 0 <= max_size c) by lia.
  destruct (put_bounded c text src tgt v H0) as [E _].
  split; [now rewrite E|].
  destruct (put_cache_last c text src tgt v Hm) as (d & Hd & Hk).
  eapply get_of_last; eauto.
Qed.

(** X2.  [put] never alters the translation of another key: after a
    successful [put] on a well-formed cache, any other key either has the
    translation it had before or is no longer cached (it was evicted). *)
Theorem put_keeps_other_keys (c : t) (text src tgt v : string) (k' : Key) :
  0 <= max_size c ->
  wf c ->
  k' <> (text, src, tgt) ->
  lookup (_cache (snd (put c text src tgt v))) k' = lookup (_cache c) k'
  \/ lookup (_cache (snd (put c text src tgt v))) k' = None.
Proof.
  intros Hm Hwf Hne.
  rewrite put_cache by assumption.
  set (k := (text, src, tgt)) in *.
  set (d2 := move_to_end (setitem (_cache c) k v) k).
  assert (Hnd : NoDup (keys d2))
    by now apply move_to_end_NoDup, setitem_NoDup.
  assert (Hl : lookup d2 k' = lookup (_cache c) k').
  { unfold d2. rewrite lookup_move_to_end_other by assumption.
    now apply lookup_setitem_other. }
  set (m := (List.length d2 - Z.to_nat (max_size c))%nat).
  destruct (lookup (skipn m d2) k') as [v'|] eqn:E; [left|now right].
  apply lookup_Some_In in E. apply In_skipn in E.
  rewrite <- Hl. symmetry. now apply lookup_In.
Qed.

(** X3.  A capacity of zero or less never retains anything: after [put]
    the cache is empty.  With capacity 0 the [put] still succeeds; with a
    negative capacity it raises [KeyError] (the eviction loop pops from
    the emptied dictionary). *)
Theorem put_without_capacity (c : t) (text src tgt v : string) :
  max_size c <= 0 ->
  _cache (snd (put c text src tgt v)) = []
  /\ fst (put c text src tgt v)
     = (if max_size c <? 0 then Raise KeyError else Ok tt).
Proof.
  intros Hm. unfold put.
  set (d := move_to_end _ _).
  destruct (Z.ltb_spec (max_size c) 0) as [E|E].
  - rewrite evict_negative by lia. split; reflexivity.
  - replace (max_size c) with (Z.of_nat 0) by lia. rewrite evict_skipn.
    rewrite Nat.sub_0_r, skipn_all. split; reflexivity.
Qed.

(** X4.  Putting a key that is not cached yet: below capacity the entry
    is appended and nothing is evicted; at capacity exactly the oldest
    entry (the head) is dropped and every other entry stays, in order. *)
Theorem put_new_key_evicts_head
        (c : t) (text src tgt v : string) :
  wf c ->
  ~ In (text, src, tgt) (keys (_cache c)) ->
  1 <= max_size c ->
  size c <= max_size c ->
  _cache (snd (put c text src tgt v))
  = if size c <? max_size c
    then _cache c ++ [((text, src, tgt), v)]
    else tl (_cache c) ++ [((text, src, tgt), v)].
Proof.
  intros Hwf Hnew Hm Hsz. unfold size in *.
  rewrite (put_new (Z.to_nat (max_size c))) by (auto; lia).
  simpl _cache.
  destruct (Z.ltb_spec (Z.of_nat (List.length (_cache c))) (max_size c)).
  - replace (List.length (_cache c) + 1 - Z.to_nat (max_size c))%nat
      with 0%nat by lia.
    reflexivity.
  - replace (List.length (_cache c) + 1 - Z.to_nat (max_size c))%nat
      with 1%nat by lia.
    destruct (_cache c); [simpl in *; lia|reflexivity].
Qed.

(** X5.  A lookup never adds, drops or alters an entry: after [get] the
    cache holds the same entries, possibly in another order, with the same
    capacity. *)
Theorem get_keeps_entries (c : t) (text src tgt : string) :
  wf c ->
  Permutation (_cache (snd (get c text src tgt))) (_cache c)
  /\ max_size (snd (get c text src tgt)) = max_size c.
Proof.
  intros Hwf. split; [|apply get_size].
  unfold get. destruct (contains (_cache c) (text, src, tgt)) eqn:E;
    simpl; [|reflexivity].
  unfold move_to_end.
  destruct (lookup (_cache c) (text, src, tgt)) as [v|] eqn:El;
    [|reflexivity].
  apply lookup_Some_In in El. unfold wf in Hwf.
  set (k := (text, src, tgt)) in *.
  induction (_cache c) as [|[k1 v1] d IH]; [contradiction|].
  simpl in Hwf. inversion Hwf as [|? ? Hk1 Hd]; subst.
  simpl. destruct El as [Heq|Hin].
  - inversion Heq; subst k1 v1. rewrite key_eqb_refl. simpl.
    rewrite remove_key_notin by assumption.
    symmetry. apply Permutation_cons_append.
  - assert (Hne : k1 <> k).
    { intros ->. apply Hk1. eauto using In_keys. }
    rewrite key_eqb_neq by assumption. simpl.
    constructor. apply IH; auto.
    apply contains_In. eauto using In_keys.
Qed.

End CacheMoreFacts.

(** ** More on the change detector *)

Section DifferMoreFacts.

Import FrameDiffer.

Variable gray_downsample : Z -> Frame -> Result Gray.

Lemma last_cons {A} (l : list A) :
  forall a d, last (a :: l) d = last l a.
Proof.
  induction l as [|b l IH]; intros a d; [reflexivity|].
  change (last (a :: b :: l) d) with (last (b :: l) d).
  now rewrite !IH.
Qed.

Lemma feed_drift (th : Q) (dw : Z) :
  forall (frames : list Frame) (grays : list Gray) (prev : Gray),
    Forall2 (fun f g => gray_downsample dw f = Ok g) frames grays ->
    FrameStream.drifts_slowly th prev grays = true ->
    FrameStream.feed gray_downsample (mk th dw (Some prev)) frames
    = (map (fun _ => Ok false) frames, mk th dw (Some (last grays prev))).
Proof.
  induction frames as [|f frames IH]; intros grays prev Hconv Hdrift.
  - inversion Hconv; subst. reflexivity.
  - inversion Hconv as [|? g ? grays' Hg Hrest]; subst.
    rewrite last_cons. simpl in Hdrift.
    apply andb_true_iff in Hdrift. destruct Hdrift as [Hd Hdrift].
    apply andb_true_iff in Hd. destruct Hd as [Hshape Hexc].
    simpl FrameStream.feed. unfold has_changed at 1. simpl.
    rewrite Hg, Hshape. simpl.
    apply negb_true_iff in Hexc. rewrite Hexc.
    unfold set_prev. simpl.
    now rewrite (IH grays' g Hrest Hdrift).
Qed.

(** X6.  The reference slides: when every frame of a run differs from the
    frame just before it by no more than the threshold (same shape), a
    fresh detector answers "changed" for the first frame and "unchanged"
    for every later one, however far the run has moved away from its
    first frame; the reference it ends with is the last frame. *)
Theorem slow_drift_is_never_reported
        (th : Q) (dw : Z) (f0 : Frame) (frames : list Frame)
        (g0 : Gray) (grays : list Gray) :
  gray_downsample dw f0 = Ok g0 ->
  Forall2 (fun f g => gray_downsample dw f = Ok g) frames grays ->
  FrameStream.drifts_slowly th g0 grays = true ->
  FrameStream.feed gray_downsample (init th dw) (f0 :: frames)
  = (Ok true :: map (fun _ => Ok false) frames,
     mk th dw (Some (last grays g0))).
Proof.
  intros Hg0 Hconv Hdrift.
  simpl FrameStream.feed. unfold has_changed at 1. simpl. rewrite Hg0.
  unfold set_prev. simpl.
  now rewrite (feed_drift th dw frames grays g0 Hconv Hdrift).
Qed.

End DifferMoreFacts.

(** ** More on the OCR stage *)

Section OcrMoreFacts.

Import OCREngine Geometry.

Variable flores_to_bcp47 : string -> option string.
Variable is_language_supported : string -> Result bool.
Variable try_create_from_language : string -> bool.
Variable try_create_from_user_profile_languages : bool.
Variable recognize : Frame -> Result (list Line).
Variable strip : string -> string.
Variable punctuation_only : string -> bool.

(** *** Sorting *)

Lemma insert_by_y_In (b c : TextBlock.t) (l : list TextBlock.t) :
  In c (insert_by_y b l) <-> c = b \/ In c l.
Proof.
  induction l as [|a l IH]; simpl; [intuition|].
  destruct (TextBlock.y b <=? TextBlock.y a); simpl; [intuition|].
  rewrite IH. intuition.
Qed.

Lemma insert_by_y_sorted (b : TextBlock.t) (l : list TextBlock.t) :
  StronglySorted above l -> StronglySorted above (insert_by_y b l).
Proof.
  induction l as [|a l IH]; simpl; intros H.
  - repeat constructor.
  - inversion H as [|? ? Hl Ha]; subst.
    destruct (Z.leb_spec (TextBlock.y b) (TextBlock.y a)).
    + constructor; auto. constructor; auto.
      eapply Forall_impl; [|exact Ha]. unfold above. intros; lia.
    + constructor; auto.
      apply Forall_forall. intros c Hc.
      apply insert_by_y_In in Hc. destruct Hc as [->|Hc].
      * unfold above. lia.
      * rewrite Forall_forall in Ha. auto.
Qed.

Lemma sort_by_y_sorted (l : list TextBlock.t) :
  StronglySorted above (sort_by_y l).
Proof.
  induction l as [|b l IH]; simpl; [constructor|].
  now apply insert_by_y_sorted.
Qed.

Lemma sort_by_y_In (l : list TextBlock.t) (c : TextBlock.t) :
  In c (sort_by_y l) <-> In c l.
Proof.
  induction l as [|b l IH]; simpl; [tauto|].
  rewrite insert_by_y_In, IH. intuition.
Qed.

(** *** Moving the blocks *)

Lemma insert_by_y_shift (dx dy : Z) (b : TextBlock.t) (l : list TextBlock.t) :
  insert_by_y (shift_block dx dy b) (map (shift_block dx dy) l)
  = map (shift_block dx dy) (insert_by_y b l).
Proof.
  induction l as [|a l IH]; simpl; [reflexivity|].
  destruct (Z.leb_spec (TextBlock.y b) (TextBlock.y a));
    destruct (Z.leb_spec (TextBlock.y b + dy) (TextBlock.y a + dy));
    try lia; simpl; [reflexivity|].
  now rewrite IH.
Qed.

Lemma sort_by_y_shift (dx dy : Z) (l : list TextBlock.t) :
  sort_by_y (map (shift_block dx dy) l)
  = map (shift_block dx dy) (sort_by_y l).
Proof.
  induction l as [|b l IH]; simpl; [reflexivity|].
  now rewrite IH, insert_by_y_shift.
Qed.

Lemma same_paragraph_shift (dx dy : Z) (a b : TextBlock.t) :
  same_paragraph (shift_block dx dy a) (shift_block dx dy b)
  = same_paragraph a b.
Proof.
  unfold same_paragraph. simpl.
  replace (TextBlock.y b + dy - (TextBlock.y a + dy + TextBlock.height a))
    with (TextBlock.y b - (TextBlock.y a + TextBlock.height a)) by lia.
  replace (TextBlock.x b + dx - (TextBlock.x a + dx))
    with (TextBlock.x b - TextBlock.x a) by lia.
  reflexivity.
Qed.

Lemma merge_pair_shift (dx dy : Z) (a b : TextBlock.t) :
  merge_pair (shift_block dx dy a) (shift_block dx dy b)
  = shift_block dx dy (merge_pair a b).
Proof.
  unfold merge_pair, shift_block, TextBlock.new. simpl.
  f_equal; lia.
Qed.

Lemma merge_loop_shift (dx dy : Z) (rest : list TextBlock.t) :
  forall merged current,
    merge_loop (map (shift_block dx dy) merged) (shift_block dx dy current)
               (map (shift_block dx dy) rest)
    = map (shift_block dx dy) (merge_loop merged current rest).
Proof.
  induction rest as [|nb rest IH]; intros merged current; simpl.
  - now rewrite map_app.
  - rewrite same_paragraph_shift.
    destruct (same_paragraph current nb).
    + rewrite merge_pair_shift. apply IH.
    + rewrite <- IH. now rewrite map_app.
Qed.

Lemma merge_paragraph_lines_shift (dx dy : Z) (blocks : list TextBlock.t) :
  _merge_paragraph_lines (map (shift_block dx dy) blocks)
  = map (shift_block dx dy) (_merge_paragraph_lines blocks).
Proof.
  unfold _merge_paragraph_lines. rewrite length_map.
  destruct (Z.of_nat (List.length blocks) <=? 1); [reflexivity|].
  rewrite sort_by_y_shift.
  destruct (sort_by_y blocks) as [|current rest]; [reflexivity|].
  simpl map. apply (merge_loop_shift dx dy rest []).
Qed.

Lemma blocks_of_lines_shift (ox oy : Z) (lines : list Line) :
  blocks_of_lines strip punctuation_only ox oy lines
  = map (shift_block ox oy)
        (blocks_of_lines strip punctuation_only 0 0 lines).
Proof.
  induction lines as [|ln lines IH]; simpl; [reflexivity|].
  destruct ln as [[[[text x] y] w] h]. unfold block_of_line.
  destruct (_ || _); [exact IH|].
  destruct (punctuation_only _); [exact IH|].
  destruct (_ || _); [exact IH|].
  simpl. rewrite IH. f_equal.
  unfold shift_block, TextBlock.new. simpl.
  now rewrite !Z.add_0_r.
Qed.

(** X7.  The capture offset only moves the result: detecting with the
    offset [(ox, oy)] gives exactly the blocks detected with offset
    [(0, 0)], each moved by [(ox, oy)]; which lines are merged into
    paragraphs does not depend on where the captured region lies on the
    screen. *)
Theorem detect_offset_moves_blocks
        (o : t) (frame : Frame) (ox oy : Z) :
  detect recognize strip punctuation_only o frame ox oy
  = map (shift_block ox oy)
        (detect recognize strip punctuation_only o frame 0 0).
Proof.
  unfold detect.
  destruct (negb (_engine o) || negb (_loop o)); [reflexivity|].
  destruct (recognize frame) as [lines|e]; [|reflexivity].
  rewrite (blocks_of_lines_shift ox oy).
  apply merge_paragraph_lines_shift.
Qed.

(** *** What the blocks look like *)

Lemma block_of_line_fresh (ox oy : Z) (ln : Line) (b : TextBlock.t) :
  block_of_line strip punctuation_only ox oy ln = Some b -> fresh_block b.
Proof.
  destruct ln as [[[[text x] y] w] h]. unfold block_of_line.
  destruct (String.eqb (strip text) "" || _) eqn:E1; [discriminate|].
  destruct (punctuation_only _); [discriminate|].
  destruct (Z.ltb_spec w 5); [discriminate|].
  destruct (Z.ltb_spec h 5); [discriminate|].
  simpl. intros E. inversion E; subst; clear E.
  apply orb_false_iff in E1. destruct E1 as [_ E1].
  unfold fresh_block, font_size_of_height, MIN_TEXT_LENGTH in *. simpl.
  destruct (Z.ltb_spec (Z.of_nat (len (strip text))) 5);
    [discriminate|].
  repeat split; auto; lia.
Qed.

Lemma blocks_of_lines_fresh (ox oy : Z) (lines : list Line) :
  Forall fresh_block (blocks_of_lines strip punctuation_only ox oy lines).
Proof.
  induction lines as [|ln lines IH]; simpl; [constructor|].
  destruct (block_of_line strip punctuation_only ox oy ln) as [b|] eqn:E;
    auto.
  constructor; auto. eapply block_of_line_fresh; eauto.
Qed.

Lemma len_append (a b : string) :
  len (a ++ b) = (len a + len b)%nat.
Proof.
  induction a as [|ch a IH]; simpl; [reflexivity|].
  rewrite IH. now destruct (continuation_byte ch).
Qed.

Lemma merge_pair_fresh (a b : TextBlock.t) :
  fresh_block a -> fresh_block b -> above a b ->
  fresh_block (merge_pair a b).
Proof.
  unfold fresh_block, above, merge_pair. simpl.
  intros (Hw & Hh & Hf & Ht & _) (Hw' & Hh' & Hf' & Ht' & _) Hy.
  rewrite !len_append.
  repeat split; auto; lia.
Qed.

Lemma merge_loop_fresh (rest : list TextBlock.t) :
  forall merged current,
    Forall fresh_block merged ->
    Forall fresh_block (current :: rest) ->
    StronglySorted above (current :: rest) ->
    Forall fresh_block (merge_loop merged current rest).
Proof.
  induction rest as [|nb rest IH]; intros merged current Hm Hall Hs; simpl.
  - apply Forall_app. split; auto.
  - inversion Hall as [|? ? Hc Hr]; subst.
    inversion Hr as [|? ? Hnb Hrest]; subst.
    inversion Hs as [|? ? Hs' Hab]; subst.
    inversion Hab as [|? ? Hcn Hcr]; subst.
    inversion Hs' as [|? ? Hs'' Hnr]; subst.
    destruct (same_paragraph current nb).
    + apply IH; auto.
      * constructor; auto. now apply merge_pair_fresh.
      * constructor; auto.
    + apply IH; auto.
      apply Forall_app. split; auto.
Qed.

Lemma merge_paragraph_lines_fresh (blocks : list TextBlock.t) :
  Forall fresh_block blocks ->
  Forall fresh_block (_merge_paragraph_lines blocks).
Proof.
  intros H. unfold _merge_paragraph_lines.
  destruct (Z.of_nat (List.length blocks) <=? 1); auto.
  pose proof (sort_by_y_sorted blocks) as Hs.
  assert (Hf : Forall fresh_block (sort_by_y blocks)).
  { apply Forall_forall. intros c Hc.
    apply (proj1 (sort_by_y_In _ _)) in Hc.
    exact (proj1 (Forall_forall _ _) H c Hc). }
  destruct (sort_by_y blocks) as [|current rest]; [constructor|].
  apply merge_loop_fresh; auto.
Qed.

(** X8.  Every block that [detect] returns, merged paragraphs included,
    is at least 5 by 5 pixels, has a font size of at least 8, a text of at
    least 5 characters ([len], which counts code points and not bytes),
    and carries no translation and no colours yet. *)
Theorem detect_returns_fresh_blocks
        (o : t) (frame : Frame) (ox oy : Z) :
  Forall fresh_block (detect recognize strip punctuation_only o frame ox oy).
Proof.
  unfold detect.
  destruct (negb (_engine o) || negb (_loop o)); [constructor|].
  destruct (recognize frame) as [lines|e]; [|constructor].
  apply merge_paragraph_lines_fresh, blocks_of_lines_fresh.
Qed.

(** *** What the paragraphs say *)

Lemma string_append_assoc (a b c : string) :
  ((a ++ b) ++ c)%string = (a ++ (b ++ c))%string.
Proof. induction a as [|ch a IH]; simpl; [reflexivity|now rewrite IH]. Qed.

Lemma concat_cons (sep x : string) (l : list string) :
  l <> [] ->
  String.concat sep (x :: l) = (x ++ sep ++ String.concat sep l)%string.
Proof. destruct l; [congruence|reflexivity]. Qed.

Lemma concat_joined (l1 l2 : list string) (a b : string) :
  String.concat " " (l1 ++ (a ++ " " ++ b)%string :: l2)
  = String.concat " " (l1 ++ a :: b :: l2).
Proof.
  induction l1 as [|x l1 IH].
  - rewrite !app_nil_l.
    rewrite (concat_cons " " a (b :: l2)) by discriminate.
    destruct l2 as [|c l2]; [reflexivity|].
    rewrite !concat_cons by discriminate.
    now rewrite !string_append_assoc.
  - rewrite <- !app_comm_cons.
    rewrite !concat_cons by (destruct l1; discriminate).
    now rewrite IH.
Qed.

Lemma merge_loop_texts (rest : list TextBlock.t) :
  forall merged current,
    String.concat " " (map TextBlock.text (merge_loop merged current rest))
    = String.concat " "
        (map TextBlock.text (merged ++ current :: rest)).
Proof.
  induction rest as [|nb rest IH]; intros merged current; simpl merge_loop.
  - reflexivity.
  - destruct (same_paragraph current nb).
    + rewrite IH, !map_app. simpl map. apply concat_joined.
    + rewrite IH, <- app_assoc. reflexivity.
Qed.

(** X9.  Merging loses, repeats and reorders nothing: the texts of the
    returned paragraphs, joined by single blanks, spell exactly the texts
    of the input lines taken from top to bottom. *)
Theorem merge_keeps_the_text (blocks : list TextBlock.t) :
  String.concat " " (map TextBlock.text (_merge_paragraph_lines blocks))
  = String.concat " " (map TextBlock.text (sort_by_y blocks)).
Proof.
  unfold _merge_paragraph_lines.
  destruct (Z.leb_spec (Z.of_nat (List.length blocks)) 1) as [H|H].
  - destruct blocks as [|b [|b' blocks]]; simpl in *; try reflexivity; lia.
  - destruct (sort_by_y blocks) as [|current rest]; [reflexivity|].
    apply (merge_loop_texts rest []).
Qed.

(** *** Switching the language *)

(** X10.  A failed language switch sticks: when [set_language] raises
    (no engine could be created), the engine is gone but the requested
    language is already recorded as current, so asking for the same
    language again does nothing and succeeds, and every later [detect]
    returns no block. *)
Theorem failed_language_switch_sticks
        (o o' : t) (flores_code : string) (e : exn)
        (frame : Frame) (ox oy : Z) :
  set_language flores_to_bcp47 is_language_supported
    try_create_from_language try_create_from_user_profile_languages
    o flores_code = (Raise e, o') ->
  set_language flores_to_bcp47 is_language_supported
    try_create_from_language try_create_from_user_profile_languages
    o' flores_code = (Ok tt, o')
  /\ _engine o' = false
  /\ detect recognize strip punctuation_only o' frame ox oy = [].
Proof.
  unfold set_language.
  set (bcp47 := match flores_to_bcp47 flores_code with
                | Some b => b
                | None => "en"%string
                end).
  intros H.
  assert (Hc : _create_engine is_language_supported
                 try_create_from_language
                 try_create_from_user_profile_languages o bcp47
               = (Raise e, o')).
  { destruct (_current_lang o) as [cur|]; [|exact H].
    destruct (String.eqb bcp47 cur); [discriminate|exact H]. }
  clear H. unfold _create_engine in Hc.
  assert (Ho' : _current_lang o' = Some bcp47 /\ _engine o' = false).
  { destruct (is_language_supported bcp47) as [[|]|ex];
      try discriminate;
      destruct try_create_from_user_profile_languages; try discriminate;
      inversion Hc; subst; split; reflexivity. }
  destruct Ho' as [Hl He].
  rewrite Hl, String.eqb_refl. repeat split; auto.
  unfold detect. now rewrite He.
Qed.

End OcrMoreFacts.

(** ** More on the style sampler *)

Section StyleMoreFacts.

Import StyleExtractor BlockRel.

Variable kmeans2 : list BGR -> Result (QColor * QColor).
Variable linalg_norm_diff : QColor -> QColor -> Q.

(** X11.  [extract] only ever writes the two colours: it returns as many
    blocks as it was given, each with the position, size, text,
    translation, confidence and font size it came with, and with its
    colours either untouched or both set. *)
Theorem extract_only_sets_colors
        (frame : Frame) (blocks : list TextBlock.t) :
  exists out,
    extract kmeans2 linalg_norm_diff frame blocks = Ok out
    /\ Forall2 (fun b b' => same_but_colors b b'
                            /\ colors_kept_or_both_set b b') blocks out.
Proof.
  exists (map (sampled kmeans2 linalg_norm_diff frame) blocks).
  split; [apply extract_map|].
  induction blocks as [|b blocks IH]; simpl; constructor; auto.
  unfold sampled.
  destruct (sample_block kmeans2 linalg_norm_diff frame b) as [[|bg fg]|e];
    unfold same_but_colors, colors_kept_or_both_set; simpl;
    repeat split; eauto.
Qed.

(** X12.  Only batches of two pixels or more reach k-means: two k-means
    procedures that agree on every list of at least two pixels give the
    same result of [extract], whatever they do (raise, for instance) on
    shorter lists. *)
Theorem kmeans_needs_two_pixels
        (kmeans2' : list BGR -> Result (QColor * QColor))
        (frame : Frame) (blocks : list TextBlock.t) :
  (forall px, (2 <= List.length px)%nat -> kmeans2 px = kmeans2' px) ->
  extract kmeans2 linalg_norm_diff frame blocks
  = extract kmeans2' linalg_norm_diff frame blocks.
Proof.
  intros Hagree. rewrite !extract_map. f_equal.
  apply map_ext. intros b. unfold sampled.
  assert (E : sample_block kmeans2 linalg_norm_diff frame b
              = sample_block kmeans2' linalg_norm_diff frame b).
  { unfold sample_block.
    destruct (_ || _); [reflexivity|].
    destruct (array_size _ =? 0); [reflexivity|].
    match goal with
    | |- context [Z.of_nat (List.length ?px) <? 2] =>
        destruct (Z.ltb_spec (Z.of_nat (List.length px)) 2);
        [reflexivity|rewrite (Hagree px) by lia; reflexivity]
    end. }
  now rewrite E.
Qed.

(** X13.  A frame without pixels: when the frame has height 0 or width 0
    every block is skipped, so [extract] returns the blocks as they
    are. *)
Theorem extract_on_empty_frame (frame : Frame) (blocks : list TextBlock.t) :
  f_height frame = 0%nat \/ f_width frame = 0%nat ->
  extract kmeans2 linalg_norm_diff frame blocks = Ok blocks.
Proof.
  intros Hempty. rewrite extract_map. f_equal.
  rewrite <- (map_id blocks) at 2. apply map_ext. intros b.
  unfold sampled, sample_block.
  match goal with
  | |- context [(?a <=? ?b) || (?c <=? ?d)] =>
      destruct (Z.leb_spec a b); destruct (Z.leb_spec c d);
      simpl; try reflexivity
  end.
  exfalso. destruct Hempty as [Hz|Hz]; rewrite Hz in *; simpl in *; lia.
Qed.

(** *** The background colour *)

Lemma insert_sorted_In (v u : Z) (l : list Z) :
  In u (insert_sorted v l) <-> u = v \/ In u l.
Proof.
  induction l as [|a l IH]; simpl; [intuition|].
  destruct (v <=? a); simpl; [intuition|].
  rewrite IH. intuition.
Qed.

Lemma sort_values_In (l : list Z) (u : Z) :
  In u (sort_values l) <-> In u l.
Proof.
  induction l as [|a l IH]; simpl; [tauto|].
  rewrite insert_sorted_In, IH. intuition.
Qed.

Lemma insert_sorted_length (v : Z) (l : list Z) :
  List.length (insert_sorted v l) = S (List.length l).
Proof.
  induction l as [|a l IH]; simpl; [reflexivity|].
  destruct (v <=? a); simpl; auto.
Qed.

Lemma sort_values_length (l : list Z) :
  List.length (sort_values l) = List.length l.
Proof.
  induction l as [|a l IH]; simpl; [reflexivity|].
  now rewrite insert_sorted_length, IH.
Qed.

(** A median lies between any two bounds of the samples. *)
Lemma median_between (lo hi : Z) (l : list Z) :
  l <> [] ->
  Forall (fun v => lo <= v <= hi) l ->
  lo <= int_of_Q (median l) <= hi.
Proof.
  intros Hne Hall.
  assert (Hnth : forall i, (i < List.length (sort_values l))%nat ->
                           lo <= nth i (sort_values l) 0 <= hi).
  { intros i Hi.
    assert (Hin : In (nth i (sort_values l) 0) (sort_values l))
      by now apply nth_In.
    apply (proj1 (sort_values_In _ _)) in Hin.
    exact (proj1 (Forall_forall _ _) Hall _ Hin). }
  assert (Hlen : (0 < List.length (sort_values l))%nat).
  { rewrite sort_values_length. destruct l; [congruence|simpl; lia]. }
  unfold median.
  set (s := sort_values l) in *. set (n := List.length s) in *.
  destruct (Nat.even n) eqn:Ev.
  - assert (Hn2 : (2 <= n)%nat).
    { destruct n as [|[|n']]; [lia|discriminate|lia]. }
    assert (n / 2 < n)%nat by (apply Nat.div_lt; lia).
    assert (1 <= n / 2)%nat.
    { change 1%nat with (2 / 2)%nat. apply Nat.Div0.div_le_mono. lia. }
    pose proof (Hnth (n / 2 - 1)%nat ltac:(lia)) as H1.
    pose proof (Hnth (n / 2)%nat ltac:(lia)) as H2.
    unfold int_of_Q. cbn [Qnum Qden].
    set (a := nth (n / 2 - 1) s 0) in *. set (b := nth (n / 2) s 0) in *.
    clearbody a b. clear - H1 H2.
    Z.quot_rem_to_equations. lia.
  - pose proof (Hnth (n / 2)%nat
                  ltac:(apply Nat.div_lt; lia)) as H1.
    unfold int_of_Q, inject_Z. cbn [Qnum Qden].
    rewrite Z.quot_1_r. exact H1.
Qed.

Lemma slice2_pixels (P : BGR -> Prop) (img : Frame) (r1 r2 c1 c2 : Z) :
  (forall r c, P (f_pixel img r c)) ->
  forall r c, P (f_pixel (slice2 img r1 r2 c1 c2) r c).
Proof. intros H r c. unfold slice2. simpl. apply H. Qed.

Lemma reshape_pixels_all (P : BGR -> Prop) (img : Frame) :
  (forall r c, P (f_pixel img r c)) -> Forall P (reshape_pixels img).
Proof.
  intros H. unfold reshape_pixels. apply Forall_flat_map.
  apply Forall_forall. intros r _. apply Forall_map.
  apply Forall_forall. intros c _. apply H.
Qed.

Lemma border_strips_all (P : BGR -> Prop) (roi : Frame) (strip : Z) :
  (forall r c, P (f_pixel roi r c)) ->
  Forall P (List.concat (border_strips roi strip)).
Proof.
  intros H. apply Forall_concat. unfold border_strips.
  apply Forall_app. split.
  - destruct (strip <? _); repeat constructor;
      apply reshape_pixels_all, slice2_pixels, H.
  - destruct (strip <? _); repeat constructor;
      apply reshape_pixels_all, slice2_pixels, H.
Qed.

Lemma slice2_exact_height (img : Frame) (r1 r2 c1 c2 : Z) :
  0 <= r1 <= r2 -> r2 <= Z.of_nat (f_height img) ->
  Z.of_nat (f_height (slice2 img r1 r2 c1 c2)) = r2 - r1.
Proof.
  intros H1 H2. unfold slice2, slice_bound. simpl.
  destruct (Z.ltb_spec r1 0), (Z.ltb_spec r2 0); lia.
Qed.

Lemma slice2_exact_width (img : Frame) (r1 r2 c1 c2 : Z) :
  0 <= c1 <= c2 -> c2 <= Z.of_nat (f_width img) ->
  Z.of_nat (f_width (slice2 img r1 r2 c1 c2)) = c2 - c1.
Proof.
  intros H1 H2. unfold slice2, slice_bound. simpl.
  destruct (Z.ltb_spec c1 0), (Z.ltb_spec c2 0); lia.
Qed.

(** With at least one strip taken from a region that has pixels, the
    border sample is not empty. *)
Lemma border_strips_nonempty (roi : Frame) (strip : Z) :
  0 < strip ->
  (0 < f_height roi)%nat -> (0 < f_width roi)%nat ->
  border_strips roi strip <> [] ->
  List.concat (border_strips roi strip) <> [].
Proof.
  intros Hs Hh Hw Hne. unfold border_strips in *.
  set (roi_h := Z.of_nat (f_height roi)) in *.
  set (roi_w := Z.of_nat (f_width roi)) in *.
  assert (Hlen : forall img l,
             (0 < f_height img)%nat -> (0 < f_width img)%nat ->
             reshape_pixels img ++ l <> []).
  { intros img l H1 H2 E. apply (f_equal (@List.length BGR)) in E.
    rewrite length_app, reshape_pixels_length in E. simpl in E. nia. }
  destruct (Z.ltb_spec strip roi_h) as [H1|H1].
  - simpl. apply Hlen.
    + pose proof (slice2_exact_height roi 0 strip 0 roi_w) as E.
      fold roi_h in E. lia.
    + pose proof (slice2_exact_width roi 0 strip 0 roi_w) as E.
      fold roi_w in E. lia.
  - destruct (Z.ltb_spec strip roi_w) as [H2|H2]; [|now simpl in Hne].
    simpl. apply Hlen.
    + pose proof (slice2_exact_height roi 0 roi_h 0 strip) as E.
      fold roi_h in E. lia.
    + pose proof (slice2_exact_width roi 0 roi_h 0 strip) as E.
      fold roi_w in E. lia.
Qed.

Lemma median_bgr_between (lo hi : BGR) (px : list BGR) :
  px <> [] ->
  Forall (fun p => chan0 lo <= chan0 p <= chan0 hi
                   /\ chan1 lo <= chan1 p <= chan1 hi
                   /\ chan2 lo <= chan2 p <= chan2 hi) px ->
  let rgb := rgb_of_bgr (median_bgr px) in
  chan0 lo <= chan2 rgb <= chan0 hi
  /\ chan1 lo <= chan1 rgb <= chan1 hi
  /\ chan2 lo <= chan0 rgb <= chan2 hi.
Proof.
  intros Hne Hall rgb. subst rgb.
  unfold rgb_of_bgr, median_bgr. cbn [chan0 chan1 chan2 fst snd].
  assert (Hmap : forall f : BGR -> Z, map f px <> []).
  { intros f E. apply map_eq_nil in E. contradiction. }
  repeat split;
    try (apply (median_between (chan0 lo) (chan0 hi)); auto;
         apply Forall_map; eapply Forall_impl; [|exact Hall];
         simpl; tauto);
    try (apply (median_between (chan1 lo) (chan1 hi)); auto;
         apply Forall_map; eapply Forall_impl; [|exact Hall];
         simpl; tauto);
    try (apply (median_between (chan2 lo) (chan2 hi)); auto;
         apply Forall_map; eapply Forall_impl; [|exact Hall];
         simpl; tauto).
Qed.

(** The background colour of a sampled block is the white default or,
    channel by channel, lies between any two bounds of the frame's
    pixels. *)
Lemma sampled_background_between
      (lo hi : BGR) (frame : Frame) (block : TextBlock.t)
      (bg fg : Z * Z * Z) :
  (forall r c,
      chan0 lo <= chan0 (f_pixel frame r c) <= chan0 hi
      /\ chan1 lo <= chan1 (f_pixel frame r c) <= chan1 hi
      /\ chan2 lo <= chan2 (f_pixel frame r c) <= chan2 hi) ->
  sample_block kmeans2 linalg_norm_diff frame block = Ok (Colored bg fg) ->
  (StyleRegion.has_border frame block = false /\ bg = (255, 255, 255))
  \/ (StyleRegion.has_border frame block = true
      /\ chan0 lo <= chan2 bg <= chan0 hi
      /\ chan1 lo <= chan1 bg <= chan1 hi
      /\ chan2 lo <= chan0 bg <= chan2 hi).
Proof.
  intros Hall H.
  assert (Hborder : StyleRegion.has_border frame block
                    = match border_strips (StyleRegion.roi frame block)
                                          (StyleRegion.strip block) with
                      | [] => false
                      | _ => true
                      end).
  { unfold StyleRegion.has_border, border_strips.
    destruct (_ <? Z.of_nat (f_height _)); [reflexivity|].
    destruct (_ <? Z.of_nat (f_width _)); reflexivity. }
  unfold StyleRegion.roi, StyleRegion.strip, StyleRegion.margin in Hborder.
  cbv zeta in Hborder.
  cbv beta zeta delta [sample_block] in H.
  set (margin := Z.max 4 (TextBlock.height block / 2)) in *.
  set (x1 := Z.max 0 (TextBlock.x block - margin)) in *.
  set (y1 := Z.max 0 (TextBlock.y block - margin)) in *.
  set (x2 := Z.min (Z.of_nat (f_width frame))
               (TextBlock.x block + TextBlock.width block + margin)) in *.
  set (y2 := Z.min (Z.of_nat (f_height frame))
               (TextBlock.y block + TextBlock.height block + margin)) in *.
  set (roi := slice2 frame y1 y2 x1 x2) in *.
  set (strip := Z.max 2 (margin / 2)) in *.
  destruct (Z.leb_spec x2 x1) as [|Hx]; [discriminate|].
  destruct (Z.leb_spec y2 y1) as [|Hy]; [discriminate|].
  simpl orb in H. cbv iota in H.
  destruct (array_size roi =? 0); [discriminate|].
  destruct (Z.of_nat (List.length _) <? 2); [discriminate|].
  destruct (kmeans2 _) as [centers|e]; [|discriminate].
  simpl in H. inversion H as [[Hbg Hfg]]. clear H Hfg.
  destruct (border_strips roi strip) as [|s0 strips] eqn:Eb.
  - left. split; [exact Hborder|reflexivity].
  - right. split; [exact Hborder|].
    assert (Hroi : forall r c,
               chan0 lo <= chan0 (f_pixel roi r c) <= chan0 hi
               /\ chan1 lo <= chan1 (f_pixel roi r c) <= chan1 hi
               /\ chan2 lo <= chan2 (f_pixel roi r c) <= chan2 hi).
    { intros r c. unfold roi.
      apply (slice2_pixels
               (fun p => chan0 lo <= chan0 p <= chan0 hi
                         /\ chan1 lo <= chan1 p <= chan1 hi
                         /\ chan2 lo <= chan2 p <= chan2 hi)), Hall. }
    assert (Hh : (0 < f_height roi)%nat).
    { pose proof (slice2_exact_height frame y1 y2 x1 x2) as E.
      fold roi in E. unfold y1, y2 in *. lia. }
    assert (Hw : (0 < f_width roi)%nat).
    { pose proof (slice2_exact_width frame y1 y2 x1 x2) as E.
      fold roi in E. unfold x1, x2 in *. lia. }
    assert (Hne : List.concat (border_strips roi strip) <> []).
    { apply border_strips_nonempty; auto.
      - unfold strip. lia.
      - rewrite Eb. discriminate. }
    pose proof (border_strips_all
                  (fun p => chan0 lo <= chan0 p <= chan0 hi
                            /\ chan1 lo <= chan1 p <= chan1 hi
                            /\ chan2 lo <= chan2 p <= chan2 hi)
                  roi strip Hroi) as Hb.
    rewrite Eb in Hne, Hb.
    exact (median_bgr_between lo hi _ Hne Hb).
Qed.

(** X14.  On a frame of 8-bit pixels the background colour given to a
    block is a proper RGB triple: each channel lies in [0..255]. *)
Theorem background_is_rgb
        (frame : Frame) (block : TextBlock.t) (bg fg : Z * Z * Z) :
  eight_bit frame ->
  sample_block kmeans2 linalg_norm_diff frame block = Ok (Colored bg fg) ->
  rgb_in_range bg.
Proof.
  intros H8 H.
  destruct (sampled_background_between (0, 0, 0) (255, 255, 255)
              frame block bg fg H8 H) as [[_ ->]|[_ Hr]].
  - unfold rgb_in_range, chan0, chan1, chan2. simpl. lia.
  - unfold rgb_in_range, chan0, chan1, chan2 in *. simpl in Hr. tauto.
Qed.

(** X15.  On a single-colour frame the background colour given to a
    block is decided by the sampled region alone: it is the frame's
    colour (with the channels in RGB order) when the region is taller or
    wider than the strip width, so that a border strip is sampled, and
    the white default exactly when it is not. *)
Theorem background_of_uniform_frame
        (frame : Frame) (color : BGR) (block : TextBlock.t)
        (bg fg : Z * Z * Z) :
  (forall r c, f_pixel frame r c = color) ->
  sample_block kmeans2 linalg_norm_diff frame block = Ok (Colored bg fg) ->
  bg = if StyleRegion.has_border frame block
       then (chan2 color, chan1 color, chan0 color)
       else (255, 255, 255).
Proof.
  intros Hu H.
  destruct (sampled_background_between color color frame block bg fg)
    as [[-> ->]|[-> Hr]]; auto.
  - intros r c. rewrite Hu. lia.
  - destruct bg as [[r g] b].
    unfold chan0, chan1, chan2 in *. simpl in Hr.
    f_equal; [f_equal|]; lia.
Qed.

End StyleMoreFacts.

(** ** The theorems at concrete inputs *)


Lemma extract_never_raises_witness :
  let kmeans2 := Pipeline.kmeans2 Examples.sample_ext in
  let norm := Pipeline.linalg_norm_diff Examples.sample_ext in
  let frame := Examples.banded_frame in
  let blocks := [Examples.dot_block; TextBlock.new 4 6 30 13 "Hello" 1 9] in
  StyleExtractor.extract kmeans2 norm frame blocks
    = Ok (map (StyleExtractor.sampled kmeans2 norm frame) blocks)
  /\ List.length (map (StyleExtractor.sampled kmeans2 norm frame) blocks)
     = List.length blocks
  /\ StyleExtractor.sample_block kmeans2 norm frame Examples.dot_block
     = Ok StyleExtractor.Skipped
  /\ StyleExtractor.sampled kmeans2 norm frame Examples.dot_block
     = Examples.dot_block
  /\ StyleExtractor.sample_block kmeans2 norm frame Examples.dot_block
     = Ok StyleExtractor.Skipped
  /\ StyleExtractor.sampled kmeans2 norm frame Examples.dot_block
     = Examples.dot_block.
Proof.
  apply (extract_never_raises
           (Pipeline.kmeans2 Examples.sample_ext)
           (Pipeline.linalg_norm_diff Examples.sample_ext)
           Examples.banded_frame
           [Examples.dot_block; TextBlock.new 4 6 30 13 "Hello" 1 9]
           Examples.dot_block Examples.dot_block).
  - vm_compute. reflexivity.
  - reflexivity.
  - reflexivity.
  - simpl. lia.
  - simpl. lia.
Defined.

Lemma translate_batch_total_witness :
  (exists out,
      fst (TranslationEngine.translate_batch Examples.picky_model
             Examples.loaded_engine ["Hello"%string; "world"%string]
             "eng_Latn" "fra_Latn") = Ok out
      /\ List.length out = 2%nat)
  /\ fst (TranslationEngine.translate_batch Examples.picky_model
            Examples.loaded_engine [] "eng_Latn" "fra_Latn") = Ok []
  /\ fst (TranslationEngine.translate_batch Examples.picky_model
            TranslationEngine.init ["Hello"%string; "world"%string]
            "eng_Latn" "fra_Latn")
     = Ok ["Hello"%string; "world"%string]
  /\ fst (TranslationEngine.translate_batch Examples.picky_model
            Examples.loaded_engine ["Hello"%string; ""%string]
            "eng_Latn" "fra_Latn")
     = Ok ["Hello"%string; ""%string].
Proof.
  apply (translate_batch_total Examples.picky_model
           Examples.loaded_engine TranslationEngine.init
           ["Hello"%string; "world"%string] ["Hello"%string; ""%string]
           "eng_Latn" "fra_Latn" (BackendError "empty input")).
  - vm_compute. intros out E. inversion E. reflexivity.
  - reflexivity.
  - reflexivity.
Defined.

Lemma retarget_without_restart_witness :
  let ext := Examples.sample_ext in
  let p := Examples.after_first_cycle in
  let new := Examples.retargeted_settings in
  let w := Examples.world_with Examples.black_frame in
  let p' := snd (fst (Pipeline.update_settings ext p new)) in
  fst (fst (Pipeline.update_settings ext p new)) = Ok tt
  /\ snd (Pipeline.update_settings ext p new) = []
  /\ Pipeline.settings p' = new
  /\ Pipeline.capture p' = Pipeline.capture p
  /\ FrameDiffer._prev_frame (Pipeline.differ p')
     = FrameDiffer._prev_frame (Pipeline.differ p)
  /\ OCREngine._engine (Pipeline.ocr p') = OCREngine._engine (Pipeline.ocr p)
  /\ OCREngine._current_lang (Pipeline.ocr p')
     = OCREngine._current_lang (Pipeline.ocr p)
  /\ FrameDiffer.threshold (Pipeline.differ p')
     = AppSettings.frame_diff_threshold new
  /\ OCREngine.confidence_threshold (Pipeline.ocr p')
     = AppSettings.ocr_confidence_threshold new
  /\ TranslationCache.max_size (Pipeline.cache p')
     = AppSettings.max_cache_size new
  /\ Forall (Pipeline.uses_languages (Pipeline.effective_source new)
                                     (AppSettings.target_language new))
            (snd (Pipeline._run_cycle ext w p')).
Proof.
  apply (retarget_without_restart Examples.sample_ext
           (Examples.world_with Examples.black_frame)
           Examples.after_first_cycle Examples.retargeted_settings);
    reflexivity.
Defined.

(** The cycle after the retargeting asks the cache and the model for the
    new target language. *)
Example retargeted_cycle_events :
  let p' := snd (fst (Pipeline.update_settings Examples.sample_ext
                        Examples.after_first_cycle
                        Examples.retargeted_settings)) in
  let evs := snd (Pipeline._run_cycle Examples.sample_ext
                    (Examples.world_with Examples.black_frame) p') in
  In (Pipeline.EvCacheGet "Hello world" "eng_Latn" "deu_Latn") evs
  /\ In (Pipeline.EvTranslateBatch ["Hello world"%string]
                                   "eng_Latn" "deu_Latn") evs.
Proof. vm_compute. tauto. Qed.

Lemma cache_bound_restored_by_put_witness :
  let ext := Examples.sample_ext in
  let p := Examples.with_full_cache in
  let new := Examples.small_cache_settings in
  let c := Pipeline.cache (snd (fst (Pipeline.update_settings ext p new))) in
  (exists c',
      TranslationCache.put c "gamma" "eng_Latn" "fra_Latn" "gamma!"
        = (Ok tt, c')
      /\ TranslationCache.max_size c' = TranslationCache.max_size c
      /\ TranslationCache.size c' <= TranslationCache.max_size c'
      /\ (exists dropped,
            TranslationCache.move_to_end
              (TranslationCache.setitem (TranslationCache._cache c)
                 ("gamma", "eng_Latn", "fra_Latn")%string "gamma!")
              ("gamma", "eng_Latn", "fra_Latn")%string
            = dropped ++ TranslationCache._cache c')
      /\ TranslationCache.size c'
         = Z.min (TranslationCache.max_size c)
                 (Z.of_nat
                    (List.length
                       (TranslationCache.move_to_end
                          (TranslationCache.setitem
                             (TranslationCache._cache c)
                             ("gamma", "eng_Latn", "fra_Latn")%string
                             "gamma!")
                          ("gamma", "eng_Latn", "fra_Latn")%string))))
  /\ TranslationCache.size
       (snd (TranslationCache.get c "gamma" "eng_Latn" "fra_Latn"))
     <= TranslationCache.size c
  /\ TranslationCache.size (TranslationCache.clear c) = 0
  /\ TranslationCache.max_size
       (Pipeline.cache (snd (fst (Pipeline.update_settings ext p new))))
     = AppSettings.max_cache_size new
  /\ TranslationCache._cache
       (Pipeline.cache (snd (fst (Pipeline.update_settings ext p new))))
     = TranslationCache._cache (Pipeline.cache p).
Proof.
  apply (cache_bound_restored_by_put Examples.sample_ext
           Examples.with_full_cache Examples.small_cache_settings
           (Pipeline.cache
              (snd (fst (Pipeline.update_settings Examples.sample_ext
                           Examples.with_full_cache
                           Examples.small_cache_settings))))
           "gamma" "eng_Latn" "fra_Latn" "gamma!").
  vm_compute. discriminate.
Defined.

(** C5, as stated, fails: shrinking the capacity of a full cache from 2
    to 1 through [update_settings] evicts nothing, so [size <= max_size]
    is broken until the next [put]. *)
Lemma shrink_keeps_entries_counterexample :
  let p := Examples.with_full_cache in
  let p' := snd (fst (Pipeline.update_settings Examples.sample_ext p
                        Examples.small_cache_settings)) in
  TranslationCache.size (Pipeline.cache p)
    <= TranslationCache.max_size (Pipeline.cache p)
  /\ fst (fst (Pipeline.update_settings Examples.sample_ext p
                 Examples.small_cache_settings)) = Ok tt
  /\ TranslationCache.max_size (Pipeline.cache p') = 1
  /\ TranslationCache.size (Pipeline.cache p') = 2
  /\ ~ (TranslationCache.size (Pipeline.cache p')
        <= TranslationCache.max_size (Pipeline.cache p')).
Proof. vm_compute. repeat split; try discriminate. intros H. now apply H. Qed.

Lemma stale_overlay_cleared_before_ocr_witness :
  let ext := Examples.sample_ext in
  let w := Examples.world_with Examples.black_frame in
  let p := Examples.after_first_cycle in
  (exists rest,
      snd (Pipeline._run_cycle ext w p)
      = Pipeline.EvCaptureGrab AppSettings.FULLSCREEN None 0
        :: Pipeline.EvHasChanged :: Pipeline.EvBlocksReady []
        :: Pipeline.EvOcrDetect 0 0 :: rest)
  /\ (exists rest,
        snd (Pipeline._run_cycle ext w (Pipeline.set_last_blocks p []))
        = Pipeline.EvCaptureGrab AppSettings.FULLSCREEN None 0
          :: Pipeline.EvHasChanged :: Pipeline.EvOcrDetect 0 0 :: rest).
Proof.
  apply (stale_overlay_cleared_before_ocr Examples.sample_ext
           (Examples.world_with Examples.black_frame)
           Examples.after_first_cycle Examples.black_frame).
  - reflexivity.
  - vm_compute. reflexivity.
  - vm_compute. discriminate.
Defined.

(** [stop] publishes the empty set but leaves [_last_blocks] alone, and
    [start] does not touch it either: after a stop and a restart the
    field still holds the blocks of the last cycle, so the next changed
    frame is preceded by one more empty publication. *)
Example last_blocks_survive_stop :
  let ext := Examples.sample_ext in
  let p := Examples.after_first_cycle in
  let stopped := fst (Pipeline.stop p) in
  let restarted := snd (fst (Pipeline.start ext stopped)) in
  Trace.published (snd (Pipeline.stop p)) = [[]]
  /\ Pipeline._last_blocks p <> []
  /\ Pipeline._last_blocks restarted = Pipeline._last_blocks p
  /\ exists rest,
       snd (Pipeline._run_cycle ext
              (Examples.world_with Examples.black_frame) restarted)
       = Pipeline.EvCaptureGrab AppSettings.FULLSCREEN None 0
         :: Pipeline.EvHasChanged :: Pipeline.EvBlocksReady []
         :: Pipeline.EvOcrDetect 0 0 :: rest.
Proof.
  vm_compute. repeat split; try discriminate. eexists. reflexivity.
Qed.

(** C2, as stated, fails: in the first cycle of a session the change
    detector reports a change, OCR, style extraction and translation run
    and a real block set is published, but no empty block set is published
    at all, since nothing had been published before. *)
Lemma first_cycle_counterexample :
  let ext := Examples.sample_ext in
  let w := Examples.world_with Examples.banded_frame in
  let p := Examples.ready in
  let evs := snd (Pipeline._run_cycle ext w p) in
  fst (FrameDiffer.has_changed (Pipeline.gray_downsample ext)
         (Pipeline.differ p) Examples.banded_frame) = Ok true
  /\ ~ In (Pipeline.EvBlocksReady []) evs
  /\ In (Pipeline.EvOcrDetect 0 0) evs
  /\ In (Pipeline.EvTranslateBatch ["Hello world"%string]
                                   "eng_Latn" "fra_Latn") evs
  /\ exists b, In (Pipeline.EvBlocksReady [b]) evs.
Proof.
  vm_compute. repeat split.
  - intros H. repeat (destruct H as [H|H]; [discriminate H|]). exact H.
  - tauto.
  - tauto.
  - eexists. do 7 right. left. reflexivity.
Qed.

(** With "auto" configured, the cycle's lookups, translation call and
    stores all carry "eng_Latn". *)
Example auto_source_cycle_events :
  let evs := snd (Pipeline._run_cycle Examples.sample_ext
                    (Examples.world_with Examples.banded_frame)
                    Examples.ready) in
  AppSettings.source_language (Pipeline.settings Examples.ready)
    = "auto"%string
  /\ In (Pipeline.EvCacheGet "Hello world" "eng_Latn" "fra_Latn") evs
  /\ In (Pipeline.EvTranslateBatch ["Hello world"%string]
                                   "eng_Latn" "fra_Latn") evs
  /\ In (Pipeline.EvCachePut "Hello world" "eng_Latn" "fra_Latn"
                             "Hello world@fra_Latn") evs.
Proof. vm_compute. tauto. Qed.

(** ** The capture engine *)

Section CaptureFacts.

Import CaptureEngine CaptureSession.

Variable HAS_MSS : bool.
Variable bettercam_create : Z -> bool.

Lemma start_without_bettercam (c : t) (monitor : Z) :
  _use_bettercam c = false -> _camera c = false ->
  _use_bettercam (snd (start HAS_MSS bettercam_create c monitor)) = false
  /\ _camera (snd (start HAS_MSS bettercam_create c monitor)) = false.
Proof.
  intros Hu Hc. unfold start. rewrite Hu, Hc. simpl.
  destruct HAS_MSS; split; reflexivity.
Qed.

Lemma run_ops_without_bettercam (ops : list op) :
  forall c,
    _use_bettercam c = false -> _camera c = false ->
    _use_bettercam (run_ops HAS_MSS bettercam_create c ops) = false
    /\ _camera (run_ops HAS_MSS bettercam_create c ops) = false.
Proof.
  induction ops as [|[monitor|] ops IH]; intros c Hu Hc; simpl.
  - now split.
  - destruct (start_without_bettercam c monitor Hu Hc). now apply IH.
  - apply IH; reflexivity || exact Hu.
Qed.

(** X16.  The fallback is permanent: once a [start] has found BetterCam
    unable to open its monitor, the engine holds no camera and never
    tries BetterCam again, whatever is started or stopped afterwards,
    also on monitors BetterCam could open. *)
Theorem bettercam_fallback_is_permanent
        (c : t) (monitor : Z) (ops : list op) :
  _use_bettercam c = true ->
  bettercam_create monitor = false ->
  let c1 := snd (start HAS_MSS bettercam_create c monitor) in
  _use_bettercam (run_ops HAS_MSS bettercam_create c1 ops) = false
  /\ _camera (run_ops HAS_MSS bettercam_create c1 ops) = false.
Proof.
  intros Hu Hb c1. apply run_ops_without_bettercam; subst c1;
    unfold start; rewrite Hu, Hb; simpl; destruct HAS_MSS; reflexivity.
Qed.

(** X17.  Frames are delivered only between a successful [start] and the
    next [stop]: after any history that ends with [stop], [grab] returns
    nothing; with mss available a history that ends with [start] never
    fails to start, records the monitor and lets [grab] deliver what the
    backend captured. *)
Theorem grab_follows_start_and_stop
        (c : t) (ops : list op) (monitor : Z) (backend : option Frame) :
  HAS_MSS = true ->
  grab (run_ops HAS_MSS bettercam_create c (ops ++ [Stop])) backend = None
  /\ fst (start HAS_MSS bettercam_create
            (run_ops HAS_MSS bettercam_create c ops) monitor) = Ok tt
  /\ _monitor (run_ops HAS_MSS bettercam_create c (ops ++ [Start monitor]))
     = monitor
  /\ grab (run_ops HAS_MSS bettercam_create c (ops ++ [Start monitor]))
          backend = backend.
Proof.
  intros Hmss.
  assert (Happ : forall ops1 ops2 c0,
             run_ops HAS_MSS bettercam_create c0 (ops1 ++ ops2)
             = run_ops HAS_MSS bettercam_create
                 (run_ops HAS_MSS bettercam_create c0 ops1) ops2).
  { induction ops1 as [|[m|] ops1 IH]; intros ops2 c0; simpl; auto. }
  rewrite !Happ. simpl.
  set (c' := run_ops HAS_MSS bettercam_create c ops).
  unfold start, grab, stop. rewrite Hmss.
  destruct (_use_bettercam c' && bettercam_create monitor);
    repeat split; reflexivity.
Qed.

End CaptureFacts.

(** ** More on the orchestrator *)

Section PipelineMoreFacts.

Import Pipeline CycleSpec Trace.

Variable ext : Externals.

(** *** The cache seen through [get] *)

Lemma contains_lookup (d : list (TranslationCache.Key * string))
      (k : TranslationCache.Key) :
  TranslationCache.contains d k = true
  <-> TranslationCache.lookup d k <> None.
Proof.
  induction d as [|[k' v'] d IH]; simpl; [intuition congruence|].
  destruct (TranslationCache.key_eqb k' k); simpl; [|exact IH].
  intuition congruence.
Qed.

Lemma get_returns_lookup (c : TranslationCache.t) (text src tgt : string) :
  fst (TranslationCache.get c text src tgt)
  = TranslationCache.lookup (TranslationCache._cache c) (text, src, tgt).
Proof.
  unfold TranslationCache.get.
  destruct (TranslationCache.contains _ _) eqn:E; simpl.
  - apply contains_lookup in E. unfold TranslationCache.move_to_end.
    destruct (TranslationCache.lookup _ _) as [v|]; [|congruence].
    apply lookup_app_last, remove_key_absent.
  - destruct (TranslationCache.lookup _ _) eqn:El; auto.
    assert (TranslationCache.contains (TranslationCache._cache c)
              (text, src, tgt) = true)
      by (apply contains_lookup; congruence).
    congruence.
Qed.

Lemma lookup_after_get (c : TranslationCache.t) (text src tgt : string)
      (k : TranslationCache.Key) :
  TranslationCache.lookup
    (TranslationCache._cache (snd (TranslationCache.get c text src tgt))) k
  = TranslationCache.lookup (TranslationCache._cache c) k.
Proof.
  pose proof (get_returns_lookup c text src tgt) as Hg.
  unfold TranslationCache.get in *.
  destruct (TranslationCache.contains _ _) eqn:E; simpl in *; auto.
  destruct (TranslationCache.key_eq_dec k (text, src, tgt)) as [->|Hne].
  - rewrite Hg. reflexivity.
  - now apply lookup_move_to_end_other.
Qed.

Lemma get_max_size (c : TranslationCache.t) (text src tgt : string) :
  TranslationCache.max_size (snd (TranslationCache.get c text src tgt))
  = TranslationCache.max_size c.
Proof. apply get_size. Qed.

(** *** The lookup loop *)

Lemma translate_calls_app (a b : list Event) :
  translate_calls (a ++ b) = translate_calls a ++ translate_calls b.
Proof.
  induction a as [|ev a IH]; simpl; auto.
  destruct ev; simpl; auto. now rewrite IH.
Qed.

Lemma published_app (a b : list Event) :
  published (a ++ b) = published a ++ published b.
Proof.
  induction a as [|ev a IH]; simpl; auto.
  destruct ev; simpl; auto. now rewrite IH.
Qed.

Lemma ocr_calls_app (a b : list Event) :
  ocr_calls (a ++ b) = (ocr_calls a + ocr_calls b)%nat.
Proof.
  induction a as [|ev a IH]; simpl; auto.
  destruct ev; simpl; auto.
Qed.

Lemma cache_events_silent (evs : list Event) :
  Forall cache_event evs ->
  translate_calls evs = [] /\ published evs = [] /\ ocr_calls evs = 0%nat.
Proof.
  induction 1 as [|ev evs Hev _ IH]; simpl; auto.
  destruct ev; simpl in *; try contradiction; exact IH.
Qed.

Lemma lookup_loop_spec (src tgt : string) (blocks : list TextBlock.t) :
  forall (c : TranslationCache.t) (i : nat),
    let '(blocks1, to_translate, indices, c1, evs) :=
      lookup_loop c src tgt i blocks in
    blocks1 = map (fill c src tgt) blocks
    /\ to_translate
       = map TextBlock.text (filter (is_miss c src tgt) blocks)
    /\ indices = miss_positions (is_miss c src tgt) i blocks
    /\ (forall k,
           TranslationCache.lookup (TranslationCache._cache c1) k
           = TranslationCache.lookup (TranslationCache._cache c) k)
    /\ TranslationCache.max_size c1 = TranslationCache.max_size c
    /\ Forall cache_event evs.
Proof.
  induction blocks as [|b blocks IH]; intros c i; simpl.
  - repeat split; auto.
  - pose proof (get_returns_lookup c (TextBlock.text b) src tgt) as Hg.
    pose proof (lookup_after_get c (TextBlock.text b) src tgt) as Hl.
    pose proof (get_max_size c (TextBlock.text b) src tgt) as Hm.
    destruct (TranslationCache.get c (TextBlock.text b) src tgt)
      as [cached_v c1].
    simpl in Hg, Hl, Hm.
    specialize (IH c1 (S i)).
    destruct (lookup_loop c1 src tgt (S i) blocks)
      as [[[[rest' tt] ti] c2] evs].
    destruct IH as (H1 & H2 & H3 & H4 & H5 & H6).
    assert (Hfill : map (fill c1 src tgt) blocks
                    = map (fill c src tgt) blocks).
    { apply map_ext. intros x. unfold fill, cached. now rewrite Hl. }
    assert (Hmiss : forall x, is_miss c1 src tgt x = is_miss c src tgt x).
    { intros x. unfold is_miss, cached. now rewrite Hl. }
    assert (Hfilter : filter (is_miss c1 src tgt) blocks
                      = filter (is_miss c src tgt) blocks)
      by (apply filter_ext; exact Hmiss).
    assert (Hpos : forall j l,
               miss_positions (is_miss c1 src tgt) j l
               = miss_positions (is_miss c src tgt) j l).
    { intros j l. revert j.
      induction l as [|x l IHl]; intros j; simpl; auto.
      now rewrite Hmiss, IHl. }
    assert (Hb : cached c src tgt b = cached_v)
      by (unfold cached; congruence).
    assert (Hfb : fill c src tgt b
                  = match cached_v with
                    | Some tr => TextBlock.set_translation b tr
                    | None => b
                    end) by (unfold fill; now rewrite Hb).
    assert (Hmb : is_miss c src tgt b
                  = match cached_v with Some _ => false | None => true end)
      by (unfold is_miss; now rewrite Hb).
    rewrite Hfb, Hmb. rewrite Hfill, Hfilter, Hpos in *.
    subst rest' tt ti.
    destruct cached_v as [tr|]; simpl;
      (repeat split; auto;
       [ intros k; now rewrite H4, Hl | congruence
       | constructor; simpl; auto ]).
Qed.

(** *** The store loop *)

Lemma update_nth_length {A} (f : A -> A) (l : list A) :
  forall idx, List.length (update_nth idx f l) = List.length l.
Proof.
  induction l as [|a l IH]; intros [|n]; simpl; auto.
Qed.

Lemma put_max_size (c : TranslationCache.t) (text src tgt v : string) :
  TranslationCache.max_size (snd (TranslationCache.put c text src tgt v))
  = TranslationCache.max_size c.
Proof.
  unfold TranslationCache.put.
  destruct (TranslationCache.evict _ _). reflexivity.
Qed.

Lemma store_loop_spec (src tgt : string) (pairs : list (nat * string)) :
  forall (c : TranslationCache.t) (blocks : list TextBlock.t),
    let '(r, blocks1, c1, evs) := store_loop c src tgt blocks pairs in
    Forall cache_event evs
    /\ TranslationCache.max_size c1 = TranslationCache.max_size c
    /\ (r = Ok tt -> blocks1 = apply_pairs pairs blocks)
    /\ (0 <= TranslationCache.max_size c ->
        Forall (fun p => (fst p < List.length blocks)%nat) pairs ->
        r = Ok tt).
Proof.
  induction pairs as [|[idx trans] pairs IH]; intros c blocks; simpl.
  - repeat split; auto.
  - destruct (nth_error blocks idx) as [b|] eqn:En; simpl.
    + pose proof (put_max_size c (TextBlock.text b) src tgt trans) as Hm.
      pose proof (put_bounded c (TextBlock.text b) src tgt trans) as Hp.
      destruct (TranslationCache.put c (TextBlock.text b) src tgt trans)
        as [[[]|e] c1]; simpl in *.
      * specialize (IH c1 (update_nth idx
                             (fun b0 => TextBlock.set_translation b0 trans)
                             blocks)).
        destruct (store_loop c1 src tgt _ pairs) as [[[r bl] c2] evs].
        destruct IH as (H1 & H2 & H3 & H4).
        repeat split.
        -- constructor; simpl; auto.
        -- congruence.
        -- exact H3.
        -- intros Hc Hall. inversion Hall; subst.
           apply H4; [lia|].
           rewrite update_nth_length. assumption.
      * repeat split; auto.
        -- repeat constructor.
        -- discriminate.
        -- intros Hc _. destruct (Hp Hc) as [E _]. discriminate E.
    + repeat split; auto.
      * discriminate.
      * intros _ Hall. inversion Hall as [|? ? Hlt _]; subst. simpl in Hlt.
        apply nth_error_None in En. lia.
Qed.

Lemma miss_positions_bound (miss : TextBlock.t -> bool)
      (blocks : list TextBlock.t) :
  forall i,
    Forall (fun j => (j < i + List.length blocks)%nat)
           (miss_positions miss i blocks).
Proof.
  induction blocks as [|b blocks IH]; intros i; simpl; [constructor|].
  specialize (IH (S i)).
  assert (H : Forall (fun j => (j < i + S (List.length blocks))%nat)
                     (miss_positions miss (S i) blocks)).
  { eapply Forall_impl; [|exact IH]. simpl. intros; lia. }
  destruct (miss b); auto. constructor; auto. lia.
Qed.

Lemma miss_positions_length (miss : TextBlock.t -> bool)
      (blocks : list TextBlock.t) :
  forall i,
    List.length (miss_positions miss i blocks)
    = List.length (filter miss blocks).
Proof.
  induction blocks as [|b blocks IH]; intros i; simpl; auto.
  destruct (miss b); simpl; auto.
Qed.

Lemma update_nth_middle {A} (f : A -> A) (pre : list A) (a : A)
      (post : list A) :
  update_nth (List.length pre) f (pre ++ a :: post) = pre ++ f a :: post.
Proof.
  induction pre as [|x pre IH]; simpl; [reflexivity|]. now rewrite IH.
Qed.

(** Storing one translation per miss, at the positions of the misses,
    leaves every block with a translation of its own. *)
Lemma apply_pairs_translated (c : TranslationCache.t) (src tgt : string)
      (blocks : list TextBlock.t) :
  forall (pre : list TextBlock.t) (translations : list string),
    List.length translations
    = List.length (filter (is_miss c src tgt) blocks) ->
    exists out,
      apply_pairs
        (combine (miss_positions (is_miss c src tgt) (List.length pre)
                                 blocks)
                 translations)
        (pre ++ map (fill c src tgt) blocks)
      = pre ++ out
      /\ Forall2 translation_of blocks out.
Proof.
  induction blocks as [|b blocks IH]; intros pre translations Hlen.
  - exists []. split; [|constructor]. reflexivity.
  - simpl miss_positions. simpl map. simpl filter in Hlen.
    unfold fill at 1. unfold is_miss at 1 in Hlen. unfold is_miss at 1.
    destruct (cached c src tgt b) as [tr|] eqn:Ec.
    + destruct (IH (pre ++ [TextBlock.set_translation b tr])
                  translations Hlen) as (out & E & Hout).
      rewrite length_app in E. simpl in E.
      rewrite Nat.add_1_r in E. rewrite <- app_assoc in E. simpl in E.
      exists (TextBlock.set_translation b tr :: out). split.
      * rewrite E. now rewrite <- app_assoc.
      * constructor; auto. now exists tr.
    + destruct translations as [|t0 translations]; [discriminate|].
      simpl in Hlen. injection Hlen as Hlen.
      destruct (IH (pre ++ [TextBlock.set_translation b t0])
                  translations Hlen) as (out & E & Hout).
      rewrite length_app in E. simpl in E.
      rewrite Nat.add_1_r in E. rewrite <- app_assoc in E. simpl in E.
      exists (TextBlock.set_translation b t0 :: out). split.
      * simpl combine. unfold apply_pairs in *. simpl fold_left.
        rewrite update_nth_middle. rewrite E.
        now rewrite <- app_assoc.
      * constructor; auto. now exists t0.
Qed.

(** *** The cache-and-translate step *)

Lemma translate_batch_returns (e : TranslationEngine.t)
      (texts : list string) (src tgt : string) :
  exists out,
    fst (TranslationEngine.translate_batch (model_call ext) e texts src tgt)
    = Ok out
    /\ ((forall res, model_call ext texts src tgt = Ok res ->
                     List.length res = List.length texts) ->
        List.length out = List.length texts).
Proof.
  unfold TranslationEngine.translate_batch.
  destruct (TranslationEngine._loaded e); simpl; [|eauto].
  destruct texts as [|t0 texts]; simpl; [eauto|].
  destruct (model_call ext (t0 :: texts) src tgt) as [res|ex]; simpl; eauto.
Qed.

Lemma truthy_map_filter (miss : TextBlock.t -> bool)
      (blocks : list TextBlock.t) :
  truthy (map TextBlock.text (filter miss blocks))
  = truthy (filter miss blocks).
Proof. now destruct (filter miss blocks). Qed.

Lemma all_hits_filled (c : TranslationCache.t) (src tgt : string)
      (blocks : list TextBlock.t) :
  (forall b, In b blocks -> is_miss c src tgt b = false) ->
  Forall2 translation_of blocks (map (fill c src tgt) blocks).
Proof.
  induction blocks as [|b blocks IH]; intros Hall; simpl; constructor.
  - specialize (Hall b (or_introl eq_refl)).
    unfold is_miss in Hall. unfold fill.
    destruct (cached c src tgt b) as [tr|]; [now exists tr|discriminate].
  - apply IH. intros b' Hb'. apply Hall. now right.
Qed.

Lemma translate_blocks_spec (p : t) (blocks : list TextBlock.t) :
  let src := effective_source (settings p) in
  let tgt := AppSettings.target_language (settings p) in
  let misses := filter (is_miss (cache p) src tgt) blocks in
  let '(r, p', evs) := translate_blocks ext p blocks in
  same_outside_cache p p'
  /\ published evs = []
  /\ ocr_calls evs = 0%nat
  /\ translate_calls evs
     = match misses with
       | [] => []
       | _ :: _ => [(map TextBlock.text misses, src, tgt)]
       end
  /\ (0 <= TranslationCache.max_size (cache p) -> exists out, r = Ok out)
  /\ ((forall texts res, model_call ext texts src tgt = Ok res ->
                         List.length res = List.length texts) ->
      forall out, r = Ok out -> Forall2 translation_of blocks out).
Proof.
  intros src tgt misses. unfold translate_blocks.
  fold (effective_source (settings p)). fold src. fold tgt.
  pose proof (lookup_loop_spec src tgt blocks (cache p) 0) as Hl.
  destruct (lookup_loop (cache p) src tgt 0 blocks)
    as [[[[blocks1 to_translate] indices] c1] ev_get].
  destruct Hl as (Hb & Ht & Hi & Hk & Hm & Hev).
  destruct (cache_events_silent _ Hev) as (Hg1 & Hg2 & Hg3).
  subst to_translate. rewrite truthy_map_filter. fold misses.
  destruct misses as [|m0 misses'] eqn:Emiss; simpl truthy; cbv iota.
  - (* every text was cached *)
    unfold same_outside_cache. simpl.
    repeat split; auto.
    + eauto.
    + intros _ out E. inversion E; subst out blocks1; clear E.
      assert (Hall : forall b, In b blocks ->
                               is_miss (cache p) src tgt b = false).
      { intros b Hin.
        destruct (is_miss (cache p) src tgt b) eqn:Eb; auto.
        assert (In b (filter (is_miss (cache p) src tgt) blocks))
          by (apply filter_In; auto).
        fold misses in H. rewrite Emiss in H. contradiction. }
      now apply all_hits_filled.
  - (* some texts go to the model *)
    destruct (translate_batch_returns (translation (set_cache p c1))
                (map TextBlock.text (m0 :: misses')) src tgt)
      as (translations & Etr & Hlen).
    simpl translation in *.
    destruct (TranslationEngine.translate_batch (model_call ext)
                (translation p) (map TextBlock.text (m0 :: misses'))
                src tgt) as [r e].
    simpl in Etr. subst r. simpl cache.
    pose proof (store_loop_spec src tgt (combine indices translations)
                  c1 blocks1) as Hs.
    destruct (store_loop c1 src tgt blocks1
                (combine indices translations))
      as [[[r2 blocks2] c2] ev_put].
    destruct Hs as (Hev2 & Hm2 & Happly & Hok).
    destruct (cache_events_silent _ Hev2) as (Hp1 & Hp2 & Hp3).
    assert (Hevs : forall tail_evs,
               tail_evs = ev_put ->
               published (ev_get ++ [EvTranslateBatch
                                       (map TextBlock.text (m0 :: misses'))
                                       src tgt] ++ tail_evs) = []
               /\ ocr_calls (ev_get ++ [EvTranslateBatch
                                          (map TextBlock.text (m0 :: misses'))
                                          src tgt] ++ tail_evs) = 0%nat
               /\ translate_calls
                    (ev_get ++ [EvTranslateBatch
                                  (map TextBlock.text (m0 :: misses'))
                                  src tgt] ++ tail_evs)
                  = [(map TextBlock.text (m0 :: misses'), src, tgt)]).
    { intros tail_evs ->.
      rewrite published_app, ocr_calls_app, translate_calls_app.
      simpl. rewrite Hg1, Hg2, Hg3, Hp1, Hp2, Hp3. auto. }
    destruct (Hevs ev_put eq_refl) as (He1 & He2 & He3).
    assert (Hrange : Forall (fun q => (fst q < List.length blocks1)%nat)
                            (combine indices translations)).
    { apply Forall_forall. intros [j tr] Hin. simpl.
      apply in_combine_l in Hin. subst indices blocks1.
      rewrite length_map.
      pose proof (miss_positions_bound (is_miss (cache p) src tgt)
                    blocks 0) as Hbd.
      exact (proj1 (Forall_forall _ _) Hbd j Hin). }
    assert (Hres : r2 = Ok tt ->
                   (forall texts res,
                       model_call ext texts src tgt = Ok res ->
                       List.length res = List.length texts) ->
                   Forall2 translation_of blocks blocks2).
    { intros Hr2 Hmodel. rewrite (Happly Hr2). subst indices blocks1.
      destruct (apply_pairs_translated (cache p) src tgt blocks []
                  translations) as (out & E & Hout).
      - rewrite (Hlen (Hmodel _)). fold misses. rewrite Emiss.
        now rewrite length_map.
      - simpl in E. now rewrite E. }
    destruct r2 as [[]|ex]; unfold same_outside_cache; simpl;
      repeat split; auto; try congruence.
    + intros _. eauto.
    + intros Hmodel out E. inversion E; subst. now apply Hres.
    + intros Hc. rewrite <- Hm in Hc. specialize (Hok Hc Hrange).
      discriminate Hok.
Qed.

(** *** One cycle *)

Lemma translation_of_translated (blocks out : list TextBlock.t) :
  Forall2 translation_of blocks out -> Forall translated out.
Proof.
  induction 1 as [|b b' blocks out [tr ->] _ IH]; constructor; auto.
  unfold translated. simpl. discriminate.
Qed.

Lemma process_changed_frame_spec (p : t) (frame : Frame) (ox oy : Z) :
  changed_frame_facts ext p
    (snd (fst (process_changed_frame ext p frame ox oy)))
    (fst (fst (process_changed_frame ext p frame ox oy)))
    (snd (process_changed_frame ext p frame ox oy)).
Proof.
  unfold process_changed_frame, changed_frame_facts.
  set (q := if truthy (_last_blocks p) then set_last_blocks p [] else p).
  set (evc := if truthy (_last_blocks p)
              then [EvBlocksReady (@nil TextBlock.t)] else []).
  assert (Hq : (if truthy (_last_blocks p)
                then (set_last_blocks p [], [EvBlocksReady []])
                else (p, [])) = (q, evc))
    by (unfold q, evc; destruct (truthy (_last_blocks p)); reflexivity).
  rewrite Hq. clear Hq.
  assert (Hqs : settings q = settings p /\ capture q = capture p
                /\ differ q = differ p /\ ocr q = ocr p
                /\ _running q = _running p
                /\ _null_frame_count q = _null_frame_count p
                /\ cache q = cache p /\ translation q = translation p)
    by (unfold q; destruct (truthy (_last_blocks p));
        repeat split; reflexivity).
  destruct Hqs as (Hs & Hc & Hd & Ho & Hr & Hn & Hca & Htr).
  assert (Hpub : published evc = [] /\ _last_blocks q = _last_blocks p
                 \/ published evc = [[]] /\ _last_blocks q = []).
  { unfold evc, q. destruct (truthy (_last_blocks p)); auto. }
  assert (Hevc : ocr_calls evc = 0%nat /\ translate_calls evc = []).
  { unfold evc. destruct (truthy (_last_blocks p)); auto. }
  destruct Hevc as (Hevc1 & Hevc2).
  assert (Hclean : Forall translated (_last_blocks p) ->
                   Forall (Forall translated) (published evc)
                   /\ Forall translated (_last_blocks q)).
  { intros Hl. destruct Hpub as [[E1 E2]|[E1 E2]]; rewrite E1, E2;
      repeat constructor; auto. }
  set (blocks := ocr_detect ext (ocr q) frame ox oy).
  destruct (truthy blocks) eqn:Eb; simpl negb; cbv iota.
  2:{ (* OCR found nothing *)
      simpl. rewrite !published_app, !ocr_calls_app, !translate_calls_app.
      simpl. rewrite Hevc1, Hevc2. simpl.
      repeat split; auto; try congruence.
      - destruct Hpub as [[E _]|[E _]]; rewrite E; reflexivity.
      - apply Forall_app. split; [|repeat constructor]. now apply Hclean. }
  set (style_blocks := map (style_block ox oy) blocks).
  unfold style_extract. rewrite extract_map.
  set (colored := copy_colors blocks _).
  pose proof (translate_blocks_spec q colored) as Ht.
  destruct (translate_blocks ext q colored) as [[r q'] ev_tr].
  destruct Ht as (Hsame & Hp & Hoc & Htc & Hok & Hres).
  destruct Hsame as (Hs' & Hc' & Hd' & Ho' & Hr' & Hl' & Hn' & Hm').
  rewrite Hs in Htc, Hres.
  assert (Hcalls : (List.length (translate_calls ev_tr) <= 1)%nat
                   /\ Forall (fun call => fst (fst call) <> [])
                             (translate_calls ev_tr)).
  { rewrite Htc. destruct (filter _ colored); simpl; split; auto.
    repeat constructor. simpl. discriminate. }
  destruct Hcalls as (Hcall1 & Hcall2).
  destruct r as [out|ex]; simpl.
  - repeat (rewrite ?published_app, ?ocr_calls_app, ?translate_calls_app;
            simpl).
    rewrite Hevc1, Hevc2, Hp, Hoc. simpl. rewrite ?app_nil_r.
    repeat split; try congruence; auto.
    + destruct Hpub as [[E _]|[E _]]; rewrite E; reflexivity.
    + apply Forall_app. split; [now apply Hclean|].
      repeat constructor.
      apply (translation_of_translated colored). now apply Hres.
    + apply (translation_of_translated colored). now apply Hres.
  - repeat (rewrite ?published_app, ?ocr_calls_app, ?translate_calls_app;
            simpl).
    rewrite Hevc1, Hevc2, Hp, Hoc. simpl.
    rewrite ?app_nil_r.
    repeat split; try congruence; auto.
    + rewrite Hl'.
      destruct Hpub as [[E1 E2]|[E1 E2]]; rewrite E1, E2; reflexivity.
    + intros Hcap. rewrite <- Hca in Hcap.
      destruct (Hok Hcap) as [out E]. discriminate E.
    + now apply Hclean.
    + rewrite Hl'. now apply Hclean.
Qed.

(** X18.  One batch, made of the misses: the cache-and-translate step
    hands the translation engine exactly the texts of the blocks that the
    cache does not hold for the effective language pair, in block order
    (a text that occurs twice is sent twice), in a single call; when every
    text is cached it makes no call. *)
Theorem translation_batch_is_the_misses (p : t) (blocks : list TextBlock.t) :
  let src := effective_source (settings p) in
  let tgt := AppSettings.target_language (settings p) in
  translate_calls (snd (translate_blocks ext p blocks))
  = match filter (is_miss (cache p) src tgt) blocks with
    | [] => []
    | _ :: _ =>
        [(map TextBlock.text (filter (is_miss (cache p) src tgt) blocks),
          src, tgt)]
    end.
Proof.
  intros src tgt.
  pose proof (translate_blocks_spec p blocks) as H.
  destruct (translate_blocks ext p blocks) as [[r p'] evs].
  simpl in *. tauto.
Qed.

(** The facts of [process_changed_frame_spec] hold for a whole cycle,
    with "at most one" OCR call. *)
Lemma run_cycle_spec (w : World) (p : t) :
  let r := fst (fst (_run_cycle ext w p)) in
  let p' := snd (fst (_run_cycle ext w p)) in
  let evs := snd (_run_cycle ext w p) in
  settings p' = settings p
  /\ capture p' = capture p
  /\ ocr p' = ocr p
  /\ _running p' = _running p
  /\ TranslationCache.max_size (cache p')
     = TranslationCache.max_size (cache p)
  /\ (ocr_calls evs <= 1)%nat
  /\ (List.length (translate_calls evs) <= 1)%nat
  /\ Forall (fun call => fst (fst call) <> []) (translate_calls evs)
  /\ last (published evs) (_last_blocks p') = _last_blocks p'
  /\ ((forall texts res,
          model_call ext texts (effective_source (settings p))
                     (AppSettings.target_language (settings p)) = Ok res ->
          List.length res = List.length texts) ->
      Forall translated (_last_blocks p) ->
      Forall (Forall translated) (published evs)
      /\ Forall translated (_last_blocks p')).
Proof.
  unfold _run_cycle.
  destruct (capture_geometry (settings p) w) as [[region ox] oy].
  destruct (CaptureEngine.grab (capture p) (backend_frame w)) as [frame|].
  2:{ simpl. repeat split; auto; try constructor. }
  simpl differ.
  destruct (FrameDiffer.has_changed (gray_downsample ext) (differ p) frame)
    as [changed d].
  destruct changed as [[|]|ex].
  - pose proof (process_changed_frame_spec
                  (set_differ (set_null_frame_count p 0) d) frame ox oy)
      as H.
    destruct (process_changed_frame ext _ frame ox oy) as [[r q] evs].
    unfold changed_frame_facts in H. simpl in H.
    destruct H as (H1 & H2 & H3 & H4 & H5 & H6 & H7 & H8 & H9 & H10
                   & H11 & H12 & H13).
    simpl. rewrite H8.
    repeat split; auto; now apply H13.
  - simpl.
    destruct (truthy (_last_blocks p)) eqn:E; simpl;
      repeat split; auto; repeat constructor; auto.
  - simpl. repeat split; auto; try constructor.
Qed.

(** X19.  A cycle calls OCR at most once and the translation engine at
    most once, and never hands the engine an empty batch. *)
Theorem one_ocr_one_batch_per_cycle (w : World) (p : t) :
  (ocr_calls (snd (_run_cycle ext w p)) <= 1)%nat
  /\ (List.length (translate_calls (snd (_run_cycle ext w p))) <= 1)%nat
  /\ Forall (fun call => fst (fst call) <> [])
            (translate_calls (snd (_run_cycle ext w p))).
Proof. pose proof (run_cycle_spec w p) as H. simpl in H. tauto. Qed.

(** X20.  [_last_blocks] is what the screen shows: whenever a cycle
    publishes anything, the last block set it publishes is the one it
    leaves in [_last_blocks], also when the cycle ends with an
    exception. *)
Theorem last_blocks_is_last_publication (w : World) (p : t) :
  last (published (snd (_run_cycle ext w p)))
       (_last_blocks (snd (fst (_run_cycle ext w p))))
  = _last_blocks (snd (fst (_run_cycle ext w p))).
Proof. pose proof (run_cycle_spec w p) as H. simpl in H. tauto. Qed.

(** X21.  With a non-negative cache capacity the only step of a cycle
    that can raise is the OpenCV conversion inside the change detector:
    when no frame is grabbed, or the grabbed frame converts, the cycle
    returns normally.  (OCR, style sampling and translation swallow their
    own failures, the stored indices are always in range and [put] only
    raises under a negative capacity.) *)
Theorem cycle_returns_when_opencv_does (w : World) (p : t) :
  0 <= TranslationCache.max_size (cache p) ->
  match CaptureEngine.grab (capture p) (backend_frame w) with
  | None => True
  | Some frame =>
      exists g,
        gray_downsample ext (FrameDiffer.downsample_width (differ p)) frame
        = Ok g
  end ->
  fst (fst (_run_cycle ext w p)) = Ok tt.
Proof.
  intros Hcap Hgray. unfold _run_cycle.
  destruct (capture_geometry (settings p) w) as [[region ox] oy].
  destruct (CaptureEngine.grab (capture p) (backend_frame w)) as [frame|];
    [|reflexivity].
  destruct Hgray as [g Hg]. simpl differ.
  assert (Hch : exists b d,
             FrameDiffer.has_changed (gray_downsample ext) (differ p) frame
             = (Ok b, d)).
  { unfold FrameDiffer.has_changed. rewrite Hg.
    destruct (FrameDiffer._prev_frame (differ p)); [|eauto].
    destruct (negb _); eauto. }
  destruct Hch as (b & d & E). rewrite E.
  destruct b; [|reflexivity].
  pose proof (process_changed_frame_spec
                (set_differ (set_null_frame_count p 0) d) frame ox oy) as H.
  destruct (process_changed_frame ext _ frame ox oy) as [[r q] evs].
  unfold changed_frame_facts in H. simpl in *.
  now apply H.
Qed.

(** *** Several cycles *)

Lemma loop_iteration_spec (w : World) (p : t) :
  settings (fst (loop_iteration ext w p)) = settings p
  /\ _last_blocks (fst (loop_iteration ext w p))
     = _last_blocks (snd (fst (_run_cycle ext w p)))
  /\ published (snd (loop_iteration ext w p))
     = published (snd (_run_cycle ext w p)).
Proof.
  pose proof (run_cycle_spec w p) as H. simpl in H.
  unfold loop_iteration.
  destruct (_run_cycle ext w p) as [[r q] evs]. simpl in *.
  destruct r; simpl; repeat split; try tauto.
  rewrite published_app. simpl. apply app_nil_r.
Qed.

(** X22.  Nothing untranslated is ever shown: if the model decodes one
    string per input and every block published so far carries a
    translation, then every block of every set published by any number of
    further loop iterations carries a translation. *)
Theorem only_translated_blocks_are_published
        (worlds : list World) (p : t) :
  (forall texts res,
      model_call ext texts (effective_source (settings p))
                 (AppSettings.target_language (settings p)) = Ok res ->
      List.length res = List.length texts) ->
  Forall translated (_last_blocks p) ->
  Forall (Forall translated)
         (published (snd (PipelineRuns.run_cycles ext worlds p))).
Proof.
  revert p. induction worlds as [|w worlds IH]; intros p Hmodel Hlast;
    simpl; [constructor|].
  pose proof (loop_iteration_spec w p) as (Hs & Hl & Hp).
  pose proof (run_cycle_spec w p) as Hc. simpl in Hc.
  destruct (loop_iteration ext w p) as [p1 evs1]. simpl in *.
  specialize (IH p1).
  destruct (PipelineRuns.run_cycles ext worlds p1) as [p2 evs2].
  simpl in *. rewrite published_app, Hp.
  destruct Hc as (_ & _ & _ & _ & _ & _ & _ & _ & _ & Hc).
  destruct (Hc Hmodel Hlast) as [H1 H2].
  apply Forall_app. split; auto.
  apply IH; [now rewrite Hs|now rewrite Hl].
Qed.

(** X23.  While no frame arrives (capture stopped or failing), the loop
    only counts: after any number of such iterations the failure counter
    has grown by that number, nothing else in the pipeline has changed,
    and the trace holds one [grab] call per iteration and nothing else. *)
Theorem frameless_cycles_only_count (worlds : list World) (p : t) :
  Forall (fun w => CaptureEngine.grab (capture p) (backend_frame w) = None)
         worlds ->
  PipelineRuns.run_cycles ext worlds p
  = (set_null_frame_count p
       (_null_frame_count p + Z.of_nat (List.length worlds)),
     map (fun w =>
            EvCaptureGrab (AppSettings.capture_mode (settings p))
                          (fst (fst (capture_geometry (settings p) w)))
                          (AppSettings.capture_monitor (settings p)))
         worlds).
Proof.
  revert p. induction worlds as [|w worlds IH]; intros p Hall.
  - simpl. rewrite Z.add_0_r. now destruct p.
  - inversion Hall as [|? ? Hw Hrest]; subst.
    simpl PipelineRuns.run_cycles.
    unfold loop_iteration, _run_cycle. rewrite Hw.
    destruct (capture_geometry (settings p) w) as [[region ox] oy] eqn:Eg.
    simpl.
    rewrite (IH (set_null_frame_count p (_null_frame_count p + 1))
               Hrest).
    simpl. rewrite Eg. simpl. f_equal.
    unfold set_null_frame_count. simpl. f_equal. lia.
Qed.

(** *** Settings updates *)

Lemma set_language_confidence (o : OCREngine.t) (code : string) :
  OCREngine.confidence_threshold (snd (ocr_set_language ext o code))
  = OCREngine.confidence_threshold o.
Proof.
  unfold ocr_set_language, OCREngine.set_language, OCREngine._create_engine.
  repeat match goal with
         | |- context [match ?x with _ => _ end] => destruct x; simpl
         end; reflexivity.
Qed.

Lemma update_settings_fields (p : t) (new : AppSettings.t) :
  let p1 := snd (fst (update_settings ext p new)) in
  settings p1 = new
  /\ FrameDiffer.threshold (differ p1) = AppSettings.frame_diff_threshold new
  /\ OCREngine.confidence_threshold (ocr p1)
     = AppSettings.ocr_confidence_threshold new
  /\ TranslationCache.max_size (cache p1) = AppSettings.max_cache_size new.
Proof.
  unfold update_settings.
  destruct (negb (String.eqb _ _) && negb (String.eqb _ "auto")).
  - pose proof (set_language_confidence
                  (OCREngine.set_confidence_threshold (ocr p)
                     (AppSettings.ocr_confidence_threshold new))
                  (AppSettings.source_language new)) as Hc.
    destruct (ocr_set_language _ _) as [r o]. simpl in Hc.
    destruct r as [[]|e]; simpl; [|now repeat split].
    destruct (negb _ || negb _); simpl; [|now repeat split].
    destruct (capture_start _ _) as [[[]|e] c]; simpl; now repeat split.
  - simpl.
    destruct (negb _ || negb _); simpl; [|now repeat split].
    destruct (capture_start _ _) as [[[]|e] c]; simpl; now repeat split.
Qed.

(** X24.  Sending the same settings again does nothing: whatever the
    first [update_settings] did (including a failed language switch or a
    failed capture restart, which are not retried), a second call with
    the same snapshot returns normally, makes no call on the OCR or the
    capture engine and leaves the pipeline exactly as it was. *)
Theorem update_settings_twice (p : t) (new : AppSettings.t) :
  let p1 := snd (fst (update_settings ext p new)) in
  update_settings ext p1 new = (Ok tt, p1, []).
Proof.
  intros p1.
  pose proof (update_settings_fields p new) as (Hs & Hd & Ho & Hc).
  fold p1 in Hs, Hd, Ho, Hc.
  rewrite (update_settings_quiet ext p1 new) by (now rewrite Hs).
  f_equal. f_equal.
  destruct p1 as [s c d o tr ca r l n]. simpl in *. subst s.
  destruct d, o, ca. simpl in *. subst. reflexivity.
Qed.

(** X25.  Through the application the pipeline never sees a change of
    source language, monitor or capture mode: each handler assigns to the
    settings object the pipeline already holds and then passes that same
    object to [update_settings], which compares it with itself.  So for
    every user action the call returns normally without any call on the
    OCR engine ([set_language]) or the capture engine (restart), the OCR
    language, the capture engine and the change detector's reference
    frame stay as they were, the pipeline holds the assigned settings,
    and the cache is emptied exactly for the two language handlers. *)
Theorem handlers_never_reconfigure_engines
        (p : t) (a : AppController.action) :
  exists p',
    AppController.handle ext p a = (Ok tt, p', [])
    /\ settings p' = AppController.assigned a (settings p)
    /\ capture p' = capture p
    /\ OCREngine._current_lang (ocr p') = OCREngine._current_lang (ocr p)
    /\ OCREngine._engine (ocr p') = OCREngine._engine (ocr p)
    /\ FrameDiffer._prev_frame (differ p') = FrameDiffer._prev_frame (differ p)
    /\ TranslationCache._cache (cache p')
       = (if AppController.clears_cache a then []
          else TranslationCache._cache (cache p)).
Proof.
  assert (Hpush : forall q,
             AppController.push_settings ext q
             = (Ok tt,
                mk (settings q) (capture q)
                   (FrameDiffer.set_threshold (differ q)
                      (AppSettings.frame_diff_threshold (settings q)))
                   (OCREngine.set_confidence_threshold (ocr q)
                      (AppSettings.ocr_confidence_threshold (settings q)))
                   (translation q)
                   (TranslationCache.set_max_size (cache q)
                      (AppSettings.max_cache_size (settings q)))
                   (_running q) (_last_blocks q) (_null_frame_count q),
                [])).
  { intros q. unfold AppController.push_settings.
    now apply update_settings_quiet. }
  destruct a as [code|code|region|form]; simpl;
    unfold AppController._on_source_changed,
           AppController._on_target_changed,
           AppController._on_region_selected,
           AppController._on_settings_changed;
    rewrite Hpush; simpl; eexists; split; try reflexivity;
    simpl; repeat split; reflexivity.
Qed.

(** *** Cycles on a screen that does not change *)

Lemma run_cycle_reference (w : World) (p : t) (frame : Frame)
      (g : FrameDiffer.Gray) :
  CaptureEngine.grab (capture p) (backend_frame w) = Some frame ->
  gray_downsample ext (FrameDiffer.downsample_width (differ p)) frame
  = Ok g ->
  differ (snd (fst (_run_cycle ext w p)))
  = FrameDiffer.set_prev (differ p) g
  /\ _null_frame_count (snd (fst (_run_cycle ext w p))) = 0.
Proof.
  intros Hgrab Hg. unfold _run_cycle.
  destruct (capture_geometry (settings p) w) as [[region ox] oy].
  rewrite Hgrab. simpl differ.
  assert (Hch : exists b,
             FrameDiffer.has_changed (gray_downsample ext) (differ p) frame
             = (Ok b, FrameDiffer.set_prev (differ p) g)).
  { unfold FrameDiffer.has_changed. rewrite Hg.
    destruct (FrameDiffer._prev_frame (differ p)); [|eauto].
    destruct (negb _); eauto. }
  destruct Hch as (b & E). rewrite E.
  destruct b; [|now split].
  pose proof (process_changed_frame_spec
                (set_differ (set_null_frame_count p 0)
                            (FrameDiffer.set_prev (differ p) g))
                frame ox oy) as H.
  destruct (process_changed_frame ext _ frame ox oy) as [[r q] evs].
  unfold changed_frame_facts in H. simpl in *.
  destruct H as (_ & _ & Hd & _ & _ & Hn & _). now split.
Qed.

(** X26.  A static screen costs one capture and one comparison per
    cycle: after any cycle on a frame, a further cycle on the same frame
    (same settings, non-negative threshold) finds it unchanged, calls
    neither OCR, nor style sampling, nor the cache, nor the translator,
    publishes the last block set again if it is not empty, and leaves the
    pipeline as it was. *)
Theorem static_screen_cycle (w : World) (p : t) (frame : Frame)
        (g : FrameDiffer.Gray) :
  CaptureEngine.grab (capture p) (backend_frame w) = Some frame ->
  gray_downsample ext (FrameDiffer.downsample_width (differ p)) frame
  = Ok g ->
  (0 <= FrameDiffer.threshold (differ p))%Q ->
  let p1 := snd (fst (_run_cycle ext w p)) in
  _run_cycle ext w p1
  = (Ok tt, p1,
     [EvCaptureGrab (AppSettings.capture_mode (settings p))
                    (fst (fst (capture_geometry (settings p) w)))
                    (AppSettings.capture_monitor (settings p));
      EvHasChanged]
     ++ (if truthy (_last_blocks p1)
         then [EvBlocksReady (_last_blocks p1)] else [])).
Proof.
  intros Hgrab Hg Hth p1.
  pose proof (run_cycle_reference w p frame g Hgrab Hg) as [Hd Hn].
  pose proof (run_cycle_spec w p) as Hc. simpl in Hc.
  destruct Hc as (Hs & Hcap & _).
  fold p1 in Hd, Hn, Hs, Hcap.
  unfold _run_cycle at 1. rewrite Hs, Hcap.
  destruct (capture_geometry (settings p) w) as [[region ox] oy].
  rewrite Hgrab. simpl differ.
  unfold FrameDiffer.has_changed. rewrite Hd. simpl.
  rewrite Hg. rewrite shape_eqb_refl. simpl.
  rewrite (identical_not_exceeding g _ Hth). simpl.
  f_equal. f_equal.
  destruct p1 as [s c d o tr ca r l n]. simpl in *. subst.
  reflexivity.
Qed.

(** *** Start and stop *)

Lemma capture_start_started (c c' : CaptureEngine.t) (monitor : Z) :
  capture_start ext c monitor = (Ok tt, c') ->
  CaptureEngine._started c' = true.
Proof.
  unfold capture_start, CaptureEngine.start.
  destruct (_ && _); [intros E; now inversion E|].
  destruct (HAS_MSS ext); intros E; inversion E. reflexivity.
Qed.

(** X27.  Starting re-reads the whole screen: when [start] succeeds on a
    stopped pipeline, the pipeline is running, and the next cycle that
    grabs a frame which converts to grayscale reports a change and runs
    OCR once on it, whatever was on screen when the pipeline was stopped
    (the change detector's reference frame is dropped). *)
Theorem first_cycle_after_start_runs_ocr
        (w : World) (p : t) (frame : Frame) (g : FrameDiffer.Gray) :
  _running p = false ->
  fst (fst (start ext p)) = Ok tt ->
  backend_frame w = Some frame ->
  gray_downsample ext (FrameDiffer.downsample_width (differ p)) frame
  = Ok g ->
  let p1 := snd (fst (start ext p)) in
  _running p1 = true
  /\ _last_blocks p1 = _last_blocks p
  /\ ocr_calls (snd (_run_cycle ext w p1)) = 1%nat.
Proof.
  intros Hrun Hok Hframe Hg. unfold start in *. rewrite Hrun in *.
  destruct (capture_start ext (CaptureEngine.stop (capture p)) _)
    as [[[]|e] c] eqn:Es; simpl in Hok; [|discriminate].
  apply capture_start_started in Es.
  simpl. repeat split.
  unfold _run_cycle. simpl.
  destruct (capture_geometry (settings p) w) as [[region ox] oy].
  unfold CaptureEngine.grab. rewrite Es, Hframe. simpl.
  unfold FrameDiffer.has_changed. simpl. rewrite Hg. simpl.
  match goal with
  | |- context [process_changed_frame ext ?q frame ox oy] =>
      pose proof (process_changed_frame_spec q frame ox oy) as H;
      destruct (process_changed_frame ext q frame ox oy) as [[r q'] evs]
  end.
  unfold changed_frame_facts in H. simpl in *.
  tauto.
Qed.

End PipelineMoreFacts.

(** ** The cache counters and single-string translation *)

Section CounterFacts.

Import TranslationCache CacheSession.

Lemma step_counters (c : TranslationCache.t) (o : op) :
  0 <= _hits c -> 0 <= _misses c ->
  0 <= _hits (step c o)
  /\ 0 <= _misses (step c o)
  /\ _hits (step c o) + _misses (step c o)
     = lookups (_hits c + _misses c) [o].
Proof.
  intros Hh Hm. destruct o as [[[text src] tgt]|[[text src] tgt] v|];
    simpl.
  - unfold get. destruct (contains _ _); simpl; lia.
  - unfold put. destruct (evict _ _). simpl. lia.
  - lia.
Qed.

Lemma run_counters (ops : list op) (c : TranslationCache.t) :
  0 <= _hits c -> 0 <= _misses c ->
  0 <= _hits (run c ops)
  /\ 0 <= _misses (run c ops)
  /\ _hits (run c ops) + _misses (run c ops)
     = lookups (_hits c + _misses c) ops.
Proof.
  revert c. induction ops as [|o ops IH]; intros c Hh Hm.
  - simpl. lia.
  - destruct (step_counters c o Hh Hm) as (H1 & H2 & H3).
    unfold run, lookups in *. simpl in *.
    rewrite <- H3. now apply IH.
Qed.

(** X28.  The two counters of the cache count the lookups: after any
    sequence of [get], [put] and [clear] calls on a new cache, hits plus
    misses is the number of [get] calls since the last [clear] (a [put]
    counts as neither), and [hit_rate] lies between 0 and 1. *)
Theorem counters_count_lookups (n : Z) (ops : list op) :
  let c := run (init n) ops in
  _hits c + _misses c = lookups 0 ops
  /\ (0 <= hit_rate c)%Q
  /\ (hit_rate c <= 1)%Q.
Proof.
  intros c.
  destruct (run_counters ops (init n)) as (Hh & Hm & Hs);
    [simpl; lia | simpl; lia |].
  fold c in Hh, Hm, Hs. clearbody c. split; [exact Hs|].
  unfold hit_rate.
  destruct (Z.gtb_spec (_hits c + _misses c) 0) as [Hpos|_].
  - split.
    + apply Qle_shift_div_l; [unfold Qlt; simpl; lia|].
      unfold Qle. simpl. lia.
    + apply Qle_shift_div_r; [unfold Qlt; simpl; lia|].
      rewrite Qmult_1_l. rewrite <- Zle_Qle. lia.
  - split; unfold Qle; simpl; lia.
Qed.

End CounterFacts.

Section TranslateOneFacts.

Import TranslationEngine TranslateOne.

Variable model_call :
  list string -> string -> string -> Result (list string).

(** X29.  [translate] never raises, whatever the model does: it returns
    the text itself when the model is not loaded, when the model call
    raises and when the model decodes nothing, and the first decoded
    string otherwise. *)
Theorem translate_one_total (e : t) (text src tgt : string) :
  fst (translate model_call e text src tgt)
  = Ok (if negb (_loaded e) then text
        else match model_call [text] src tgt with
             | Ok (r0 :: _) => r0
             | _ => text
             end).
Proof.
  unfold translate, translate_batch.
  destruct (_loaded e); simpl; [|reflexivity].
  destruct (model_call [text] src tgt) as [[|r0 rest]|ex]; reflexivity.
Qed.

End TranslateOneFacts.

(** ** The further theorems at concrete inputs *)

Lemma put_then_get_witness :
  fst (TranslationCache.put Examples.one_of_one
         "beta" "eng_Latn" "fra_Latn" "beta!") = Ok tt
  /\ fst (TranslationCache.get
            (snd (TranslationCache.put Examples.one_of_one
                    "beta" "eng_Latn" "fra_Latn" "beta!"))
            "beta" "eng_Latn" "fra_Latn") = Some "beta!"%string.
Proof.
  apply (put_then_get Examples.one_of_one
           "beta" "eng_Latn" "fra_Latn" "beta!").
  simpl. lia.
Defined.

Lemma put_keeps_other_keys_witness :
  TranslationCache.lookup
    (TranslationCache._cache
       (snd (TranslationCache.put Examples.two_of_two
               "gamma" "eng_Latn" "fra_Latn" "gamma!"))) Examples.kb
  = TranslationCache.lookup
      (TranslationCache._cache Examples.two_of_two) Examples.kb
  \/ TranslationCache.lookup
       (TranslationCache._cache
          (snd (TranslationCache.put Examples.two_of_two
                  "gamma" "eng_Latn" "fra_Latn" "gamma!"))) Examples.kb
     = None.
Proof.
  apply (put_keeps_other_keys Examples.two_of_two
           "gamma" "eng_Latn" "fra_Latn" "gamma!" Examples.kb).
  - simpl. lia.
  - unfold TranslationCache.wf. simpl.
    constructor; [intros [H|[]]; discriminate H|].
    constructor; [intros []|constructor].
  - discriminate.
Defined.

Lemma put_without_capacity_witness :
  TranslationCache._cache
    (snd (TranslationCache.put (TranslationCache.init (-1))
            "alpha" "eng_Latn" "fra_Latn" "alpha!")) = []
  /\ fst (TranslationCache.put (TranslationCache.init (-1))
            "alpha" "eng_Latn" "fra_Latn" "alpha!")
     = (if TranslationCache.max_size (TranslationCache.init (-1)) <? 0
        then Raise KeyError else Ok tt).
Proof.
  apply (put_without_capacity (TranslationCache.init (-1))
           "alpha" "eng_Latn" "fra_Latn" "alpha!").
  simpl. lia.
Defined.

Lemma put_new_key_evicts_head_witness :
  TranslationCache._cache
    (snd (TranslationCache.put Examples.two_of_two
            "gamma" "eng_Latn" "fra_Latn" "gamma!"))
  = if TranslationCache.size Examples.two_of_two
       <? TranslationCache.max_size Examples.two_of_two
    then TranslationCache._cache Examples.two_of_two
         ++ [(("gamma", "eng_Latn", "fra_Latn")%string, "gamma!"%string)]
    else tl (TranslationCache._cache Examples.two_of_two)
         ++ [(("gamma", "eng_Latn", "fra_Latn")%string, "gamma!"%string)].
Proof.
  apply (put_new_key_evicts_head Examples.two_of_two
           "gamma" "eng_Latn" "fra_Latn" "gamma!").
  - unfold TranslationCache.wf. simpl.
    constructor; [intros [H|[]]; discriminate H|].
    constructor; [intros []|constructor].
  - simpl. intros [H|[H|[]]]; discriminate H.
  - simpl. lia.
  - vm_compute. discriminate.
Defined.

Lemma get_keeps_entries_witness :
  Permutation
    (TranslationCache._cache
       (snd (TranslationCache.get Examples.two_of_two
               "alpha" "eng_Latn" "fra_Latn")))
    (TranslationCache._cache Examples.two_of_two)
  /\ TranslationCache.max_size
       (snd (TranslationCache.get Examples.two_of_two
               "alpha" "eng_Latn" "fra_Latn"))
     = TranslationCache.max_size Examples.two_of_two.
Proof.
  apply (get_keeps_entries Examples.two_of_two
           "alpha" "eng_Latn" "fra_Latn").
  unfold TranslationCache.wf. simpl.
  constructor; [intros [H|[]]; discriminate H|].
  constructor; [intros []|constructor].
Defined.

Lemma slow_drift_is_never_reported_witness :
  FrameStream.feed Examples.blue_channel (FrameDiffer.init (5 # 1) 320)
    [MoreExamples.flat_frame 0; MoreExamples.flat_frame 4;
     MoreExamples.flat_frame 8; MoreExamples.flat_frame 12]
  = ([Ok true; Ok false; Ok false; Ok false],
     FrameDiffer.mk (5 # 1) 320 (Some (MoreExamples.flat_gray 12))).
Proof.
  apply (slow_drift_is_never_reported Examples.blue_channel (5 # 1) 320
           (MoreExamples.flat_frame 0)
           [MoreExamples.flat_frame 4; MoreExamples.flat_frame 8;
            MoreExamples.flat_frame 12]
           (MoreExamples.flat_gray 0)
           [MoreExamples.flat_gray 4; MoreExamples.flat_gray 8;
            MoreExamples.flat_gray 12]).
  - reflexivity.
  - repeat constructor.
  - vm_compute. reflexivity.
Defined.

Lemma failed_language_switch_sticks_witness :
  let flores := Pipeline.flores_to_bcp47 Examples.sample_ext in
  let o' := OCREngine.mk (3 # 10) false true (Some "fr"%string) in
  OCREngine.set_language flores MoreExamples.nothing_supported
    (fun _ => true) MoreExamples.no_profile_engine o' "fra_Latn"
  = (Ok tt, o')
  /\ OCREngine._engine o' = false
  /\ OCREngine.detect (Pipeline.recognize Examples.sample_ext)
       (fun s => s) (fun _ => false) o' Examples.banded_frame 0 0 = [].
Proof.
  apply (failed_language_switch_sticks
           (Pipeline.flores_to_bcp47 Examples.sample_ext)
           MoreExamples.nothing_supported (fun _ => true)
           MoreExamples.no_profile_engine
           (Pipeline.recognize Examples.sample_ext)
           (fun s => s) (fun _ => false)
           MoreExamples.english_ocr
           (OCREngine.mk (3 # 10) false true (Some "fr"%string))
           "fra_Latn"
           (RuntimeError "Could not create any WinRT OCR engine")
           Examples.banded_frame 0 0).
  reflexivity.
Defined.

Lemma kmeans_needs_two_pixels_witness :
  StyleExtractor.extract (Pipeline.kmeans2 Examples.sample_ext)
    (Pipeline.linalg_norm_diff Examples.sample_ext)
    Examples.banded_frame [Examples.dot_block; MoreExamples.hello_block]
  = StyleExtractor.extract MoreExamples.strict_kmeans
      (Pipeline.linalg_norm_diff Examples.sample_ext)
      Examples.banded_frame [Examples.dot_block; MoreExamples.hello_block].
Proof.
  apply (kmeans_needs_two_pixels (Pipeline.kmeans2 Examples.sample_ext)
           (Pipeline.linalg_norm_diff Examples.sample_ext)
           MoreExamples.strict_kmeans
           Examples.banded_frame
           [Examples.dot_block; MoreExamples.hello_block]).
  intros px Hpx. unfold MoreExamples.strict_kmeans.
  destruct (Nat.ltb_spec (List.length px) 2); [lia|reflexivity].
Defined.

Lemma extract_on_empty_frame_witness :
  StyleExtractor.extract (Pipeline.kmeans2 Examples.sample_ext)
    (Pipeline.linalg_norm_diff Examples.sample_ext)
    MoreExamples.empty_frame [MoreExamples.hello_block]
  = Ok [MoreExamples.hello_block].
Proof.
  apply (extract_on_empty_frame (Pipeline.kmeans2 Examples.sample_ext)
           (Pipeline.linalg_norm_diff Examples.sample_ext)
           MoreExamples.empty_frame [MoreExamples.hello_block]).
  left. reflexivity.
Defined.

Lemma background_is_rgb_witness :
  BlockRel.rgb_in_range (250, 250, 250).
Proof.
  apply (background_is_rgb (Pipeline.kmeans2 Examples.sample_ext)
           (Pipeline.linalg_norm_diff Examples.sample_ext)
           Examples.banded_frame MoreExamples.hello_block
           (250, 250, 250) (20, 20, 20)).
  - intros r c. unfold Examples.banded_frame. cbn [f_pixel].
    destruct ((6 <=? r)%nat && (r <? 19)%nat);
      unfold StyleExtractor.chan0, StyleExtractor.chan1,
        StyleExtractor.chan2; simpl; lia.
  - vm_compute. reflexivity.
Defined.

Lemma background_of_uniform_frame_witness :
  (0, 0, 0)
  = if StyleRegion.has_border Examples.black_frame MoreExamples.hello_block
    then (StyleExtractor.chan2 (0, 0, 0), StyleExtractor.chan1 (0, 0, 0),
          StyleExtractor.chan0 (0, 0, 0))
    else (255, 255, 255).
Proof.
  apply (background_of_uniform_frame
           (Pipeline.kmeans2 Examples.sample_ext)
           (Pipeline.linalg_norm_diff Examples.sample_ext)
           Examples.black_frame (0, 0, 0) MoreExamples.hello_block
           (0, 0, 0) (250, 250, 250)).
  - intros r c. reflexivity.
  - vm_compute. reflexivity.
Defined.

(** Both cases occur.  On the black frame the region of the block is
    taller than the strip and the background is the frame's colour; on
    the 2 x 2 frame no strip fits and the background is white, although
    every pixel is (10, 20, 30). *)
Example uniform_frame_backgrounds :
  StyleRegion.has_border Examples.black_frame MoreExamples.hello_block = true
  /\ StyleExtractor.sample_block (Pipeline.kmeans2 Examples.sample_ext)
       (Pipeline.linalg_norm_diff Examples.sample_ext)
       Examples.black_frame MoreExamples.hello_block
     = Ok (StyleExtractor.Colored (0, 0, 0) (250, 250, 250))
  /\ StyleRegion.has_border MoreExamples.tiny_frame MoreExamples.tiny_block
     = false
  /\ StyleExtractor.sample_block (Pipeline.kmeans2 Examples.sample_ext)
       (Pipeline.linalg_norm_diff Examples.sample_ext)
       MoreExamples.tiny_frame MoreExamples.tiny_block
     = Ok (StyleExtractor.Colored (255, 255, 255) (20, 20, 20)).
Proof. vm_compute. repeat split. Qed.

(** The length filter of [detect] counts characters, not bytes: a line
    of four characters that takes five bytes is dropped. *)
Example accented_line_is_too_short :
  String.length MoreExamples.accented_text = 5%nat
  /\ OCREngine.len MoreExamples.accented_text = 4%nat
  /\ OCREngine.detect
       (fun _ => Ok [(MoreExamples.accented_text, 4, 6, 30, 13)])
       (fun s => s) (fun _ => false)
       MoreExamples.english_ocr Examples.banded_frame 0 0 = [].
Proof. vm_compute. repeat split. Qed.

Lemma bettercam_fallback_is_permanent_witness :
  let c1 := snd (CaptureEngine.start true MoreExamples.only_monitor_0
                   MoreExamples.bettercam_engine 1) in
  let ops := [CaptureSession.Stop; CaptureSession.Start 0] in
  CaptureEngine._use_bettercam
    (CaptureSession.run_ops true MoreExamples.only_monitor_0 c1 ops) = false
  /\ CaptureEngine._camera
       (CaptureSession.run_ops true MoreExamples.only_monitor_0 c1 ops)
     = false.
Proof.
  apply (bettercam_fallback_is_permanent true MoreExamples.only_monitor_0
           MoreExamples.bettercam_engine 1
           [CaptureSession.Stop; CaptureSession.Start 0]);
    reflexivity.
Defined.

Lemma grab_follows_start_and_stop_witness :
  let run := CaptureSession.run_ops true MoreExamples.only_monitor_0
               MoreExamples.bettercam_engine in
  let ops := [CaptureSession.Start 0; CaptureSession.Stop] in
  let backend := Some Examples.banded_frame in
  CaptureEngine.grab (run (ops ++ [CaptureSession.Stop])) backend = None
  /\ fst (CaptureEngine.start true MoreExamples.only_monitor_0 (run ops) 1)
     = Ok tt
  /\ CaptureEngine._monitor (run (ops ++ [CaptureSession.Start 1])) = 1
  /\ CaptureEngine.grab (run (ops ++ [CaptureSession.Start 1])) backend
     = backend.
Proof.
  apply (grab_follows_start_and_stop true MoreExamples.only_monitor_0
           MoreExamples.bettercam_engine
           [CaptureSession.Start 0; CaptureSession.Stop] 1
           (Some Examples.banded_frame)).
  reflexivity.
Defined.

Lemma cycle_returns_when_opencv_does_witness :
  fst (fst (Pipeline._run_cycle Examples.sample_ext
              (Examples.world_with Examples.banded_frame)
              Examples.ready)) = Ok tt.
Proof.
  apply (cycle_returns_when_opencv_does Examples.sample_ext
           (Examples.world_with Examples.banded_frame) Examples.ready).
  - simpl. lia.
  - simpl. exists MoreExamples.banded_gray. reflexivity.
Defined.

Lemma only_translated_blocks_are_published_witness :
  Forall (Forall Trace.translated)
    (Trace.published
       (snd (PipelineRuns.run_cycles Examples.sample_ext
               [Examples.world_with Examples.banded_frame;
                Examples.world_with Examples.black_frame;
                Examples.world_with Examples.black_frame]
               Examples.ready))).
Proof.
  apply (only_translated_blocks_are_published Examples.sample_ext
           [Examples.world_with Examples.banded_frame;
            Examples.world_with Examples.black_frame;
            Examples.world_with Examples.black_frame]
           Examples.ready).
  - intros texts res E. simpl in E. inversion E. apply length_map.
  - simpl. constructor.
Defined.

Lemma frameless_cycles_only_count_witness :
  PipelineRuns.run_cycles Examples.sample_ext
    [MoreExamples.dark_world; MoreExamples.dark_world] Examples.ready
  = (Pipeline.set_null_frame_count Examples.ready
       (Pipeline._null_frame_count Examples.ready + 2),
     [Pipeline.EvCaptureGrab AppSettings.FULLSCREEN None 0;
      Pipeline.EvCaptureGrab AppSettings.FULLSCREEN None 0]).
Proof.
  apply (frameless_cycles_only_count Examples.sample_ext
           [MoreExamples.dark_world; MoreExamples.dark_world]
           Examples.ready).
  repeat constructor.
Defined.

Lemma static_screen_cycle_witness :
  let ext := Examples.sample_ext in
  let w := Examples.world_with Examples.banded_frame in
  let p1 := snd (fst (Pipeline._run_cycle ext w Examples.ready)) in
  Pipeline._run_cycle ext w p1
  = (Ok tt, p1,
     [Pipeline.EvCaptureGrab AppSettings.FULLSCREEN None 0;
      Pipeline.EvHasChanged]
     ++ (if Pipeline.truthy (Pipeline._last_blocks p1)
         then [Pipeline.EvBlocksReady (Pipeline._last_blocks p1)]
         else [])).
Proof.
  apply (static_screen_cycle Examples.sample_ext
           (Examples.world_with Examples.banded_frame) Examples.ready
           Examples.banded_frame MoreExamples.banded_gray).
  - reflexivity.
  - reflexivity.
  - vm_compute. discriminate.
Defined.

Lemma first_cycle_after_start_runs_ocr_witness :
  let ext := Examples.sample_ext in
  let w := Examples.world_with Examples.banded_frame in
  let p1 := snd (fst (Pipeline.start ext MoreExamples.stopped)) in
  Pipeline._running p1 = true
  /\ Pipeline._last_blocks p1 = Pipeline._last_blocks MoreExamples.stopped
  /\ Trace.ocr_calls (snd (Pipeline._run_cycle ext w p1)) = 1%nat.
Proof.
  apply (first_cycle_after_start_runs_ocr Examples.sample_ext
           (Examples.world_with Examples.banded_frame)
           MoreExamples.stopped Examples.banded_frame
           MoreExamples.banded_gray).
  - reflexivity.
  - reflexivity.
  - reflexivity.
  - reflexivity.
Defined.
